(** * Verification of the environment pipeline and decision loop of online_rem.py

    The development embeds, definition by definition, the gym wrappers of
    [src/online_rem.py] (NoopResetEnv, FireResetEnv, EpisodicLifeEnv,
    MaxAndSkipEnv, ClipRewardEnv, WarpFrame, FrameStack, LazyFrames, ...),
    the ensemble combiner, the epsilon schedule and the module-level training
    loop, and proves the properties the specification states about them.

    Conventions.
    - Python exceptions are values of [exn]; a method that can raise returns a
      [result].
    - A gym environment is a class ([Env]: its methods over an explicit state)
      and an object ([Obj]: a class together with its current state).  A
      wrapper's state is the pair of its own attributes and the state of the
      environment it wraps.
    - Rewards and Q-values are Python floats; where rounding plays no role
      they are rationals ([Q]).  The epsilon schedule is also given over
      binary64 floats, because the specification compares its results with
      [==].
    - Frames are uint8 arrays: a shape and the row-major list of samples. *)

From Stdlib Require Import ZArith QArith Qminmax Qabs String List Bool Lia.
From Stdlib Require Import Floats.PrimFloat.
Import ListNotations.

(* Decimal float literals denote the nearest binary64 value, as in Python. *)
Set Warnings "-inexact-float".

Open Scope Z_scope.

(* ------------------------------------------------------------------ *)
(** * Exceptions, results, and the state-and-exception monad *)
(* ------------------------------------------------------------------ *)

Inductive exn : Type :=
| AssertionError
| IndexError
| ZeroDivisionError
| ValueError (msg : string)
| TypeError (msg : string)
| RuntimeError (msg : string)
| UnboundLocalError (name : string)
| AttributeError (name : string).

Inductive result (A : Type) : Type :=
| Ok (a : A)
| Raise (e : exn).

Arguments Ok {A} a.
Arguments Raise {A} e.

(** A computation over a state [S] that returns an [A] or raises. *)
Definition M (S A : Type) : Type := S -> result (A * S).

Definition ret {S A : Type} (a : A) : M S A := fun s => Ok (a, s).

Definition bind {S A B : Type} (m : M S A) (k : A -> M S B) : M S B :=
  fun s => match m s with
           | Ok (a, s') => k a s'
           | Raise e => Raise e
           end.

Definition raise {S A : Type} (e : exn) : M S A := fun _ => Raise e.

Definition assert_ {S : Type} (b : bool) : M S unit :=
  if b then ret tt else raise AssertionError.

Declare Scope monad_scope.
Delimit Scope monad_scope with monad.
Notation "x <- m ;; k" := (bind m (fun x => k))
  (at level 61, m at next level, right associativity) : monad_scope.
Notation "' p <- m ;; k" := (bind m (fun x => match x with p => k end))
  (at level 61, p pattern, m at next level, right associativity) : monad_scope.
Notation "m ;; k" := (bind m (fun _ => k))
  (at level 61, right associativity) : monad_scope.
Open Scope monad_scope.

(** Inside a wrapper, [self.env.<method>] runs on the second component of the
    state, [self.<attr>] reads and writes the first. *)
Definition inner {W S A : Type} (m : M S A) : M (W * S) A :=
  fun ws => match m (snd ws) with
            | Ok (a, s') => Ok (a, (fst ws, s'))
            | Raise e => Raise e
            end.

Definition self {W S : Type} : M (W * S) W := fun ws => Ok (fst ws, ws).

Definition set_self {W S : Type} (w : W) : M (W * S) unit :=
  fun ws => Ok (tt, (w, snd ws)).

Definition query {W S A : Type} (f : S -> A) : M (W * S) A :=
  fun ws => Ok (f (snd ws), ws).

(** [range(n)] *)
Definition range (n : Z) : list Z := map Z.of_nat (seq 0 (Z.to_nat n)).

(* ------------------------------------------------------------------ *)
(** * uint8 arrays *)
(* ------------------------------------------------------------------ *)

Record ndarray : Type := mkArr { shape : list nat; data : list Z }.

Definition size_of (sh : list nat) : nat := fold_right Nat.mul 1%nat sh.

Definition np_zeros (sh : list nat) : ndarray := mkArr sh (repeat 0 (size_of sh)).

(** Conversion of a sample to dtype uint8 (wrap-around modulo 256). *)
Definition as_uint8 (v : Z) : Z := v mod 256.

Definition is_uint8 (a : ndarray) : Prop := Forall (fun v => 0 <= v < 256) (data a).

Definition shape_eq_dec : forall s1 s2 : list nat, {s1 = s2} + {s1 <> s2} :=
  list_eq_dec Nat.eq_dec.

(** The entries of an array of shape [osh] broadcast to the shape [tsh] of the
    same rank: a dimension of size 1 is repeated, any other is kept. *)
Fixpoint broadcast (tsh osh : list nat) (d : list Z) : list Z :=
  match tsh, osh with
  | t :: tsh', o :: osh' =>
      let sub := size_of osh' in
      if (o =? t)%nat
      then flat_map (fun i => broadcast tsh' osh' (firstn sub (skipn (i * sub) d)))
                    (seq 0 t)
      else concat (repeat (broadcast tsh' osh' d) t)
  | _, _ => d
  end.

Fixpoint broadcastable (tsh osh : list nat) : bool :=
  match tsh, osh with
  | [], [] => true
  | t :: tsh', o :: osh' => ((o =? t)%nat || (o =? 1)%nat) && broadcastable tsh' osh'
  | _, _ => false
  end.

(** The shape of the value brought to the rank of the target: missing
    leading dimensions count as 1, and leading dimensions of size 1 in
    excess are dropped. *)
Definition align (tsh osh : list nat) : option (list nat) :=
  if (length osh <=? length tsh)%nat
  then Some (repeat 1%nat (length tsh - length osh) ++ osh)
  else if forallb (Nat.eqb 1) (firstn (length osh - length tsh) osh)
       then Some (skipn (length osh - length tsh) osh)
       else None.

(** [row[...] = obs] for a uint8 row of the buffer: the frame is cast to
    uint8 and, when its shape is not the row's, broadcast to it. *)
Definition setitem (row obs : ndarray) : result ndarray :=
  if shape_eq_dec (shape obs) (shape row)
  then Ok (mkArr (shape row) (map as_uint8 (data obs)))
  else match align (shape row) (shape obs) with
       | Some osh =>
           if broadcastable (shape row) osh
           then Ok (mkArr (shape row)
                      (map as_uint8 (broadcast (shape row) osh (data obs))))
           else Raise (ValueError "could not broadcast input array")
       | None => Raise (ValueError "could not broadcast input array")
       end.

Fixpoint zip_max (xs ys : list Z) : list Z :=
  match xs, ys with
  | x :: xs', y :: ys' => Z.max x y :: zip_max xs' ys'
  | _, _ => []
  end.

(** Element-wise maximum of two arrays of one shape. *)
Definition np_maximum (a b : ndarray) : ndarray :=
  mkArr (shape a) (zip_max (data a) (data b)).

(** [np.concatenate(frames, axis=0)] *)
Definition np_concatenate (frames : list ndarray) : result ndarray :=
  match frames with
  | [] => Raise (ValueError "need at least one array to concatenate")
  | f :: _ =>
      match shape f with
      | [] => Raise (ValueError "zero-dimensional arrays cannot be concatenated")
      | _ :: tl0 =>
          if forallb (fun g => match shape g with
                               | [] => false
                               | _ :: tl1 => if shape_eq_dec tl1 tl0 then true else false
                               end) frames
          then Ok (mkArr (fold_right Nat.add 0%nat (map (fun g => hd 0%nat (shape g)) frames) :: tl0)
                         (concat (map data frames)))
          else Raise (ValueError "all the input array dimensions must match exactly")
      end
  end.

(** [np.transpose(a, axes=(2, 0, 1))] of an array of shape (h, w, c). *)
Definition np_transpose_201 (a : ndarray) : result ndarray :=
  match shape a with
  | [h; w; c] =>
      Ok (mkArr [c; h; w]
            (flat_map (fun ci =>
               flat_map (fun hi =>
                 map (fun wi => nth ((hi * w + wi) * c + ci)%nat (data a) 0)
                     (seq 0 w))
                 (seq 0 h))
               (seq 0 c)))
  | _ => Raise (ValueError "axes don't match array")
  end.

(* ------------------------------------------------------------------ *)
(** * Environments *)
(* ------------------------------------------------------------------ *)

(** The [info] dictionary. *)
Definition Info : Type := list (string * Q).

(** What [step] returns: (obs, reward, done, info). *)
Definition StepRet (O : Type) : Type := (O * Q * bool * Info)%type.

(** The [dtype] of an observation space. *)
Inductive dtype : Type := np_uint8 | np_float32 | np_dtype (name : string).

Definition is_np_uint8 (d : dtype) : bool :=
  match d with np_uint8 => true | _ => false end.

(** An environment class with observations of type [O].  [ale_lives],
    [action_meanings] and [np_randint] are what the wrappers reach through
    [env.unwrapped]: [ale.lives()], [get_action_meanings()] and
    [np_random.randint(low, high)]; [observation_shape] and
    [observation_dtype] are [observation_space.shape] and
    [observation_space.dtype]. *)
Record Env (O : Type) : Type := mkEnv {
  St : Type;
  reset : M St O;
  step : Z -> M St (StepRet O);
  ale_lives : St -> Z;
  action_meanings : list string;
  np_randint : Z -> Z -> M St Z;
  observation_shape : list nat;
  observation_dtype : dtype;
  spec_id : string
}.

Arguments St {O} _.
Arguments reset {O} _.
Arguments step {O} _ _.
Arguments ale_lives {O} _ _.
Arguments action_meanings {O} _.
Arguments np_randint {O} _ _ _.
Arguments observation_shape {O} _.
Arguments observation_dtype {O} _.
Arguments spec_id {O} _.

(** An environment object: a class and its current state. *)
Record Obj (O : Type) : Type := mkObj { cls : Env O; st : St cls }.

Arguments mkObj {O} _ _.
Arguments cls {O} _.
Arguments st {O} _.

Definition obj_reset {O : Type} (o : Obj O) : result (O * Obj O) :=
  match reset (cls o) (st o) with
  | Ok (ob, s') => Ok (ob, mkObj (cls o) s')
  | Raise e => Raise e
  end.

Definition obj_step {O : Type} (o : Obj O) (action : Z) : result (StepRet O * Obj O) :=
  match step (cls o) action (st o) with
  | Ok (r, s') => Ok (r, mkObj (cls o) s')
  | Raise e => Raise e
  end.

(** An environment none of whose methods raises. *)
Definition total {O : Type} (env : Env O) : Prop :=
  (forall s, exists ob s', reset env s = Ok (ob, s')) /\
  (forall a s, exists r s', step env a s = Ok (r, s')).

(* ------------------------------------------------------------------ *)
(** * NoopResetEnv *)
(* ------------------------------------------------------------------ *)

Record NoopResetEnv_self : Type := mkNoopReset {
  noop_max : Z;
  override_num_noops : option Z;
  noop_action : Z
}.

Section NoopResetEnv.
Context {O : Type} (env : Env O).

(** The body of [for _ in range(noops)], with [obs] as loop variable. *)
Fixpoint NoopResetEnv_loop (action : Z) (n : nat) (obs : option O)
  : M (St env) (option O) :=
  match n with
  | 0%nat => ret obs
  | S n' =>
      '(obs1, _, done, _) <- step env action ;;
      obs2 <- (if done : bool then reset env else ret obs1) ;;
      NoopResetEnv_loop action n' (Some obs2)
  end.

(** [obs] is [None] only before the first iteration, and [assert noops > 0]
    guarantees one: the last branch is not reachable. *)
Definition NoopResetEnv_reset : M (NoopResetEnv_self * St env) O :=
  inner (reset env) ;;
  w <- self ;;
  noops <- match override_num_noops w with
           | Some n => ret n
           | None => inner (np_randint env 1 (noop_max w + 1))
           end ;;
  assert_ (0 <? noops) ;;
  obs <- inner (NoopResetEnv_loop (noop_action w) (Z.to_nat noops) None) ;;
  match obs with
  | Some o => ret o
  | None => raise (RuntimeError "obs is None")
  end.

Definition NoopResetEnv_step (ac : Z) : M (NoopResetEnv_self * St env) (StepRet O) :=
  inner (step env ac).

Definition NoopResetEnv_cls : Env O :=
  {| St := NoopResetEnv_self * St env;
     reset := NoopResetEnv_reset;
     step := NoopResetEnv_step;
     ale_lives := fun ws => ale_lives env (snd ws);
     action_meanings := action_meanings env;
     np_randint := fun lo hi => inner (np_randint env lo hi);
     observation_shape := observation_shape env;
     observation_dtype := observation_dtype env;
     spec_id := spec_id env |}.
End NoopResetEnv.

(** [NoopResetEnv(env, noop_max)] *)
Definition NoopResetEnv {O : Type} (env : Obj O) (noop_max : Z) : result (Obj O) :=
  match action_meanings (cls env) with
  | [] => Raise IndexError
  | m :: _ =>
      if String.eqb m "NOOP"
      then Ok (mkObj (NoopResetEnv_cls (cls env)) (mkNoopReset noop_max None 0, st env))
      else Raise AssertionError
  end.

(* ------------------------------------------------------------------ *)
(** * FireResetEnv *)
(* ------------------------------------------------------------------ *)

Section FireResetEnv.
Context {O : Type} (env : Env O).

(** The wrapper has no attributes of its own: its state is the state of the
    wrapped environment. *)
Definition FireResetEnv_reset : M (St env) O :=
  reset env ;;
  '(obs, _, done, _) <- step env 1 ;;
  (if done : bool then reset env ;; ret tt else ret tt) ;;
  '(obs, _, done, _) <- step env 2 ;;
  (if done : bool then reset env ;; ret tt else ret tt) ;;
  ret obs.

Definition FireResetEnv_step (ac : Z) : M (St env) (StepRet O) := step env ac.

Definition FireResetEnv_cls : Env O :=
  {| St := St env;
     reset := FireResetEnv_reset;
     step := FireResetEnv_step;
     ale_lives := ale_lives env;
     action_meanings := action_meanings env;
     np_randint := np_randint env;
     observation_shape := observation_shape env;
     observation_dtype := observation_dtype env;
     spec_id := spec_id env |}.
End FireResetEnv.

(** [FireResetEnv(env)] *)
Definition FireResetEnv {O : Type} (env : Obj O) : result (Obj O) :=
  match nth_error (action_meanings (cls env)) 1 with
  | None => Raise IndexError
  | Some m =>
      if String.eqb m "FIRE"
      then if (3 <=? length (action_meanings (cls env)))%nat
           then Ok (mkObj (FireResetEnv_cls (cls env)) (st env))
           else Raise AssertionError
      else Raise AssertionError
  end.

(* ------------------------------------------------------------------ *)
(** * EpisodicLifeEnv *)
(* ------------------------------------------------------------------ *)

Record EpisodicLifeEnv_self : Type := mkEpisodicLife {
  lives : Z;
  was_real_done : bool
}.

Section EpisodicLifeEnv.
Context {O : Type} (env : Env O).

Definition EpisodicLifeEnv_step (action : Z)
  : M (EpisodicLifeEnv_self * St env) (StepRet O) :=
  '(obs, reward, done, info) <- inner (step env action) ;;
  w <- self ;;
  set_self (mkEpisodicLife (lives w) done) ;;
  lives' <- query (ale_lives env) ;;
  w <- self ;;
  let done := if (lives' <? lives w) && (0 <? lives') then true else done in
  set_self (mkEpisodicLife lives' (was_real_done w)) ;;
  ret (obs, reward, done, info).

Definition EpisodicLifeEnv_reset : M (EpisodicLifeEnv_self * St env) O :=
  w <- self ;;
  obs <- (if was_real_done w
          then inner (reset env)
          else '(obs, _, _, _) <- inner (step env 0) ;; ret obs) ;;
  lives' <- query (ale_lives env) ;;
  w <- self ;;
  set_self (mkEpisodicLife lives' (was_real_done w)) ;;
  ret obs.

Definition EpisodicLifeEnv_cls : Env O :=
  {| St := EpisodicLifeEnv_self * St env;
     reset := EpisodicLifeEnv_reset;
     step := EpisodicLifeEnv_step;
     ale_lives := fun ws => ale_lives env (snd ws);
     action_meanings := action_meanings env;
     np_randint := fun lo hi => inner (np_randint env lo hi);
     observation_shape := observation_shape env;
     observation_dtype := observation_dtype env;
     spec_id := spec_id env |}.
End EpisodicLifeEnv.

(** [EpisodicLifeEnv(env)] *)
Definition EpisodicLifeEnv {O : Type} (env : Obj O) : Obj O :=
  mkObj (EpisodicLifeEnv_cls (cls env)) (mkEpisodicLife 0 true, st env).

(* ------------------------------------------------------------------ *)
(** * MaxAndSkipEnv *)
(* ------------------------------------------------------------------ *)

(** [_obs_buffer] has shape (2,) + observation shape: two rows. *)
Record MaxAndSkipEnv_self : Type := mkMaxAndSkip {
  _obs_buffer : ndarray * ndarray;
  _skip : Z
}.

(** The local variables of [MaxAndSkipEnv.step] that survive the loop.
    [done] (initially [None]) and [info] (initially unbound) are assigned
    together, by the same statement: [last_tick] is [None] until then. *)
Record MaxAndSkipEnv_locals : Type := mkLocals {
  total_reward : Q;
  last_tick : option (bool * Info)
}.

Definition lift {S A : Type} (r : result A) : M S A :=
  fun s => match r with Ok a => Ok (a, s) | Raise e => Raise e end.

Section MaxAndSkipEnv.
Context (env : Env ndarray).

Fixpoint MaxAndSkipEnv_loop (action : Z) (idx : list Z) (v : MaxAndSkipEnv_locals)
  : M (MaxAndSkipEnv_self * St env) MaxAndSkipEnv_locals :=
  match idx with
  | [] => ret v
  | i :: rest =>
      '(obs, reward, done, info) <- inner (step env action) ;;
      w <- self ;;
      (if i =? _skip w - 2
       then row <- lift (setitem (fst (_obs_buffer w)) obs) ;;
            set_self (mkMaxAndSkip (row, snd (_obs_buffer w)) (_skip w))
       else ret tt) ;;
      w <- self ;;
      (if i =? _skip w - 1
       then row <- lift (setitem (snd (_obs_buffer w)) obs) ;;
            set_self (mkMaxAndSkip (fst (_obs_buffer w), row) (_skip w))
       else ret tt) ;;
      let v' := mkLocals (total_reward v + reward)%Q (Some (done, info)) in
      if done : bool then ret v' else MaxAndSkipEnv_loop action rest v'
  end.

Definition MaxAndSkipEnv_step (action : Z)
  : M (MaxAndSkipEnv_self * St env) (StepRet ndarray) :=
  w <- self ;;
  v <- MaxAndSkipEnv_loop action (range (_skip w)) (mkLocals 0%Q None) ;;
  w <- self ;;
  let max_frame := np_maximum (fst (_obs_buffer w)) (snd (_obs_buffer w)) in
  match last_tick v with
  | Some (done, info) => ret (max_frame, total_reward v, done, info)
  | None => raise (UnboundLocalError "info")
  end.

Definition MaxAndSkipEnv_reset : M (MaxAndSkipEnv_self * St env) ndarray :=
  inner (reset env).

Definition MaxAndSkipEnv_cls : Env ndarray :=
  {| St := MaxAndSkipEnv_self * St env;
     reset := MaxAndSkipEnv_reset;
     step := MaxAndSkipEnv_step;
     ale_lives := fun ws => ale_lives env (snd ws);
     action_meanings := action_meanings env;
     np_randint := fun lo hi => inner (np_randint env lo hi);
     observation_shape := observation_shape env;
     observation_dtype := observation_dtype env;
     spec_id := spec_id env |}.
End MaxAndSkipEnv.

(** [MaxAndSkipEnv(env, skip)] *)
Definition MaxAndSkipEnv (env : Obj ndarray) (skip : Z) : Obj ndarray :=
  let zeros := np_zeros (observation_shape (cls env)) in
  mkObj (MaxAndSkipEnv_cls (cls env)) (mkMaxAndSkip (zeros, zeros) skip, st env).

(* ------------------------------------------------------------------ *)
(** * gym.RewardWrapper and ClipRewardEnv *)
(* ------------------------------------------------------------------ *)

(** [np.sign] *)
Definition np_sign (x : Q) : Q :=
  match (x ?= 0)%Q with
  | Lt => (-1)%Q
  | Eq => 0%Q
  | Gt => 1%Q
  end.

Definition ClipRewardEnv_reward (reward : Q) : Q := np_sign reward.

Section RewardWrapper.
Context {Ob : Type} (reward : Q -> Q) (env : Env Ob).

Definition RewardWrapper_step (action : Z) : M (St env) (StepRet Ob) :=
  '(observation, rew, done, info) <- step env action ;;
  ret (observation, reward rew, done, info).

Definition RewardWrapper_cls : Env Ob :=
  {| St := St env;
     reset := reset env;
     step := RewardWrapper_step;
     ale_lives := ale_lives env;
     action_meanings := action_meanings env;
     np_randint := np_randint env;
     observation_shape := observation_shape env;
     observation_dtype := observation_dtype env;
     spec_id := spec_id env |}.
End RewardWrapper.

(** [ClipRewardEnv(env)] *)
Definition ClipRewardEnv {Ob : Type} (env : Obj Ob) : Obj Ob :=
  mkObj (RewardWrapper_cls ClipRewardEnv_reward (cls env)) (st env).

(* ------------------------------------------------------------------ *)
(** * gym.ObservationWrapper *)
(* ------------------------------------------------------------------ *)

Section ObservationWrapper.
Context {Ob Ob' : Type} (observation : Ob -> result Ob')
        (new_shape : list nat) (new_dtype : dtype) (env : Env Ob).

Definition ObservationWrapper_reset : M (St env) Ob' :=
  ob <- reset env ;; lift (observation ob).

Definition ObservationWrapper_step (action : Z) : M (St env) (StepRet Ob') :=
  '(ob, rew, done, info) <- step env action ;;
  ob' <- lift (observation ob) ;;
  ret (ob', rew, done, info).

Definition ObservationWrapper_cls : Env Ob' :=
  {| St := St env;
     reset := ObservationWrapper_reset;
     step := ObservationWrapper_step;
     ale_lives := ale_lives env;
     action_meanings := action_meanings env;
     np_randint := np_randint env;
     observation_shape := new_shape;
     observation_dtype := new_dtype;
     spec_id := spec_id env |}.
End ObservationWrapper.

(* ------------------------------------------------------------------ *)
(** * LazyFrames *)
(* ------------------------------------------------------------------ *)

Record LazyFrames : Type := mkLazyFrames {
  _frames : option (list ndarray);
  _out : option ndarray
}.

(** [LazyFrames(frames)] *)
Definition LazyFrames_init (frames : list ndarray) : LazyFrames :=
  mkLazyFrames (Some frames) None.

(** [_force]: [_frames] is [None] only once [_out] is set. *)
Definition LazyFrames_force : M LazyFrames ndarray :=
  fun lf =>
    match _out lf with
    | None =>
        match _frames lf with
        | Some fs =>
            match np_concatenate fs with
            | Ok out => Ok (out, mkLazyFrames None (Some out))
            | Raise e => Raise e
            end
        | None => Raise (TypeError "concatenate of None")
        end
    | Some out => Ok (out, lf)
    end.

(** [__array__(dtype=None)] *)
Definition LazyFrames_array : M LazyFrames ndarray := LazyFrames_force.

(* ------------------------------------------------------------------ *)
(** * FrameStack *)
(* ------------------------------------------------------------------ *)

(** [deque.append] on a deque of maximal length [maxlen]. *)
Definition deque_append {A : Type} (maxlen : nat) (d : list A) (x : A) : list A :=
  if (maxlen =? 0)%nat then d
  else if (length d <? maxlen)%nat then d ++ [x]
  else tl d ++ [x].

Record FrameStack_self : Type := mkFrameStack {
  k : Z;
  frames : list ndarray
}.

Section FrameStack.
Context (env : Env ndarray).

Definition FrameStack_get_ob : M (FrameStack_self * St env) LazyFrames :=
  w <- self ;;
  assert_ (Z.of_nat (length (frames w)) =? k w) ;;
  ret (LazyFrames_init (frames w)).

Definition FrameStack_append (ob : ndarray) : M (FrameStack_self * St env) unit :=
  w <- self ;;
  set_self (mkFrameStack (k w) (deque_append (Z.to_nat (k w)) (frames w) ob)).

Fixpoint FrameStack_fill (n : nat) (ob : ndarray) : M (FrameStack_self * St env) unit :=
  match n with
  | 0%nat => ret tt
  | S n' => FrameStack_append ob ;; FrameStack_fill n' ob
  end.

Definition FrameStack_reset : M (FrameStack_self * St env) LazyFrames :=
  ob <- inner (reset env) ;;
  w <- self ;;
  FrameStack_fill (Z.to_nat (k w)) ob ;;
  FrameStack_get_ob.

Definition FrameStack_step (action : Z)
  : M (FrameStack_self * St env) (StepRet LazyFrames) :=
  '(ob, reward, done, info) <- inner (step env action) ;;
  FrameStack_append ob ;;
  lf <- FrameStack_get_ob ;;
  ret (lf, reward, done, info).

Definition FrameStack_cls (new_shape : list nat) : Env LazyFrames :=
  {| St := FrameStack_self * St env;
     reset := FrameStack_reset;
     step := FrameStack_step;
     ale_lives := fun ws => ale_lives env (snd ws);
     action_meanings := action_meanings env;
     np_randint := fun lo hi => inner (np_randint env lo hi);
     observation_shape := new_shape;
     observation_dtype := observation_dtype env;
     spec_id := spec_id env |}.
End FrameStack.

(** [FrameStack(env, k)]: [deque([], maxlen=k)] rejects a negative [k], and
    [shp[0]] needs a shape of at least one dimension. *)
Definition FrameStack (env : Obj ndarray) (k : Z) : result (Obj LazyFrames) :=
  if k <? 0 then Raise (ValueError "maxlen must be non-negative")
  else match observation_shape (cls env) with
       | [] => Raise IndexError
       | d0 :: shp =>
           Ok (mkObj (FrameStack_cls (cls env) ((d0 * Z.to_nat k)%nat :: shp))
                     (mkFrameStack k [], st env))
       end.

(* ------------------------------------------------------------------ *)
(** * Construction of the pipeline *)
(* ------------------------------------------------------------------ *)

(** Sequencing of constructors that can raise. *)
Definition and_then {A B : Type} (r : result A) (k : A -> result B) : result B :=
  match r with
  | Ok a => k a
  | Raise e => Raise e
  end.

Notation "x <<- r ;; k" := (and_then r (fun x => k))
  (at level 61, r at next level, right associativity) : monad_scope.
Notation "' p <<- r ;; k" := (and_then r (fun x => match x with p => k end))
  (at level 61, p pattern, r at next level, right associativity) : monad_scope.

(** [s1 in s2] for strings. *)
Definition str_in (s1 s2 : string) : bool :=
  match String.index 0 s1 s2 with
  | Some _ => true
  | None => false
  end.

(** [wrap_atari(env, max_episode_steps)] *)
Definition wrap_atari (env : Obj ndarray) (max_episode_steps : option Z)
  : result (Obj ndarray) :=
  if str_in "NoFrameskip" (spec_id (cls env)) then
    env <<- NoopResetEnv env 30 ;;
    let env := MaxAndSkipEnv env 4 in
    match max_episode_steps with
    | None => Ok env
    | Some _ => Raise AssertionError
    end
  else Raise AssertionError.

(** [gym.wrappers.RecordEpisodeStatistics] belongs to the gym library, not to
    this repository.  It is modelled as gym documents it: observation, reward
    and [done] are handed on unchanged, and when [done] is set the episode's
    return and length are added to [info] (the nested dictionary
    [info["episode"]] is flattened to two keys; the wall-clock entry is left
    out). *)
Record RecordEpisodeStatistics_self : Type := mkRecordStats {
  episode_return : Q;
  episode_length : Z
}.

Section RecordEpisodeStatistics.
Context {Ob : Type} (env : Env Ob).

Definition RecordEpisodeStatistics_reset
  : M (RecordEpisodeStatistics_self * St env) Ob :=
  observation <- inner (reset env) ;;
  set_self (mkRecordStats 0%Q 0) ;;
  ret observation.

Definition RecordEpisodeStatistics_step (action : Z)
  : M (RecordEpisodeStatistics_self * St env) (StepRet Ob) :=
  '(observation, reward, done, info) <- inner (step env action) ;;
  w <- self ;;
  let ret_ := (episode_return w + reward)%Q in
  let len_ := episode_length w + 1 in
  if done : bool
  then set_self (mkRecordStats 0%Q 0) ;;
       ret (observation, reward, done,
            ("episode.r"%string, ret_) :: ("episode.l"%string, inject_Z len_) :: info)
  else set_self (mkRecordStats ret_ len_) ;;
       ret (observation, reward, done, info).

Definition RecordEpisodeStatistics_cls : Env Ob :=
  {| St := RecordEpisodeStatistics_self * St env;
     reset := RecordEpisodeStatistics_reset;
     step := RecordEpisodeStatistics_step;
     ale_lives := fun ws => ale_lives env (snd ws);
     action_meanings := action_meanings env;
     np_randint := fun lo hi => inner (np_randint env lo hi);
     observation_shape := observation_shape env;
     observation_dtype := observation_dtype env;
     spec_id := spec_id env |}.
End RecordEpisodeStatistics.

Definition RecordEpisodeStatistics {Ob : Type} (env : Obj Ob) : Obj Ob :=
  mkObj (RecordEpisodeStatistics_cls (cls env)) (mkRecordStats 0%Q 0, st env).

(** What the agent receives: a plain array, or a [LazyFrames] when frames are
    stacked. *)
Inductive Observation : Type :=
| Array (a : ndarray)
| Stacked (lf : LazyFrames).

Section Pipeline.
(** OpenCV and the float conversion are external: [cv2.cvtColor(frame,
    cv2.COLOR_RGB2GRAY)], [cv2.resize(frame, (width, height),
    interpolation=cv2.INTER_AREA)], and
    [np.array(observation).astype(np.float32) / 255.0]. *)
Variable cv2_cvtColor_RGB2GRAY : ndarray -> result ndarray.
Variable cv2_resize_INTER_AREA : ndarray -> nat -> nat -> result ndarray.
Variable astype_float32_div_255 : ndarray -> result ndarray.

(** [np.expand_dims(frame, -1)] *)
Definition np_expand_dims_last (a : ndarray) : ndarray :=
  mkArr (shape a ++ [1%nat]) (data a).

(** [WarpFrame.observation] for [dict_space_key=None] (observations are
    arrays, never dictionaries). *)
Definition WarpFrame_observation (_width _height : nat) (_grayscale : bool)
           (obs : ndarray) : result ndarray :=
  let frame := obs in
  frame <<- (if _grayscale then cv2_cvtColor_RGB2GRAY frame else Ok frame) ;;
  frame <<- cv2_resize_INTER_AREA frame _width _height ;;
  let frame := if _grayscale then np_expand_dims_last frame else frame in
  Ok frame.

(** [WarpFrame(env, width, height, grayscale)] *)
Definition WarpFrame (env : Obj ndarray) (width height : nat) (grayscale : bool)
  : result (Obj ndarray) :=
  let num_colors := if grayscale then 1%nat else 3%nat in
  let new_space := [height; width; num_colors] in
  let original_space := cls env in
  if is_np_uint8 (observation_dtype original_space)
     && (length (observation_shape original_space) =? 3)%nat
  then Ok (mkObj (ObservationWrapper_cls
                    (WarpFrame_observation width height grayscale)
                    new_space np_uint8 (cls env)) (st env))
  else Raise AssertionError.

(** [ScaledFloatFrame(env)] *)
Definition ScaledFloatFrame (env : Obj ndarray) : Obj ndarray :=
  mkObj (ObservationWrapper_cls astype_float32_div_255
           (observation_shape (cls env)) np_float32 (cls env)) (st env).

(** [ImageToPyTorch(env)]: the new shape is
    [(old_shape[-1], old_shape[0], old_shape[1])]. *)
Definition ImageToPyTorch (env : Obj ndarray) : result (Obj ndarray) :=
  let old_shape := observation_shape (cls env) in
  match old_shape with
  | d0 :: d1 :: _ =>
      Ok (mkObj (ObservationWrapper_cls np_transpose_201
                   [List.last old_shape 0%nat; d0; d1] np_uint8 (cls env)) (st env))
  | _ => Raise IndexError
  end.

(** The last stage only fixes the type of what comes out. *)
Definition present {Ob : Type} (inj : Ob -> Observation) (env : Obj Ob)
  : Obj Observation :=
  mkObj (ObservationWrapper_cls (fun ob => Ok (inj ob))
           (observation_shape (cls env)) (observation_dtype (cls env))
           (cls env)) (st env).

(** [wrap_deepmind(env, episode_life, clip_rewards, frame_stack, scale)] *)
Definition wrap_deepmind (env : Obj ndarray)
           (episode_life clip_rewards frame_stack scale : bool)
  : result (Obj Observation) :=
  let env := if episode_life then EpisodicLifeEnv env else env in
  env <<- (if existsb (String.eqb "FIRE") (action_meanings (cls env))
           then FireResetEnv env else Ok env) ;;
  env <<- WarpFrame env 84 84 true ;;
  let env := if scale then ScaledFloatFrame env else env in
  let env := if clip_rewards then ClipRewardEnv env else env in
  env <<- ImageToPyTorch env ;;
  if frame_stack
  then env <<- FrameStack env 4 ;; Ok (present Stacked env)
  else Ok (present Array env).

(** The environment the training script builds (lines 473-485):
    [gym.make], [wrap_atari], [RecordEpisodeStatistics], then
    [wrap_deepmind(env, episode_life=False, clip_rewards=True,
    frame_stack=True, scale=False)]. *)
Definition training_env (emulator : Obj ndarray) : result (Obj Observation) :=
  env <<- wrap_atari emulator None ;;
  let env := RecordEpisodeStatistics env in
  wrap_deepmind env false true true false.
End Pipeline.

(* ------------------------------------------------------------------ *)
(** * Tensors and the ensemble combiner *)
(* ------------------------------------------------------------------ *)

(** A float tensor: its shape and its entries in row-major order. *)
Record tensor : Type := mkTensor { tshape : list nat; tdata : list Q }.

Definition Qsum (xs : list Q) : Q := fold_right Qplus 0%Q xs.

(** Cut a list into [count] consecutive rows of [width] entries. *)
Fixpoint rows (width count : nat) (xs : list Q) : list (list Q) :=
  match count with
  | 0%nat => []
  | S count' => firstn width xs :: rows width count' (skipn width xs)
  end.

(** The rows of a tensor along its last axis ([removelast] of the shape
    counts them, the last dimension is their width). *)
Definition last_axis_rows (t : tensor) : list (list Q) :=
  rows (List.last (tshape t) 1%nat) (size_of (removelast (tshape t))) (tdata t).

(** [torch.mean(t, axis=-1)].  Over no heads at all torch answers NaN, which
    a rational cannot say; [x / 0] is [0] here.  [forward] never gets there:
    [torch.reshape] refuses a last dimension of 0. *)
Definition torch_mean_last (t : tensor) : tensor :=
  let width := List.last (tshape t) 1%nat in
  mkTensor (removelast (tshape t))
           (map (fun row => (Qsum row / inject_Z (Z.of_nat width))%Q) (last_axis_rows t)).

Definition dot (xs ys : list Q) : Q :=
  Qsum (map (fun xy => (fst xy * snd xy)%Q) (combine xs ys)).

(** Column [c] of a row-major matrix with [cols] columns. *)
Definition column (cols c : nat) (m : list Q) : list Q :=
  map (fun r => nth (r * cols + c)%nat m 0%Q) (seq 0 (length m / cols)).

(** [torch.matmul(t, m)] for a tensor of at least one dimension and a matrix
    (what [random_stochastic_matrix] returns) or a vector; [None] is what
    [transform_matrix] defaults to. *)
Definition torch_matmul (t : tensor) (m : option tensor) : result tensor :=
  match m with
  | None => Raise (TypeError "matmul(): argument 'other' must be Tensor, not NoneType")
  | Some m =>
      match tshape t with
      | [] => Raise (RuntimeError "both arguments to matmul need to be at least 1D")
      | _ :: _ =>
          let width := List.last (tshape t) 1%nat in
          match tshape m with
          | [h; c] =>
              if (h =? width)%nat
              then Ok (mkTensor (removelast (tshape t) ++ [c])
                         (flat_map (fun row => map (fun ci => dot row (column c ci (tdata m)))
                                                   (seq 0 c))
                                   (last_axis_rows t)))
              else Raise (RuntimeError "mat1 and mat2 shapes cannot be multiplied")
          | [h] =>
              if (h =? width)%nat
              then Ok (mkTensor (removelast (tshape t))
                         (map (fun row => dot row (tdata m)) (last_axis_rows t)))
              else Raise (RuntimeError "size mismatch")
          | _ => Raise (RuntimeError "matmul: operand rank not modelled")
          end
      end
  end.

(** [t.squeeze()]: every dimension of size 1 goes. *)
Definition torch_squeeze (t : tensor) : tensor :=
  mkTensor (filter (fun d => negb (d =? 1)%nat) (tshape t)) (tdata t).

Definition combine_q_functions (q_functions : tensor) (transform_strategy : string)
           (transform_matrix : option tensor) : result (tensor * tensor) :=
  let q_values := torch_mean_last q_functions in
  q_functions <<-
    (if String.eqb transform_strategy "STOCHASTIC"
     then prod <<- torch_matmul q_functions transform_matrix ;; Ok (torch_squeeze prod)
     else if String.eqb transform_strategy "IDENTITY"
     then Ok q_functions
     else Raise (ValueError (transform_strategy ++ " is not a valid reordering strategy"))) ;;
  Ok (q_functions, q_values).

(** [random_stochastic_matrix(dim)], given what [torch.rand((dim, 1))] drew:
    the draws divided by their L1 norm. *)
Definition random_stochastic_matrix (draws : list Q) : tensor :=
  let norm := Qsum (map Qabs draws) in
  mkTensor [length draws; 1%nat] (map (fun x => (x / norm)%Q) draws).

(* ------------------------------------------------------------------ *)
(** * The epsilon schedule *)
(* ------------------------------------------------------------------ *)

(** [linear_schedule] in exact arithmetic.  Python's [max(a, b)] is [b] when
    [a < b] and [a] otherwise, which is [Qmax]. *)
Definition linear_schedule (start_e end_e duration t : Q) : result Q :=
  if Qeq_bool duration 0 then Raise ZeroDivisionError
  else
    let slope := ((end_e - start_e) / duration)%Q in
    Ok (Qmax (slope * t + start_e) end_e).

(** [linear_schedule] as Python evaluates it, on binary64 floats ([duration]
    and [t] are integers converted to float by the arithmetic). *)
Definition linear_schedule_f (start_e end_e duration t : float) : result float :=
  if PrimFloat.eqb duration 0%float then Raise ZeroDivisionError
  else
    let slope := ((end_e - start_e) / duration)%float in
    let v := (slope * t + start_e)%float in
    Ok (if PrimFloat.ltb v end_e then end_e else v).

(* ------------------------------------------------------------------ *)
(** * MultiHeadQNetwork *)
(* ------------------------------------------------------------------ *)

(** [torch.reshape(t, [-1, a, h])] *)
Definition torch_reshape_batch (t : tensor) (a h : nat) : result tensor :=
  let n := length (tdata t) in
  if (a * h =? 0)%nat
  then Raise (RuntimeError "cannot reshape: the unspecified dimension -1 can be any value")
  else if (n mod (a * h) =? 0)%nat
  then Ok (mkTensor [(n / (a * h))%nat; a; h] (tdata t))
  else Raise (RuntimeError "shape is invalid for input size").

(** Index of the first maximal entry, scanning from position [i]. *)
Fixpoint argmax_from (best_i : nat) (best : Q) (i : nat) (xs : list Q) : nat :=
  match xs with
  | [] => best_i
  | x :: xs' =>
      if Qlt_le_dec best x
      then argmax_from i x (S i) xs'
      else argmax_from best_i best (S i) xs'
  end.

Definition argmax (xs : list Q) : nat :=
  match xs with
  | [] => 0%nat
  | x :: xs' => argmax_from 0%nat x 1%nat xs'
  end.

(** [torch.argmax(t, dim=1)] for the (batch, actions) tensors [forward]
    returns: one index per batch row. *)
Definition torch_argmax_dim1 (t : tensor) : result (list Z) :=
  match tshape t with
  | [b; a] =>
      if (a =? 0)%nat
      then Raise (IndexError)
      else Ok (map (fun row => Z.of_nat (argmax row)) (rows a b (tdata t)))
  | _ => Raise (RuntimeError "argmax: operand rank not modelled")
  end.

(** The action handed to [env.step] is the array [argmax] returns; the
    emulator uses it as an index, which numpy allows for an array of one
    entry. *)
Definition as_index (a : list Z) : result Z :=
  match a with
  | [i] => Ok i
  | _ => Raise (TypeError "only integer scalar arrays can be converted to a scalar index")
  end.

(** Lines 614-617: the action for the Q-values [logits] and the value of
    [epsilon], given what [random.random()] and [env.action_space.sample()]
    return. *)
Definition choose_action (logits : tensor) (epsilon random_random : Q) (sample : Z)
  : result Z :=
  if Qlt_le_dec random_random epsilon
  then Ok sample
  else idx <<- torch_argmax_dim1 logits ;; as_index idx.

Section Agent.
(** The parameters of a network and the function [self.network] computes
    from them are external (torch).  [network p x] is the flat output of
    the last layer for the batch [x]. *)
Variable Params : Type.
Variable network : Params -> list ndarray -> result tensor.
(** [env.action_space.n] *)
Variable n_actions : nat.

Record MultiHeadQNetwork : Type := mkNet {
  num_heads : nat;
  transform_strategy : string;
  transform_matrix : option tensor;
  params : Params
}.

(** [net.transform_matrix = m] *)
Definition set_transform_matrix (net : MultiHeadQNetwork) (m : option tensor)
  : MultiHeadQNetwork :=
  mkNet (num_heads net) (transform_strategy net) m (params net).

(** The parameters after an optimiser step or [load_state_dict]. *)
Definition set_params (net : MultiHeadQNetwork) (p : Params) : MultiHeadQNetwork :=
  mkNet (num_heads net) (transform_strategy net) (transform_matrix net) p.

(** [MultiHeadQNetwork.forward(x, device)] *)
Definition forward (net : MultiHeadQNetwork) (x : list ndarray)
  : result (tensor * tensor) :=
  unordered_q_heads <<- network (params net) x ;;
  unordered_q_heads <<- torch_reshape_batch unordered_q_heads n_actions (num_heads net) ;;
  combine_q_functions unordered_q_heads (transform_strategy net) (transform_matrix net).

End Agent.

Arguments num_heads {Params} _.
Arguments transform_strategy {Params} _.
Arguments transform_matrix {Params} _.
Arguments params {Params} _.
Arguments mkNet {Params} _ _ _ _.
Arguments set_transform_matrix {Params} net m.
Arguments set_params {Params} net p.
Arguments forward {Params} network n_actions net x.

(* ------------------------------------------------------------------ *)
(** * The training loop (lines 596-670) *)
(* ------------------------------------------------------------------ *)

(** The command-line arguments the loop reads. *)
Record Args : Type := mkArgs {
  capture_video : bool;
  learning_start : Z;
  target_network_frequency : Z;
  batch_size : Z;
  train_frequency : Z;
  save_frequency : Z;
  total_timesteps : Z;
  start_e : Q;
  end_e : Q;
  exploration_fraction : Q
}.

(** What the loop does that is visible outside: checkpoints, the episode
    statistics it logs, learning steps and target synchronisations, each with
    its [global_step]. *)
Inductive event : Type :=
| Saved (global_step : Z)
| EpisodeLogged (global_step : Z)
| Learned (global_step : Z)
| TargetSynced (global_step : Z).

(** [a % b] on Python integers ([Z.modulo] has the sign of the divisor, as
    Python's [%]). *)
Definition py_mod (a b : Z) : result Z :=
  if b =? 0 then Raise ZeroDivisionError else Ok (a mod b).

(** Line 636: [global_step > args.learning_start and
    global_step % args.train_frequency == 0]; [and] evaluates its second
    operand only when the first holds. *)
Definition learning_due (args : Args) (global_step : Z) : result bool :=
  if learning_start args <? global_step
  then r <<- py_mod global_step (train_frequency args) ;; Ok (r =? 0)
  else Ok false.

(** [np.array(obs)]: a [LazyFrames] is materialised; the cache this fills
    belongs to an object the loop does not read again. *)
Definition np_array (o : Observation) : result ndarray :=
  match o with
  | Array a => Ok a
  | Stacked lf =>
      match LazyFrames_array lf with
      | Ok (a, _) => Ok a
      | Raise e => Raise e
      end
  end.

Definition has_key (key : string) (info : Info) : bool :=
  existsb (fun kv => String.eqb key (fst kv)) info.

Section TrainingLoop.
Variable args : Args.

(** External collaborators: the network (torch), the replay buffer
    (stable_baselines3), the loss and optimiser update of lines 642-666,
    and the random sources, each indexed by the global step at which it is
    consulted. *)
Variable Params : Type.
Variable network : Params -> list ndarray -> result tensor.
Variable n_actions : nat.
Variable Buffer : Type.
Variable rb_add : Buffer -> ndarray * Observation * Z * Q * bool -> Buffer.
Variable Batch : Type.
Variable rb_sample : Z -> Buffer -> Z -> result Batch.
Variable optimize : MultiHeadQNetwork Params -> MultiHeadQNetwork Params ->
                    Batch -> result Params.
Variable random_random : Z -> Q.
Variable action_space_sample : Z -> Z.
Variable torch_rand : Z -> list Q.

Record LoopState : Type := mkLoop {
  env : Obj Observation;
  obs : Observation;
  rb : Buffer;
  q_network : MultiHeadQNetwork Params;
  target_network : MultiHeadQNetwork Params;
  events : list event
}.

Definition emit (e : event) (s : LoopState) : LoopState :=
  mkLoop (env s) (obs s) (rb s) (q_network s) (target_network s) (events s ++ [e]).

(** Lines 601-607. *)
Definition save_phase (global_step : Z) (s : LoopState) : result LoopState :=
  r <<- py_mod global_step (save_frequency args) ;;
  Ok (if r =? 0 then emit (Saved global_step) s else s).

(** Lines 609-617: the observation as an array and the action chosen for
    it.  [env.set_q_values] exists only on the visualisation wrapper, which
    is not applied.  The schedule is evaluated in exact arithmetic (see
    [linear_schedule_f] for its binary64 value); what [choose_action] does
    with the value of [epsilon] is the same whatever that value is. *)
Definition decide (global_step : Z) (s : LoopState) : result (ndarray * Z) :=
  arr <<- np_array (obs s) ;;
  '(_, logits) <<- forward network n_actions (q_network s) [arr] ;;
  _ <<- (if capture_video args
         then Raise (AttributeError "set_q_values") else Ok tt) ;;
  epsilon <<- linear_schedule (start_e args) (end_e args)
                (exploration_fraction args * inject_Z (total_timesteps args))%Q
                (inject_Z global_step) ;;
  action <<- choose_action logits epsilon (random_random global_step)
               (action_space_sample global_step) ;;
  Ok (arr, action).

(** Lines 609-633: choose an action, step the environment, store the
    transition, reset at the end of an episode. *)
Definition act_phase (global_step : Z) (s : LoopState) : result LoopState :=
  '(arr, action) <<- decide global_step s ;;
  '((next_obs, reward, done, info), env1) <<- obj_step (env s) action ;;
  let ev := if has_key "episode.r" info
            then events s ++ [EpisodeLogged global_step] else events s in
  let rb1 := rb_add (rb s) (arr, next_obs, action, reward, done) in
  if done : bool
  then '(obs1, env2) <<- obj_reset env1 ;;
       Ok (mkLoop env2 obs1 rb1 (q_network s) (target_network s) ev)
  else Ok (mkLoop env1 next_obs rb1 (q_network s) (target_network s) ev).

(** The loop state with another online network (line 639 assigns its
    [transform_matrix]). *)
Definition with_q_network (s : LoopState) (q : MultiHeadQNetwork Params) : LoopState :=
  mkLoop (env s) (obs s) (rb s) q (target_network s) (events s).

(** Lines 636-670: the learning step and the target synchronisation. *)
Definition learn_phase (global_step : Z) (s : LoopState) : result LoopState :=
  due <<- learning_due args global_step ;;
  if due : bool
  then
    let transform_matrix := random_stochastic_matrix (torch_rand global_step) in
    let q := set_transform_matrix (q_network s) (Some transform_matrix) in
    let tgt := set_transform_matrix (target_network s) (Some transform_matrix) in
    data <<- rb_sample global_step (rb s) (batch_size args) ;;
    p <<- optimize q tgt data ;;
    let q := set_params q p in
    let s1 := emit (Learned global_step) (mkLoop (env s) (obs s) (rb s) q tgt (events s)) in
    r <<- py_mod global_step (target_network_frequency args) ;;
    if r =? 0
    then Ok (emit (TargetSynced global_step)
               (mkLoop (env s1) (obs s1) (rb s1) q (set_params tgt p) (events s1)))
    else Ok s1
  else Ok s.

(** One pass through the body of [for global_step in range(...)]. *)
Definition iteration (global_step : Z) (s : LoopState) : result LoopState :=
  s <<- save_phase global_step s ;;
  s <<- act_phase global_step s ;;
  learn_phase global_step s.

Fixpoint iterate (steps : list Z) (s : LoopState) : result LoopState :=
  match steps with
  | [] => Ok s
  | global_step :: rest => s <<- iteration global_step s ;; iterate rest s
  end.

(** Lines 596-670, from the environment and networks built before. *)
Definition training_loop (env0 : Obj Observation) (rb0 : Buffer)
           (q0 target0 : MultiHeadQNetwork Params) : result LoopState :=
  '(obs0, env1) <<- obj_reset env0 ;;
  iterate (range (total_timesteps args)) (mkLoop env1 obs0 rb0 q0 target0 []).

(** The global steps at which a learning step was made. *)
Fixpoint learning_steps (evs : list event) : list Z :=
  match evs with
  | [] => []
  | Learned g :: evs' => g :: learning_steps evs'
  | _ :: evs' => learning_steps evs'
  end.
End TrainingLoop.

(* ------------------------------------------------------------------ *)
(** * Instruments: a call recorder and scripted emulators *)
(* ------------------------------------------------------------------ *)

(** The calls a wrapper makes on the environment it wraps. *)
Inductive call : Type :=
| CallReset
| CallStep (action : Z).

Section Recorder.
Context {Ob : Type} (env : Env Ob).

(** [env] with a log of the calls it received in front of its state. *)
Definition Recorder : Env Ob :=
  {| St := list call * St env;
     reset := (log <- self ;; set_self (log ++ [CallReset]) ;; inner (reset env));
     step := fun action =>
               (log <- self ;; set_self (log ++ [CallStep action]) ;;
                inner (step env action));
     ale_lives := fun ls => ale_lives env (snd ls);
     action_meanings := action_meanings env;
     np_randint := fun lo hi => inner (np_randint env lo hi);
     observation_shape := observation_shape env;
     observation_dtype := observation_dtype env;
     spec_id := spec_id env |}.
End Recorder.

(** Run the actions one after the other; the results of the steps in order. *)
Fixpoint play {Ob : Type} (env : Env Ob) (actions : list Z)
  : M (St env) (list (StepRet Ob)) :=
  match actions with
  | [] => ret []
  | a :: rest =>
      r <- step env a ;;
      rs <- play env rest ;;
      ret (r :: rs)
  end.

Definition done_of {Ob : Type} (r : StepRet Ob) : bool := snd (fst r).
Definition reward_of {Ob : Type} (r : StepRet Ob) : Q := snd (fst (fst r)).
Definition obs_of {Ob : Type} (r : StepRet Ob) : Ob := fst (fst (fst r)).

(** One emulator tick of a script. *)
Record tick : Type := mkTick {
  tick_frame : ndarray;
  tick_reward : Q;
  tick_done : bool;
  tick_lives : Z
}.

(** A deterministic emulator that plays [script]: its state is the number of
    ticks since the last reset, tick [n] answers [script n] whatever the
    action, and [reset] rewinds to tick 0 with [lives0] lives. *)
Definition scripted (lives0 : Z) (frame0 : ndarray) (script : nat -> tick) : Env ndarray :=
  {| St := nat;
     reset := fun _ => Ok (frame0, 0%nat);
     step := fun _ n =>
               let t := script n in
               Ok ((tick_frame t, tick_reward t, tick_done t,
                    [("ale.lives"%string, inject_Z (tick_lives t))]), S n);
     ale_lives := fun n => match n with
                           | 0%nat => lives0
                           | S m => tick_lives (script m)
                           end;
     action_meanings := ["NOOP"; "FIRE"; "RIGHT"; "LEFT"]%string;
     np_randint := fun lo hi n =>
                     if lo <? hi then Ok (lo, n) else Raise (ValueError "low >= high");
     observation_shape := shape frame0;
     observation_dtype := np_uint8;
     spec_id := "ScriptedNoFrameskip-v4" |}.

(** An environment that declares another dtype for its observation space. *)
Definition with_dtype {Ob : Type} (d : dtype) (env : Env Ob) : Env Ob :=
  {| St := St env;
     reset := reset env;
     step := step env;
     ale_lives := ale_lives env;
     action_meanings := action_meanings env;
     np_randint := np_randint env;
     observation_shape := observation_shape env;
     observation_dtype := d;
     spec_id := spec_id env |}.

(** An emulator whose [step] raises. *)
Definition broken_emulator : Env ndarray :=
  {| St := nat;
     reset := fun n => Ok (mkArr [1%nat; 1%nat; 1%nat] [0], n);
     step := fun _ _ => Raise (RuntimeError "emulator");
     ale_lives := fun _ => 0;
     action_meanings := ["NOOP"]%string;
     np_randint := fun lo hi n =>
                     if lo <? hi then Ok (lo, n) else Raise (ValueError "low >= high");
     observation_shape := [1%nat; 1%nat; 1%nat];
     observation_dtype := np_uint8;
     spec_id := "BrokenNoFrameskip-v4" |}.

(** A one-sample frame that carries a marker. *)
Definition marker (v : Z) : ndarray := mkArr [1%nat; 1%nat; 1%nat] [v].

(** The life sequence [3,3,2,2,1,0]; only the last tick ends the episode. *)
Definition life_script : list Z := [3; 3; 2; 2; 1; 0].

Definition life_emulator : Env ndarray :=
  scripted 3 (marker 0)
    (fun n => mkTick (marker (Z.of_nat (S n))) 0%Q (5 <=? n)%nat (nth n life_script 0)).

(** An emulator whose second tick after a reset ends the episode. *)
Definition fire_emulator : Env ndarray :=
  scripted 1 (marker 0)
    (fun n => mkTick (marker (Z.of_nat (S n))) 0%Q (1 <=? n)%nat 1).

(** The ticks a repeat window of at most [n] ticks executes: the wrapped
    environment is stepped with one action until a tick is done or [n] ticks
    have passed. *)
Fixpoint window (env : Env ndarray) (action : Z) (n : nat)
  : M (St env) (list (StepRet ndarray)) :=
  match n with
  | 0%nat => ret []
  | S n' =>
      r <- step env action ;;
      if done_of r then ret [r]
      else rs <- window env action n' ;; ret (r :: rs)
  end.

(** What a row of the buffer holds after [row[...] = f]. *)
Definition stored (sh : list nat) (f : ndarray) : ndarray :=
  mkArr sh (map as_uint8 (data f)).

(** An emulator for a repeat window: tick [n] shows a frame of two samples,
    pays [n + 1], and only the tick with index [stop] is done. *)
Definition flicker_emulator (stop : nat) : Env ndarray :=
  scripted 3 (mkArr [2%nat] [0; 0])
    (fun n => mkTick (mkArr [2%nat] [Z.of_nat (10 * n); Z.of_nat (50 - 10 * n)])
                     (inject_Z (Z.of_nat (S n))) (n =? stop)%nat 3).

(** The last [n] entries of a list (all of it when it is shorter). *)
Definition lastn {A : Type} (n : nat) (l : list A) : list A :=
  skipn (length l - n) l.

(** A step result without its observation. *)
Definition outcome {Ob : Type} (r : StepRet Ob) : Q * bool * Info :=
  (reward_of r, done_of r, snd r).

(** An emulator whose frame at tick [n] is the marker [n + 1] in a frame of
    shape (1, 1, 1); it never ends an episode. *)
Definition marker_emulator : Env ndarray :=
  scripted 3 (marker 0) (fun n => mkTick (marker (Z.of_nat (S n))) 0%Q false 3).

(** A network without parameters that answers the same three actions by two
    heads for every observation: the heads of action 0 are 1 and 2, those of
    action 1 are 9 and 0, those of action 2 are 5 and 6. *)
Definition stub_network (_ : unit) (x : list ndarray) : result tensor :=
  Ok (mkTensor [length x; 6%nat] (concat (map (fun _ => [1; 2; 9; 0; 5; 6]%Q) x))).

Definition stub_net (m : option tensor) : MultiHeadQNetwork unit :=
  mkNet 2%nat "STOCHASTIC" m tt.

(* ------------------------------------------------------------------ *)
(** * A stub run of the training loop *)
(* ------------------------------------------------------------------ *)

(** total_timesteps=50, learning_start=10, train_frequency=5. *)
Definition stub_args : Args :=
  mkArgs false 10 20 4 5 25 50 1%Q (1 # 100)%Q (1 # 5)%Q.

(** The collaborators of the stub run: a replay buffer that is a list, a
    sampler that takes its first entries, an optimiser that leaves the
    (absent) parameters alone, and fixed "random" draws. *)
Definition stub_rb_add (rb : list (ndarray * Observation * Z * Q * bool))
           (t : ndarray * Observation * Z * Q * bool) :=
  rb ++ [t].

Definition stub_rb_sample (_ : Z) (rb : list (ndarray * Observation * Z * Q * bool))
           (n : Z) : result (list (ndarray * Observation * Z * Q * bool)) :=
  Ok (firstn (Z.to_nat n) rb).

Definition stub_optimize (_ _ : MultiHeadQNetwork unit)
           (_ : list (ndarray * Observation * Z * Q * bool)) : result unit :=
  Ok tt.

Definition stub_run
  : result (LoopState unit (list (ndarray * Observation * Z * Q * bool))) :=
  training_loop stub_args unit stub_network 3
    (list (ndarray * Observation * Z * Q * bool)) stub_rb_add
    (list (ndarray * Observation * Z * Q * bool)) stub_rb_sample stub_optimize
    (fun g => if Z.even g then 0%Q else 1%Q)
    (fun g => g mod 3)
    (fun _ => [1 # 2; 1 # 4]%Q)
    (present Array (mkObj marker_emulator 0%nat)) []
    (stub_net (Some (random_stochastic_matrix [1 # 2; 1 # 2]%Q)))
    (stub_net (Some (random_stochastic_matrix [1 # 2; 1 # 2]%Q))).

(** For the statements about the greedy action: the mean across the [h] heads of action [j], read off the flat output
    of the network for one observation. *)
Definition mean_of_heads (raw : tensor) (h j : nat) : Q :=
  (Qsum (map (fun k => nth (j * h + k) (tdata raw) 0) (seq 0 h)) / inject_Z (Z.of_nat h))%Q.

(** A loop state of the stub run that holds the observation [marker 7],
    with the transform matrix [m] in both networks, and the decision of the
    stub run in it. *)
Definition stub_state (m : option tensor)
  : LoopState unit (list (ndarray * Observation * Z * Q * bool)) :=
  mkLoop unit _ (present Array (mkObj marker_emulator 0%nat)) (Array (marker 7)) []
         (stub_net m) (stub_net m) [].

Definition stub_decide (g : Z)
           (s : LoopState unit (list (ndarray * Observation * Z * Q * bool)))
  : result (ndarray * Z) :=
  decide stub_args unit stub_network 3 (list (ndarray * Observation * Z * Q * bool))
         (fun g => if Z.even g then 0%Q else 1%Q) (fun g => g mod 3) g s.

(** The same state over an environment that logs its calls, and the state
    after one pass through lines 609-633 at global step 1 (the state itself
    if the pass raised). *)
Definition stub_recorded (m : option tensor)
  : LoopState unit (list (ndarray * Observation * Z * Q * bool)) :=
  mkLoop unit _
         (mkObj (Recorder (cls (present Array (mkObj marker_emulator 0%nat))))
                ([], 0%nat))
         (Array (marker 7)) [] (stub_net m) (stub_net m) [].

Definition stub_acted : LoopState unit (list (ndarray * Observation * Z * Q * bool)) :=
  match act_phase stub_args unit stub_network 3
          (list (ndarray * Observation * Z * Q * bool)) stub_rb_add
          (fun g => if Z.even g then 0%Q else 1%Q) (fun g => g mod 3)
          1 (stub_recorded (Some (mkTensor [2; 1]%nat [1; 0]%Q))) with
  | Ok s => s
  | Raise _ => stub_recorded None
  end.

(** The state the stub run ends in (the initial one if it raised). *)
Definition stub_final : LoopState unit (list (ndarray * Observation * Z * Q * bool)) :=
  match stub_run with
  | Ok s => s
  | Raise _ =>
      mkLoop unit _ (present Array (mkObj marker_emulator 0%nat)) (Array (marker 0)) []
             (stub_net None) (stub_net None) []
  end.

(* ------------------------------------------------------------------ *)
(** * Looking through a pipeline *)
(* ------------------------------------------------------------------ *)

(** [outer] is built over [inner] and hands its [done] on: [proj] finds the
    state of [inner] inside the state of [outer]; the life counter is the one
    of [inner]; and every step of [outer] that returns is a step of [inner]
    with the same action and the same [done]. *)
Definition forwards_done {O1 O2 : Type} (outer : Env O1) (inner : Env O2)
           (proj : St outer -> St inner) : Prop :=
  (forall s, ale_lives outer s = ale_lives inner (proj s)) /\
  (forall a s r s',
      step outer a s = Ok (r, s') ->
      exists r2, step inner a (proj s) = Ok (r2, proj s') /\ done_of r = done_of r2).

Definition sees_through {O1 O2 : Type} (outer : Obj O1) (inner : Obj O2) : Prop :=
  exists proj, forwards_done (cls outer) (cls inner) proj /\ proj (st outer) = st inner.

(** Stand-ins for OpenCV: grey is the first channel, and resizing fills the
    target with the first sample. *)
Fixpoint every_third (xs : list Z) : list Z :=
  match xs with
  | x :: _ :: _ :: rest => x :: every_third rest
  | _ => []
  end.

Definition stub_cvtColor (a : ndarray) : result ndarray :=
  Ok (mkArr (removelast (shape a)) (every_third (data a))).

Definition stub_resize (a : ndarray) (width height : nat) : result ndarray :=
  Ok (mkArr [height; width] (repeat (hd 0 (data a)) (height * width))).

Definition stub_scale (a : ndarray) : result ndarray := Ok a.

(** A colour frame of one pixel. *)
Definition pixel (v : Z) : ndarray := mkArr [1%nat; 1%nat; 3%nat] [v; v; v].

(** An emulator that starts with 3 lives and loses one at tick 10; the game
    goes on ([done] is never set). *)
Definition life_loss_emulator : Env ndarray :=
  scripted 3 (pixel 0)
    (fun n => mkTick (pixel (Z.of_nat (S n))) 0%Q false (if (n <? 10)%nat then 3 else 2)).

(** The training pipeline over it, reset and stepped once: the life counts
    before and after the step, and the [done] the step reports. *)
Definition life_loss_step : result (Z * bool * Z) :=
  env <<- training_env stub_cvtColor stub_resize stub_scale (mkObj life_loss_emulator 0%nat) ;;
  '(_, env1) <<- obj_reset env ;;
  '(r, env2) <<- obj_step env1 0 ;;
  Ok (ale_lives (cls env1) (st env1), done_of r, ale_lives (cls env2) (st env2)).

(** The pipeline the stub builds (the bare emulator if construction raised). *)
Definition stub_training_env : Obj Observation :=
  match training_env stub_cvtColor stub_resize stub_scale (mkObj life_loss_emulator 0%nat) with
  | Ok env => env
  | Raise _ => present Array (mkObj life_loss_emulator 0%nat)
  end.

(** The same with [episode_life=True], as [wrap_deepmind] defaults to. *)
Definition life_loss_step_shaped : result (Z * bool * Z) :=
  env <<- wrap_atari (mkObj life_loss_emulator 0%nat) None ;;
  env <<- wrap_deepmind stub_cvtColor stub_resize stub_scale
            (RecordEpisodeStatistics env) true true true false ;;
  '(_, env1) <<- obj_reset env ;;
  '(r, env2) <<- obj_step env1 0 ;;
  Ok (ale_lives (cls env1) (st env1), done_of r, ale_lives (cls env2) (st env2)).

(* ------------------------------------------------------------------ *)
(** * The schedule of the loop *)
(* ------------------------------------------------------------------ *)

(** The events that do not depend on the environment: all but the episode
    statistics. *)
Definition is_control (e : event) : bool :=
  match e with
  | EpisodeLogged _ => false
  | _ => true
  end.

(** What the configuration schedules at a global step: a checkpoint at the
    multiples of [save_frequency]; past [learning_start], at the multiples of
    [train_frequency], a learning step, followed by a target synchronisation
    at the multiples of [target_network_frequency]. *)
Definition scheduled (args : Args) (g : Z) : list event :=
  (if g mod save_frequency args =? 0 then [Saved g] else [])
  ++ (if (learning_start args <? g) && (g mod train_frequency args =? 0)
      then Learned g :: (if g mod target_network_frequency args =? 0
                         then [TargetSynced g] else [])
      else []).

(* ------------------------------------------------------------------ *)
(** * The other methods of LazyFrames *)
(* ------------------------------------------------------------------ *)

(** [a[i]] for an integer [i]: the sub-array at position [i] of the first
    axis; a negative [i] counts from the end. *)
Definition np_getitem (a : ndarray) (i : Z) : result ndarray :=
  match shape a with
  | [] => Raise IndexError
  | d0 :: tl =>
      let j := if i <? 0 then i + Z.of_nat d0 else i in
      if (0 <=? j) && (j <? Z.of_nat d0)
      then Ok (mkArr tl (firstn (size_of tl) (skipn (Z.to_nat j * size_of tl) (data a))))
      else Raise IndexError
  end.

(** [__len__] *)
Definition LazyFrames_len : M LazyFrames nat :=
  out <- LazyFrames_force ;;
  match shape out with
  | [] => raise (TypeError "len() of unsized object")
  | d0 :: _ => ret d0
  end.

(** [__getitem__] *)
Definition LazyFrames_getitem (i : Z) : M LazyFrames ndarray :=
  out <- LazyFrames_force ;; lift (np_getitem out i).

(** [count]: [frames.shape[frames.ndim - 1]]; on an array without dimensions
    the index is -1 into an empty tuple. *)
Definition LazyFrames_count : M LazyFrames nat :=
  frames <- LazyFrames_force ;;
  match shape frames with
  | [] => raise IndexError
  | d0 :: tl => ret (List.last (d0 :: tl) 0%nat)
  end.

(** An array is well formed when it has as many samples as its shape says. *)
Definition well_formed (a : ndarray) : Prop := length (data a) = size_of (shape a).

(** The calls of a run of no-ops with action [a]: a step each, and a reset
    after every step that was done. *)
Definition noop_calls (a : Z) (dones : list bool) : list call :=
  flat_map (fun d : bool => CallStep a :: (if d then [CallReset] else [])) dones.

(** A run of no-ops on the bare environment, from state [s] with [obs] in
    hand: [rs] are the results of its steps in order, each step that
    returned [done] is followed by a reset, and [obs'] is the observation of
    the last step, or of the reset that followed it. *)
Fixpoint noop_path {Ob : Type} (env : Env Ob) (a : Z) (s : St env)
         (rs : list (StepRet Ob)) (obs obs' : option Ob) (s' : St env) : Prop :=
  match rs with
  | [] => obs' = obs /\ s' = s
  | r :: rs' =>
      exists s1 ob1 s2,
        step env a s = Ok (r, s1) /\
        (if done_of r then reset env s1 = Ok (ob1, s2) else ob1 = obs_of r /\ s2 = s1) /\
        noop_path env a s2 rs' (Some ob1) obs' s'
  end.

(** Every step of the environment pays -1, 0 or +1. *)
Definition rewards_clipped {Ob : Type} (env : Env Ob) : Prop :=
  forall a s r s', step env a s = Ok (r, s') -> In (reward_of r) [(-1)%Q; 0%Q; 1%Q].

(* ------------------------------------------------------------------ *)
(** * Reward clipping *)
(* ------------------------------------------------------------------ *)

Lemma np_sign_cases (x : Q) :
  np_sign x = inject_Z (Z.sgn (Qnum x)).
Proof.
  unfold np_sign, Qcompare. simpl. rewrite Z.mul_1_r.
  destruct x as [n d]. simpl. destruct n; reflexivity.
Qed.

(** C9. For every reward, [ClipRewardEnv.reward] answers -1, 0 or +1, and
    the answer compares with 0 exactly as the reward does: a positive reward
    gives +1, a negative one -1, and 0 gives 0. *)
Theorem ClipRewardEnv_reward_sign (reward : Q) :
  In (ClipRewardEnv_reward reward) [(-1)%Q; 0%Q; 1%Q] /\
  (ClipRewardEnv_reward reward ?= 0)%Q = (reward ?= 0)%Q /\
  ClipRewardEnv_reward reward =
    match (reward ?= 0)%Q with Gt => 1%Q | Lt => (-1)%Q | Eq => 0%Q end.
Proof.
  unfold ClipRewardEnv_reward, np_sign.
  destruct (reward ?= 0)%Q eqn:E; simpl; intuition.
Qed.

(** The wrapper applies it to the reward of every step and leaves the rest
    of the step alone. *)
Lemma ClipRewardEnv_step {Ob : Type} (env : Env Ob) (a : Z) (s s' : St env)
      (ob : Ob) (r : Q) (d : bool) (i : Info) :
  step env a s = Ok ((ob, r, d, i), s') ->
  step (RewardWrapper_cls ClipRewardEnv_reward env) a s
  = Ok ((ob, np_sign r, d, i), s').
Proof.
  intros H. simpl. unfold RewardWrapper_step, bind. rewrite H. reflexivity.
Qed.

(* ------------------------------------------------------------------ *)
(** * FireResetEnv *)
(* ------------------------------------------------------------------ *)

Ltac run_monad :=
  cbn;
  repeat (progress unfold bind, inner, self, set_self, query, ret, lift, assert_, raise;
          cbn).

Ltac run_monad_in H :=
  cbn in H;
  repeat (progress unfold bind, inner, self, set_self, query, ret, lift, assert_, raise in H;
          cbn in H).

Lemma total_reset {Ob : Type} (env : Env Ob) (s : St env) :
  total env -> exists ob s', reset env s = Ok (ob, s').
Proof. intros [H _]. apply H. Qed.

Lemma total_step {Ob : Type} (env : Env Ob) (a : Z) (s : St env) :
  total env -> exists ob r d i s', step env a s = Ok ((ob, r, d, i), s').
Proof.
  intros [_ H]. destruct (H a s) as [[[[ob r] d] i] [s' E]].
  exists ob, r, d, i, s'. exact E.
Qed.

Lemma scripted_total (lives0 : Z) (frame0 : ndarray) (script : nat -> tick) :
  total (scripted lives0 frame0 script).
Proof.
  split.
  - intros s. exists frame0, 0%nat. reflexivity.
  - intros a s. eexists. eexists. reflexivity.
Defined.

(** C10. [FireResetEnv.reset] returns the observation of the step with
    action 2.  The calls it makes on the wrapped environment are: reset,
    step 1, a reset if that step was done, step 2, and a reset if that step
    was done; in the last case the state is the one the fresh reset leaves,
    but the observation returned is still the one the step gave. *)
Theorem FireResetEnv_reset_returns_fire_observation
        {Ob : Type} (env : Env Ob) (log : list call) (s : St env) :
  total env ->
  exists (obs : Ob) reward (done : bool) info s2 s3 s' (done1 : bool),
    step env 2 s2 = Ok ((obs, reward, done, info), s3) /\
    reset (FireResetEnv_cls (Recorder env)) (log, s)
    = Ok (obs, (log ++ [CallReset; CallStep 1]
                    ++ (if done1 then [CallReset] else [])
                    ++ [CallStep 2]
                    ++ (if done then [CallReset] else []), s')) /\
    (if done then exists ob', reset env s3 = Ok (ob', s') else s' = s3).
Proof.
  intros T.
  destruct (total_reset env s T) as (ob0 & s0 & E0).
  destruct (total_step env 1 s0 T) as (ob1 & r1 & d1 & i1 & s1 & E1).
  assert (exists s2, (if d1 then exists o, reset env s1 = Ok (o, s2) else s2 = s1))
    as [s2 E2].
  { destruct d1; [destruct (total_reset env s1 T) as (o & s2 & E)|]; eauto. }
  destruct (total_step env 2 s2 T) as (ob2 & r2 & d2 & i2 & s3 & E3).
  assert (exists s', (if d2 then exists o, reset env s3 = Ok (o, s') else s' = s3))
    as [s' E4].
  { destruct d2; [destruct (total_reset env s3 T) as (o & s' & E)|]; eauto. }
  exists ob2, r2, d2, i2, s2, s3, s', d1.
  split; [exact E3|]. split; [|exact E4].
  simpl. unfold FireResetEnv_reset. simpl. run_monad.
  rewrite E0. cbn. rewrite E1. cbn.
  destruct d1, d2; cbn;
    repeat match goal with
           | H : exists _, _ |- _ => destruct H as [? H]
           | H : ?x = ?y |- _ => is_var x; subst x
           | H : ?f = Ok _ |- _ => rewrite H; cbn
           end;
    repeat rewrite <- app_assoc; reflexivity.
Qed.

Lemma FireResetEnv_reset_witness :
  exists obs reward (done : bool) info s2 s3 s' (done1 : bool),
    step fire_emulator 2 s2 = Ok ((obs, reward, done, info), s3) /\
    reset (FireResetEnv_cls (Recorder fire_emulator)) ([], 0%nat)
    = Ok (obs, ([] ++ [CallReset; CallStep 1]
                   ++ (if done1 then [CallReset] else [])
                   ++ [CallStep 2]
                   ++ (if done then [CallReset] else []), s')) /\
    (if done then exists ob', reset fire_emulator s3 = Ok (ob', s') else s' = s3).
Proof.
  apply (FireResetEnv_reset_returns_fire_observation fire_emulator [] 0%nat).
  apply scripted_total.
Defined.

(** On [fire_emulator] the step with action 2 is done: the wrapped
    environment is reset once more (its fresh observation is [marker 0]),
    and the caller gets [marker 2], the terminal observation. *)
Example FireResetEnv_reset_terminal_observation :
  reset (FireResetEnv_cls (Recorder fire_emulator)) ([], 0%nat)
  = Ok (marker 2, ([CallReset; CallStep 1; CallStep 2; CallReset], 0%nat)) /\
  reset fire_emulator 2%nat = Ok (marker 0, 0%nat).
Proof. split; reflexivity. Qed.

(* ------------------------------------------------------------------ *)
(** * EpisodicLifeEnv *)
(* ------------------------------------------------------------------ *)

(** What [EpisodicLifeEnv.step] does with one step of the wrapped
    environment: [done] is set when a life was lost and some are left,
    [was_real_done] keeps what the wrapped environment said. *)
Lemma EpisodicLifeEnv_step_spec {Ob : Type} (env : Env Ob) (a : Z)
      (w : EpisodicLifeEnv_self) (s s' : St env)
      (ob : Ob) (r : Q) (d : bool) (i : Info) :
  step env a s = Ok ((ob, r, d, i), s') ->
  EpisodicLifeEnv_step env a (w, s)
  = Ok ((ob, r,
         (if (ale_lives env s' <? lives w) && (0 <? ale_lives env s') then true else d),
         i),
        (mkEpisodicLife (ale_lives env s') d, s')).
Proof.
  intros H. unfold EpisodicLifeEnv_step. run_monad. rewrite H. reflexivity.
Qed.

(** A step of the wrapper is done exactly when the wrapped step is done or a
    life was lost with lives remaining. *)
Lemma EpisodicLifeEnv_step_done {Ob : Type} (env : Env Ob) (a : Z)
      (w w' : EpisodicLifeEnv_self) (s s' s'' : St env)
      (ob ob' : Ob) (r r' : Q) (d d' : bool) (i i' : Info) :
  step env a s = Ok ((ob, r, d, i), s') ->
  EpisodicLifeEnv_step env a (w, s) = Ok ((ob', r', d', i'), (w', s'')) ->
  d' = true <-> (d = true \/ (ale_lives env s' < lives w /\ 0 < ale_lives env s')).
Proof.
  intros H H'. rewrite (EpisodicLifeEnv_step_spec env a w s s' ob r d i H) in H'.
  assert (Hd : d' = if (ale_lives env s' <? lives w) && (0 <? ale_lives env s')
                     then true else d) by congruence.
  rewrite Hd. clear H' Hd.
  destruct (Z.ltb_spec (ale_lives env s') (lives w));
    destruct (Z.ltb_spec 0 (ale_lives env s')); simpl;
    destruct d; intuition (try congruence; try lia).
Qed.

(** [reset] after a [done] that was not a true termination: exactly one call
    on the wrapped environment, a step with action 0, and the life count is
    read again. *)
Lemma EpisodicLifeEnv_reset_noop {Ob : Type} (env : Env Ob)
      (w : EpisodicLifeEnv_self) (log : list call) (s s' : St env)
      (ob : Ob) (r : Q) (d : bool) (i : Info) :
  was_real_done w = false ->
  step env 0 s = Ok ((ob, r, d, i), s') ->
  EpisodicLifeEnv_reset (Recorder env) (w, (log, s))
  = Ok (ob, (mkEpisodicLife (ale_lives env s') false, (log ++ [CallStep 0], s'))).
Proof.
  intros Hw H. unfold EpisodicLifeEnv_reset. run_monad. rewrite Hw. run_monad.
  rewrite H. cbn. rewrite Hw. reflexivity.
Qed.

(** [reset] after a true termination: exactly one reset of the wrapped
    environment. *)
Lemma EpisodicLifeEnv_reset_real {Ob : Type} (env : Env Ob)
      (w : EpisodicLifeEnv_self) (log : list call) (s s' : St env) (ob : Ob) :
  was_real_done w = true ->
  reset env s = Ok (ob, s') ->
  EpisodicLifeEnv_reset (Recorder env) (w, (log, s))
  = Ok (ob, (mkEpisodicLife (ale_lives env s') true, (log ++ [CallReset], s'))).
Proof.
  intros Hw H. unfold EpisodicLifeEnv_reset. run_monad. rewrite Hw. run_monad.
  rewrite H. cbn. rewrite Hw. reflexivity.
Qed.

(** C3. Over the emulator that plays the life sequence [3,3,2,2,1,0] and
    ends the episode only at the last tick, the six steps of
    [EpisodicLifeEnv] report done = False, False, True, False, True, True:
    True exactly where the life count went down (3 to 2, 2 to 1, and 1 to 0
    where the emulator itself is done).  And for every wrapped environment,
    [reset] after a step whose [done] was not a true termination makes
    exactly one call on it, a step with action 0, and no reset; in the
    scripted run, after the third tick, the log of calls shows it. *)
Theorem EpisodicLifeEnv_life_script :
  (forall a1 a2 a3 a4 a5 a6 : Z,
      exists ob0 s0 rs s6,
        reset (EpisodicLifeEnv_cls life_emulator) (mkEpisodicLife 0 true, 0%nat)
        = Ok (ob0, s0) /\
        play (EpisodicLifeEnv_cls life_emulator) [a1; a2; a3; a4; a5; a6] s0
        = Ok (rs, s6) /\
        map done_of rs = [false; false; true; false; true; true] /\
        map done_of rs =
          map (fun pc => snd pc <? fst pc) (combine (3 :: life_script) life_script)) /\
  (forall a1 a2 a3 : Z,
      exists ob0 s0 rs s3 ob s4,
        reset (EpisodicLifeEnv_cls (Recorder life_emulator))
              (mkEpisodicLife 0 true, ([], 0%nat)) = Ok (ob0, s0) /\
        play (EpisodicLifeEnv_cls (Recorder life_emulator)) [a1; a2; a3] s0
        = Ok (rs, s3) /\
        map done_of rs = [false; false; true] /\
        was_real_done (fst s3) = false /\
        reset (EpisodicLifeEnv_cls (Recorder life_emulator)) s3 = Ok (ob, s4) /\
        fst (snd s4) = fst (snd s3) ++ [CallStep 0] /\
        fst (snd s4) = [CallReset; CallStep a1; CallStep a2; CallStep a3; CallStep 0]) /\
  (forall (Ob : Type) (env : Env Ob) (w : EpisodicLifeEnv_self)
          (log : list call) (s s' : St env) (ob : Ob) (r : Q) (d : bool) (i : Info),
      was_real_done w = false ->
      step env 0 s = Ok ((ob, r, d, i), s') ->
      reset (EpisodicLifeEnv_cls (Recorder env)) (w, (log, s))
      = Ok (ob, (mkEpisodicLife (ale_lives env s') false,
                 (log ++ [CallStep 0], s')))).
Proof.
  split; [|split].
  - intros.
    exists (marker 0), (mkEpisodicLife 3 true, 0%nat).
    eexists. exists (mkEpisodicLife 0 true, 6%nat).
    split; [reflexivity|]. split; [vm_compute; reflexivity|].
    split; reflexivity.
  - intros.
    exists (marker 0), (mkEpisodicLife 3 true, ([CallReset], 0%nat)).
    eexists.
    exists (mkEpisodicLife 2 false,
            ([CallReset; CallStep a1; CallStep a2; CallStep a3], 3%nat)).
    exists (marker 4).
    exists (mkEpisodicLife 2 false,
            ([CallReset; CallStep a1; CallStep a2; CallStep a3; CallStep 0], 4%nat)).
    split; [reflexivity|]. split; [vm_compute; reflexivity|].
    repeat (split; [reflexivity|]). reflexivity.
  - intros Ob env w log s s' ob r d i Hw H.
    apply (EpisodicLifeEnv_reset_noop env w log s s' ob r d i); assumption.
Qed.

Lemma EpisodicLifeEnv_life_script_witness :
  reset (EpisodicLifeEnv_cls (Recorder life_emulator))
        (mkEpisodicLife 2 false, ([CallReset; CallStep 0; CallStep 0; CallStep 0], 3%nat))
  = Ok (marker 4,
        (mkEpisodicLife 2 false,
         ([CallReset; CallStep 0; CallStep 0; CallStep 0] ++ [CallStep 0], 4%nat))).
Proof.
  apply (proj2 (proj2 EpisodicLifeEnv_life_script) ndarray life_emulator
               (mkEpisodicLife 2 false) [CallReset; CallStep 0; CallStep 0; CallStep 0]
               3%nat 4%nat (marker 4) 0%Q false
               [("ale.lives"%string, inject_Z 2)]).
  - reflexivity.
  - reflexivity.
Defined.

(* ------------------------------------------------------------------ *)
(** * MaxAndSkipEnv *)
(* ------------------------------------------------------------------ *)

Lemma setitem_ok (row f : ndarray) :
  shape f = shape row -> setitem row f = Ok (stored (shape row) f).
Proof.
  intros H. unfold setitem. destruct (shape_eq_dec (shape f) (shape row)); [reflexivity|contradiction].
Qed.

(** A frame of a smaller shape is broadcast into the row: a row of two
    samples is repeated, a column is spread, a single sample fills the row;
    three samples do not fit a (2, 2) row. *)
Example setitem_broadcast :
  setitem (np_zeros [2; 2]%nat) (mkArr [2%nat] [1; 2])
  = Ok (mkArr [2; 2]%nat [1; 2; 1; 2]) /\
  setitem (np_zeros [2; 2]%nat) (mkArr [2; 1]%nat [5; 6])
  = Ok (mkArr [2; 2]%nat [5; 5; 6; 6]) /\
  setitem (np_zeros [2; 2]%nat) (mkArr [1; 1; 1]%nat [300])
  = Ok (mkArr [2; 2]%nat [44; 44; 44; 44]) /\
  setitem (np_zeros [2; 2]%nat) (mkArr [3%nat] [1; 2; 3])
  = Raise (ValueError "could not broadcast input array").
Proof. repeat split; reflexivity. Qed.

Lemma stored_uint8 (f : ndarray) : is_uint8 f -> stored (shape f) f = f.
Proof.
  unfold is_uint8, stored. destruct f as [sh d]. simpl. intros H. f_equal.
  induction H as [|x l Hx _ IH]; simpl; [reflexivity|].
  unfold as_uint8 at 1. rewrite Z.mod_small by lia. now rewrite IH.
Qed.

Lemma fold_left_Qplus_sum (xs : list Q) (acc : Q) :
  (fold_left Qplus xs acc == acc + Qsum xs)%Q.
Proof.
  revert acc. induction xs as [|x xs IH]; intros acc; simpl.
  - ring.
  - rewrite IH. ring.
Qed.

Section MaxAndSkip_proofs.
Context (env : Env ndarray) (action : Z) (n : nat) (sh : list nat).

(** The loop, from tick [j] with [m] ticks to go ([j + m = n], and [n] is
    [_skip]): it executes the ticks of [window], adds up their rewards in
    order, keeps [done] and [info] of the last one, and leaves in the buffer
    the frames of the last two ticks when all [m] were executed. *)
Lemma MaxAndSkipEnv_loop_spec :
  forall (m j : nat) (v : MaxAndSkipEnv_locals) (w : MaxAndSkipEnv_self)
         (s s' : St env) (ticks : list (StepRet ndarray)),
    (j + m = n)%nat -> (1 <= m)%nat ->
    _skip w = Z.of_nat n ->
    shape (fst (_obs_buffer w)) = sh -> shape (snd (_obs_buffer w)) = sh ->
    window env action m s = Ok (ticks, s') ->
    Forall (fun r => shape (obs_of r) = sh) ticks ->
    exists w' r0,
      MaxAndSkipEnv_loop env action (map Z.of_nat (seq j m)) v (w, s)
      = Ok (mkLocals (fold_left Qplus (map reward_of ticks) (total_reward v))
                     (Some (done_of r0, snd r0)), (w', s')) /\
      List.last ticks r0 = r0 /\ In r0 ticks /\
      _skip w' = Z.of_nat n /\
      shape (fst (_obs_buffer w')) = sh /\ shape (snd (_obs_buffer w')) = sh /\
      (length ticks = m ->
       fst (_obs_buffer w') =
         (if (2 <=? m)%nat then stored sh (obs_of (nth (m - 2) ticks r0))
          else fst (_obs_buffer w)) /\
       snd (_obs_buffer w') = stored sh (obs_of (nth (m - 1) ticks r0))).
Proof.
  induction m as [|m' IH]; intros j v w s s' ticks Hj Hm Hskip Hs0 Hs1 Hwin Hsh; [lia|].
  cbn [seq map MaxAndSkipEnv_loop window] in *.
  unfold bind at 1 in Hwin.
  destruct (step env action s) as [[[[[ob r] d] i] s1]|e] eqn:Estep; [|discriminate].
  unfold bind at 1, inner at 1. cbn [fst snd]. rewrite Estep.
  (* the two writes into the buffer *)
  set (w1 := mkMaxAndSkip
               ((if (m' =? 1)%nat then stored sh ob else fst (_obs_buffer w)),
                (if (m' =? 0)%nat then stored sh ob else snd (_obs_buffer w)))
               (Z.of_nat n)).
  assert (Hob : shape ob = sh).
  { unfold done_of in Hwin. cbn in Hwin.
    destruct d.
    - inversion Hwin; subst. inversion Hsh; subst. assumption.
    - unfold bind, ret in Hwin.
      destruct (window env action m' s1) as [[rs s2]|]; [|discriminate].
      inversion Hwin; subst. inversion Hsh; subst. assumption. }
  assert (Hstores :
    forall (A : Type) (k : M (MaxAndSkipEnv_self * St env) A),
      ((w0 <- self ;;
        (if Z.of_nat j =? _skip w0 - 2
         then row <- lift (setitem (fst (_obs_buffer w0)) ob) ;;
              set_self (mkMaxAndSkip (row, snd (_obs_buffer w0)) (_skip w0))
         else ret tt) ;;
        w0 <- self ;;
        (if Z.of_nat j =? _skip w0 - 1
         then row <- lift (setitem (snd (_obs_buffer w0)) ob) ;;
              set_self (mkMaxAndSkip (fst (_obs_buffer w0), row) (_skip w0))
         else ret tt) ;;
        k) (w, s1)) = k (w1, s1)).
  { intros A k. unfold w1. destruct w as [[b0 b1] sk]. cbn in Hskip, Hs0, Hs1. subst sk.
    unfold bind at 1, self at 1. cbn [fst snd _skip _obs_buffer].
    destruct (Z.eqb_spec (Z.of_nat j) (Z.of_nat n - 2)) as [E2|E2].
    - replace (m' =? 1)%nat with true by (symmetry; apply Nat.eqb_eq; lia).
      replace (m' =? 0)%nat with false by (symmetry; apply Nat.eqb_neq; lia).
      run_monad. rewrite setitem_ok by congruence. cbn.
      destruct (Z.eqb_spec (Z.of_nat j) (Z.of_nat n - 1)); [lia|].
      cbn. rewrite Hs0. reflexivity.
    - replace (m' =? 1)%nat with false by (symmetry; apply Nat.eqb_neq; lia).
      run_monad.
      destruct (Z.eqb_spec (Z.of_nat j) (Z.of_nat n - 1)) as [E1|E1].
      + replace (m' =? 0)%nat with true by (symmetry; apply Nat.eqb_eq; lia).
        cbn. rewrite setitem_ok by congruence. cbn. rewrite Hs1. reflexivity.
      + replace (m' =? 0)%nat with false by (symmetry; apply Nat.eqb_neq; lia).
        reflexivity. }
  cbn beta iota. rewrite Hstores. clear Hstores.
  assert (Hw1s : _skip w1 = Z.of_nat n) by reflexivity.
  assert (Hw10 : shape (fst (_obs_buffer w1)) = sh).
  { unfold w1. cbn. destruct (m' =? 1)%nat; [reflexivity|assumption]. }
  assert (Hw11 : shape (snd (_obs_buffer w1)) = sh).
  { unfold w1. cbn. destruct (m' =? 0)%nat; [reflexivity|assumption]. }
  unfold done_of in Hwin. cbn [fst snd] in Hwin.
  destruct d.
  - (* the tick is done: the window ends here *)
    inversion Hwin; subst ticks s'. clear Hwin.
    exists w1, (ob, r, true, i). cbn.
    repeat split; auto;
      match goal with
      | H : _ = S m' |- _ =>
          assert (m' = 0)%nat by (cbn in H; lia); subst m'; reflexivity
      end.
  - destruct m' as [|m''].
    + (* last tick of the window *)
      cbn in Hwin. unfold bind, ret in Hwin. cbn in Hwin.
      inversion Hwin; subst ticks s'. clear Hwin.
      exists w1, (ob, r, false, i). cbn. repeat split; auto.
    + unfold bind at 1 in Hwin.
      destruct (window env action (S m'') s1) as [[rs s2]|e] eqn:Erest; [|discriminate].
      cbn in Hwin. inversion Hwin; subst ticks s'. clear Hwin.
      inversion Hsh as [|? ? Hr Hrs]; subst.
      destruct (IH (S j) (mkLocals (total_reward v + r)%Q (Some (false, i))) w1 s1 s2 rs)
        as (w' & r0 & Eloop & Hlast & Hin & Hsk & H0 & H1 & Hbuf);
        try assumption; try lia.
      exists w', r0. cbn [map fold_left reward_of fst snd].
      rewrite Eloop. repeat split; auto.
      * destruct rs as [|x rs']; [contradiction|]. exact Hlast.
      * right. exact Hin.
      * destruct (Hbuf ltac:(cbn in H; lia)) as [Hb0 _]. rewrite Hb0.
        destruct m'' as [|m3]; cbn [Nat.leb].
        -- unfold w1. cbn. reflexivity.
        -- cbn [Nat.sub]. rewrite Nat.sub_0_r. destruct m3; reflexivity.
      * destruct (Hbuf ltac:(cbn in H; lia)) as [_ Hb1]. rewrite Hb1.
        cbn [Nat.sub]. rewrite !Nat.sub_0_r. reflexivity.
Qed.
End MaxAndSkip_proofs.

(** The window stops at the first tick that is done: no tick before the last
    one is, and a window shorter than [n] ends with one that is. *)
Lemma window_shape (env : Env ndarray) (action : Z) :
  forall (n : nat) (s s' : St env) (ticks : list (StepRet ndarray)),
    window env action n s = Ok (ticks, s') ->
    (length ticks <= n)%nat /\
    Forall (fun r => done_of r = false) (removelast ticks) /\
    ((length ticks < n)%nat -> exists r, List.last ticks r = r /\ In r ticks /\ done_of r = true).
Proof.
  induction n as [|n IH]; intros s s' ticks H; cbn in H.
  - inversion H; subst. cbn. repeat split; auto. lia.
  - unfold bind at 1 in H.
    destruct (step env action s) as [[r s1]|]; [|discriminate].
    destruct (done_of r) eqn:D.
    + inversion H; subst. cbn. repeat split; auto; try lia.
      intros _. exists r. auto.
    + unfold bind, ret in H.
      destruct (window env action n s1) as [[rs s2]|] eqn:E; [|discriminate].
      inversion H; subst. destruct (IH _ _ _ E) as (L & F & X).
      cbn [length]. split; [lia|]. split.
      * destruct rs as [|x rs']; [constructor|].
        change (removelast (r :: x :: rs')) with (r :: removelast (x :: rs')).
        constructor; assumption.
      * intros Hl. destruct X as (r0 & Hlast & Hin & Hd); [lia|].
        exists r0. repeat split; auto.
        -- destruct rs; [contradiction|exact Hlast].
        -- right; exact Hin.
Qed.

(** C4. A step of [MaxAndSkipEnv] with [_skip >= 1] executes the ticks of
    the repeat window (all [_skip] of them, or fewer when a tick is done) and
    returns the sum of their rewards, with [done] and [info] of the last tick
    executed.  When all [_skip >= 2] ticks were executed, that is when no
    tick before tick [_skip - 1] was done, the frame returned is the
    element-wise maximum of the frames of ticks [_skip - 2] and [_skip - 1]
    (frames are uint8 arrays of the observation-space shape). *)
Theorem MaxAndSkipEnv_step_sum_and_max
        (env : Env ndarray) (action : Z) (w : MaxAndSkipEnv_self)
        (s s' : St env) (ticks : list (StepRet ndarray)) :
  1 <= _skip w ->
  shape (fst (_obs_buffer w)) = observation_shape env ->
  shape (snd (_obs_buffer w)) = observation_shape env ->
  window env action (Z.to_nat (_skip w)) s = Ok (ticks, s') ->
  Forall (fun r => shape (obs_of r) = observation_shape env) ticks ->
  exists frame reward done info w',
    step (MaxAndSkipEnv_cls env) action (w, s)
    = Ok ((frame, reward, done, info), (w', s')) /\
    reward = fold_left Qplus (map reward_of ticks) 0%Q /\
    (reward == Qsum (map reward_of ticks))%Q /\
    (exists r0, List.last ticks r0 = r0 /\ In r0 ticks /\
                done = done_of r0 /\ info = snd r0) /\
    _skip w' = _skip w /\
    (2 <= _skip w ->
     length ticks = Z.to_nat (_skip w) ->
     Forall (fun r => is_uint8 (obs_of r)) ticks ->
     forall d,
       frame = np_maximum (obs_of (nth (Z.to_nat (_skip w) - 2) ticks d))
                          (obs_of (nth (Z.to_nat (_skip w) - 1) ticks d))).
Proof.
  intros Hskip Hs0 Hs1 Hwin Hsh.
  set (n := Z.to_nat (_skip w)) in *.
  assert (Hn : _skip w = Z.of_nat n) by (unfold n; lia).
  destruct (MaxAndSkipEnv_loop_spec env action n (observation_shape env)
              n 0%nat (mkLocals 0%Q None) w s s' ticks)
    as (w' & r0 & Eloop & Hlast & Hin & Hsk & H0 & H1 & Hbuf);
    try assumption; try lia.
  exists (np_maximum (fst (_obs_buffer w')) (snd (_obs_buffer w'))),
         (fold_left Qplus (map reward_of ticks) 0%Q), (done_of r0), (snd r0), w'.
  split.
  - cbn [step MaxAndSkipEnv_cls]. unfold MaxAndSkipEnv_step.
    unfold bind at 1, self at 1. cbn [fst snd]. unfold range. fold n.
    unfold bind at 1. rewrite Eloop. cbn. reflexivity.
  - split; [reflexivity|]. split.
    { rewrite fold_left_Qplus_sum. ring. }
    split; [exists r0; auto|]. split; [congruence|].
    intros H2 Hlen Hu d.
    destruct (Hbuf Hlen) as [Hb0 Hb1]. rewrite Hb0, Hb1.
    assert (Hn2 : (2 <=? n)%nat = true) by (apply Nat.leb_le; lia).
    rewrite Hn2.
    assert (Hnth : forall i, (i < n)%nat ->
              stored (observation_shape env) (obs_of (nth i ticks r0))
              = obs_of (nth i ticks d)).
    { intros i Hi. rewrite (nth_indep ticks r0 d) by lia.
      assert (Hi' : In (nth i ticks d) ticks) by (apply nth_In; lia).
      rewrite Forall_forall in Hsh, Hu.
      rewrite <- (Hsh _ Hi'). apply stored_uint8. apply Hu. exact Hi'. }
    rewrite !Hnth by lia. reflexivity.
Qed.

Lemma MaxAndSkipEnv_step_witness :
  exists frame reward done info w',
    step (MaxAndSkipEnv_cls (flicker_emulator 9)) 1
         (mkMaxAndSkip (np_zeros [2%nat], np_zeros [2%nat]) 4, 0%nat)
    = Ok ((frame, reward, done, info), (w', 4%nat)) /\
    reward = 10%Q /\
    frame = mkArr [2%nat] [30; 30].
Proof.
  destruct (MaxAndSkipEnv_step_sum_and_max (flicker_emulator 9) 1
              (mkMaxAndSkip (np_zeros [2%nat], np_zeros [2%nat]) 4) 0%nat 4%nat
              [ (mkArr [2%nat] [0; 50], 1%Q, false, [("ale.lives"%string, inject_Z 3)]);
                (mkArr [2%nat] [10; 40], 2%Q, false, [("ale.lives"%string, inject_Z 3)]);
                (mkArr [2%nat] [20; 30], 3%Q, false, [("ale.lives"%string, inject_Z 3)]);
                (mkArr [2%nat] [30; 20], 4%Q, false, [("ale.lives"%string, inject_Z 3)]) ])
    as (frame & reward & done & info & w' & E & Hr & _ & _ & _ & Hf).
  - cbn; lia.
  - reflexivity.
  - reflexivity.
  - reflexivity.
  - repeat constructor.
  - exists frame, reward, done, info, w'. split; [exact E|]. split.
    + rewrite Hr. reflexivity.
    + rewrite (Hf ltac:(cbn; lia) eq_refl
                  ltac:(repeat constructor; cbn; lia)
                  (mkArr [] [], 0%Q, false, [])).
      reflexivity.
Defined.

(** A tick that is done ends the window early: the rewards so far are summed
    and the buffer rows are returned as they are (here still the zeros they
    were made with). *)
Example MaxAndSkipEnv_step_early_done :
  exists w',
    step (MaxAndSkipEnv_cls (flicker_emulator 1)) 1
         (mkMaxAndSkip (np_zeros [2%nat], np_zeros [2%nat]) 4, 0%nat)
    = Ok ((mkArr [2%nat] [0; 0], (0 + 1 + 2)%Q, true,
           [("ale.lives"%string, inject_Z 3)]), (w', 2%nat)).
Proof. exists (mkMaxAndSkip (np_zeros [2%nat], np_zeros [2%nat]) 4). reflexivity. Qed.

(* ------------------------------------------------------------------ *)
(** * FrameStack and LazyFrames *)
(* ------------------------------------------------------------------ *)

Section lastn_facts.
Context {A : Type}.
Implicit Types (l d : list A) (x : A) (n : nat).

Lemma lastn_short n l : (length l <= n)%nat -> lastn n l = l.
Proof.
  intros H. unfold lastn. replace (length l - n)%nat with 0%nat by lia. reflexivity.
Qed.

Lemma lastn_length n l : length (lastn n l) = Nat.min n (length l).
Proof. unfold lastn. rewrite length_skipn. lia. Qed.

Lemma lastn_app_long n d l : (n <= length l)%nat -> lastn n (d ++ l) = lastn n l.
Proof.
  intros H. unfold lastn. rewrite length_app, skipn_app.
  rewrite skipn_all2 by lia. cbn. f_equal. lia.
Qed.

Lemma lastn_app_lastn n l d : lastn n (lastn n l ++ d) = lastn n (l ++ d).
Proof.
  unfold lastn. rewrite !length_app, length_skipn.
  rewrite !skipn_app, length_skipn, skipn_skipn.
  f_equal.
  - f_equal. lia.
  - f_equal. lia.
Qed.

Lemma lastn_snoc n l x : lastn n (lastn n l ++ [x]) = lastn n (l ++ [x]).
Proof. apply lastn_app_lastn. Qed.

(** A bounded deque keeps the last [maxlen] entries. *)
Lemma deque_append_lastn n d x :
  (length d <= n)%nat -> deque_append n d x = lastn n (d ++ [x]).
Proof.
  intros H. unfold deque_append.
  destruct (Nat.eqb_spec n 0) as [E|E].
  - subst n. destruct d; [reflexivity|cbn in H; lia].
  - destruct (Nat.ltb_spec (length d) n) as [L|L].
    + rewrite lastn_short; [reflexivity|rewrite length_app; cbn; lia].
    + unfold lastn. rewrite length_app. cbn [length].
      replace (length d + 1 - n)%nat with 1%nat by lia.
      destruct d; [cbn in *; lia|reflexivity].
Qed.
End lastn_facts.

Lemma np_concatenate_data (c : nat) (tl : list nat) (fs : list ndarray) :
  fs <> [] ->
  Forall (fun f => shape f = c :: tl) fs ->
  np_concatenate fs = Ok (mkArr ((length fs * c)%nat :: tl) (concat (map data fs))).
Proof.
  intros Hne Hsh. unfold np_concatenate.
  destruct fs as [|f fs']; [contradiction|].
  assert (Hf : shape f = c :: tl) by (inversion Hsh; assumption).
  rewrite Hf.
  assert (Hall : forallb (fun g => match shape g with
                                   | [] => false
                                   | _ :: tl1 => if shape_eq_dec tl1 tl then true else false
                                   end) (f :: fs') = true).
  { apply forallb_forall. intros g Hg. rewrite Forall_forall in Hsh.
    rewrite (Hsh g Hg). destruct (shape_eq_dec tl tl); congruence. }
  rewrite Hall. do 2 f_equal. f_equal.
  clear Hall Hf Hne. induction Hsh as [|g gs Hg _ IH]; [reflexivity|].
  cbn [map fold_right length]. rewrite IH, Hg. cbn. lia.
Qed.

Section FrameStack_proofs.
Context (env : Env ndarray) (new_shape : list nat).

Lemma FrameStack_fill_spec (ob : ndarray) :
  forall (m : nat) (w : FrameStack_self) (s : St env),
    (length (frames w) <= Z.to_nat (k w))%nat ->
    FrameStack_fill env m ob (w, s)
    = Ok (tt, (mkFrameStack (k w) (lastn (Z.to_nat (k w)) (frames w ++ repeat ob m)), s)).
Proof.
  induction m as [|m IH]; intros w s H; cbn [FrameStack_fill repeat].
  - rewrite app_nil_r, lastn_short by assumption. destruct w; reflexivity.
  - unfold bind at 1, FrameStack_append at 1. run_monad.
    rewrite deque_append_lastn by assumption.
    rewrite IH; cbn [k frames].
    + rewrite lastn_app_lastn, <- app_assoc. reflexivity.
    + rewrite lastn_length. lia.
Qed.

(** [reset]: the window is the first observation, [k] times. *)
Lemma FrameStack_reset_spec (w : FrameStack_self) (s s' : St env) (ob : ndarray) :
  0 <= k w ->
  (length (frames w) <= Z.to_nat (k w))%nat ->
  reset env s = Ok (ob, s') ->
  FrameStack_reset env (w, s)
  = Ok (LazyFrames_init (repeat ob (Z.to_nat (k w))),
        (mkFrameStack (k w) (repeat ob (Z.to_nat (k w))), s')).
Proof.
  intros Hk Hlen H. unfold FrameStack_reset.
  unfold bind at 1, inner at 1. cbn [fst snd]. rewrite H.
  unfold bind at 1, self at 1. cbn [fst snd].
  unfold bind at 1. rewrite FrameStack_fill_spec by assumption.
  rewrite lastn_app_long by (rewrite repeat_length; lia).
  rewrite lastn_short by (rewrite repeat_length; lia).
  unfold FrameStack_get_ob. run_monad.
  rewrite repeat_length, Z2Nat.id by assumption. rewrite Z.eqb_refl. reflexivity.
Qed.

(** [step]: the new observation comes in at the end of a full window, the
    oldest goes, and the window is handed out as a [LazyFrames]. *)
Lemma FrameStack_step_spec (a : Z) (w : FrameStack_self) (s s' : St env)
      (ob : ndarray) (r : Q) (d : bool) (i : Info) :
  0 <= k w ->
  length (frames w) = Z.to_nat (k w) ->
  step env a s = Ok ((ob, r, d, i), s') ->
  FrameStack_step env a (w, s)
  = Ok ((LazyFrames_init (lastn (Z.to_nat (k w)) (frames w ++ [ob])), r, d, i),
        (mkFrameStack (k w) (lastn (Z.to_nat (k w)) (frames w ++ [ob])), s')) /\
  length (lastn (Z.to_nat (k w)) (frames w ++ [ob])) = Z.to_nat (k w).
Proof.
  intros Hk Hlen H.
  assert (L : length (lastn (Z.to_nat (k w)) (frames w ++ [ob])) = Z.to_nat (k w)).
  { rewrite lastn_length, length_app. cbn. lia. }
  split; [|exact L].
  unfold FrameStack_step, FrameStack_append, FrameStack_get_ob. run_monad.
  rewrite H. cbn. rewrite deque_append_lastn by lia.
  rewrite L, Z2Nat.id by assumption. rewrite Z.eqb_refl. reflexivity.
Qed.
End FrameStack_proofs.

Lemma play_length {Ob : Type} (env : Env Ob) :
  forall (actions : list Z) (s s' : St env) (rs : list (StepRet Ob)),
    play env actions s = Ok (rs, s') -> length rs = length actions.
Proof.
  induction actions as [|a rest IH]; intros s s' rs H; cbn [play] in H.
  - inversion H. reflexivity.
  - unfold bind at 1 in H. destruct (step env a s) as [[r s0]|]; [|discriminate].
    unfold bind at 1 in H.
    destruct (play env rest s0) as [[rs0 s1]|] eqn:E; [|discriminate].
    inversion H; subst. cbn. f_equal. apply (IH _ _ _ E).
Qed.

Lemma FrameStack_play_spec (env : Env ndarray) (sh : list nat) :
  forall (actions : list Z) (w : FrameStack_self) (s s1 : St env)
         (rs : list (StepRet ndarray)),
    0 <= k w ->
    length (frames w) = Z.to_nat (k w) ->
    play env actions s = Ok (rs, s1) ->
    exists lrs w1,
      play (FrameStack_cls env sh) actions (w, s) = Ok (lrs, (w1, s1)) /\
      k w1 = k w /\
      frames w1 = lastn (Z.to_nat (k w)) (frames w ++ map obs_of rs) /\
      map outcome lrs = map outcome rs /\
      Forall (fun r => exists fs, obs_of r = LazyFrames_init fs /\
                                  length fs = Z.to_nat (k w)) lrs /\
      (forall d, actions <> [] -> obs_of (List.last lrs d) = LazyFrames_init (frames w1)).
Proof.
  induction actions as [|a rest IH]; intros w s s1 rs Hk Hlen H; cbn [play] in *.
  - inversion H; subst. exists [], w. cbn. rewrite app_nil_r.
    rewrite lastn_short by lia. repeat split; auto. intros d X. contradiction.
  - unfold bind at 1 in H.
    destruct (step env a s) as [[[[[ob r] d] i] s0]|] eqn:Es; [|discriminate].
    unfold bind at 1 in H.
    destruct (play env rest s0) as [[rs' s2]|] eqn:Ep; [|discriminate].
    cbn in H. inversion H; subst rs s1. clear H.
    destruct (FrameStack_step_spec env a w s s0 ob r d i Hk Hlen Es) as [Estep L].
    set (fr := lastn (Z.to_nat (k w)) (frames w ++ [ob])) in *.
    destruct (IH (mkFrameStack (k w) fr) s0 s2 rs' Hk L Ep)
      as (lrs & w1 & Eplay & Hk1 & Hfr & Hout & Hall & Hlast).
    cbn [k frames] in *.
    exists ((LazyFrames_init fr, r, d, i) :: lrs), w1.
    split.
    { unfold bind at 1. cbn [step FrameStack_cls]. rewrite Estep.
      unfold bind at 1. rewrite Eplay. reflexivity. }
    split; [exact Hk1|]. split.
    { rewrite Hfr. unfold fr. rewrite lastn_app_lastn, <- app_assoc. reflexivity. }
    split; [cbn [map]; rewrite Hout; reflexivity|]. split.
    { constructor; [|exact Hall]. exists fr. split; [reflexivity|exact L]. }
    intros d0 _. destruct rest as [|a' rest'].
    + cbn in Ep. inversion Ep; subst. cbn in Eplay. inversion Eplay; subst.
      reflexivity.
    + pose proof (play_length _ _ _ _ _ Eplay) as Hl.
      destruct lrs as [|x lrs']; [discriminate Hl|].
      change (List.last ((LazyFrames_init fr, r, d, i) :: x :: lrs') d0)
        with (List.last (x :: lrs') d0).
      apply Hlast. discriminate.
Qed.

(** C7. A [FrameStack] of size [k]: [reset] leaves a window of exactly [k]
    entries, all the reset observation; every step after it leaves a window
    of exactly [k] entries, the last [k] of the reset observation repeated
    [k] times followed by the observations of the steps so far, oldest first;
    the [LazyFrames] a step returns holds that window, and materialising it
    (for [k > 0] and frames of one shape) gives the concatenation of its
    frames along the first (channel) axis, in that order. *)
Theorem FrameStack_window
        (env : Env ndarray) (sh : list nat) (w : FrameStack_self) (s s0 s1 : St env)
        (actions : list Z) (ob0 : ndarray) (rs : list (StepRet ndarray)) :
  0 <= k w ->
  (length (frames w) <= Z.to_nat (k w))%nat ->
  reset env s = Ok (ob0, s0) ->
  play env actions s0 = Ok (rs, s1) ->
  let n := Z.to_nat (k w) in
  let win := lastn n (repeat ob0 n ++ map obs_of rs) in
  exists w0 lrs w1,
    reset (FrameStack_cls env sh) (w, s) = Ok (LazyFrames_init (repeat ob0 n), (w0, s0)) /\
    frames w0 = repeat ob0 n /\ length (frames w0) = n /\
    play (FrameStack_cls env sh) actions (w0, s0) = Ok (lrs, (w1, s1)) /\
    frames w1 = win /\ length (frames w1) = n /\
    map outcome lrs = map outcome rs /\
    Forall (fun r => exists fs, obs_of r = LazyFrames_init fs /\ length fs = n) lrs /\
    (forall d, actions <> [] -> obs_of (List.last lrs d) = LazyFrames_init win) /\
    (forall c tl,
        (0 < n)%nat ->
        Forall (fun f => shape f = c :: tl) win ->
        LazyFrames_array (LazyFrames_init win)
        = Ok (mkArr ((n * c)%nat :: tl) (concat (map data win)),
              mkLazyFrames None (Some (mkArr ((n * c)%nat :: tl) (concat (map data win)))))).
Proof.
  intros Hk Hlen Hreset Hplay n win.
  pose proof (FrameStack_reset_spec env w s s0 ob0 Hk Hlen Hreset) as Er.
  fold n in Er.
  destruct (FrameStack_play_spec env sh actions (mkFrameStack (k w) (repeat ob0 n)) s0 s1 rs)
    as (lrs & w1 & Eplay & Hk1 & Hfr & Hout & Hall & Hlast);
    cbn [k frames]; try assumption.
  { rewrite repeat_length. reflexivity. }
  cbn [k frames] in *. fold n in Hfr, Hall. fold win in Hfr.
  assert (Lwin : length win = n).
  { unfold win. rewrite lastn_length, length_app, repeat_length. lia. }
  exists (mkFrameStack (k w) (repeat ob0 n)), lrs, w1.
  cbn [frames].
  split; [exact Er|]. split; [reflexivity|]. split; [apply repeat_length|].
  split; [exact Eplay|]. split; [exact Hfr|]. split; [rewrite Hfr; exact Lwin|].
  split; [exact Hout|]. split; [exact Hall|]. split.
  { intros d Hne. rewrite <- Hfr. apply Hlast. exact Hne. }
  intros c tl Hn Hsh.
  unfold LazyFrames_array, LazyFrames_force, LazyFrames_init. cbn [_out _frames].
  rewrite (np_concatenate_data c tl win); [rewrite Lwin; reflexivity| |exact Hsh].
  intros X. rewrite X in Lwin. cbn in Lwin. lia.
Qed.

Lemma FrameStack_window_witness :
  exists w0 lrs w1,
    reset (FrameStack_cls marker_emulator [4%nat; 1%nat; 1%nat]) (mkFrameStack 4 [], 7%nat)
    = Ok (LazyFrames_init (repeat (marker 0) 4), (w0, 0%nat)) /\
    play (FrameStack_cls marker_emulator [4%nat; 1%nat; 1%nat]) [0; 1; 2; 3; 0; 1] (w0, 0%nat)
    = Ok (lrs, (w1, 6%nat)) /\
    frames w1 = [marker 3; marker 4; marker 5; marker 6] /\
    LazyFrames_array (LazyFrames_init (frames w1))
    = Ok (mkArr [4%nat; 1%nat; 1%nat] [3; 4; 5; 6],
          mkLazyFrames None (Some (mkArr [4%nat; 1%nat; 1%nat] [3; 4; 5; 6]))).
Proof.
  destruct (FrameStack_window marker_emulator [4%nat; 1%nat; 1%nat]
              (mkFrameStack 4 []) 7%nat 0%nat 6%nat [0; 1; 2; 3; 0; 1] (marker 0)
              (map (fun n => (marker (Z.of_nat (S n)), 0%Q, false,
                              [("ale.lives"%string, inject_Z 3)])) (seq 0 6)))
    as (w0 & lrs & w1 & Er & _ & _ & Ep & Hfr & _ & _ & _ & _ & Harr).
  - cbn; lia.
  - cbn; lia.
  - reflexivity.
  - reflexivity.
  - exists w0, lrs, w1. split; [exact Er|]. split; [exact Ep|].
    split; [rewrite Hfr; reflexivity|].
    rewrite Hfr.
    apply (Harr 1%nat [1%nat; 1%nat]).
    + cbn; lia.
    + repeat constructor.
Defined.

(* ------------------------------------------------------------------ *)
(** * The ensemble combiner *)
(* ------------------------------------------------------------------ *)

Lemma nth_skipn_Q (xs : list Q) (k j : nat) :
  nth j (skipn k xs) 0%Q = nth (k + j) xs 0%Q.
Proof.
  revert xs. induction k as [|k IH]; intros xs; [reflexivity|].
  destruct xs as [|x xs]; [destruct j; reflexivity|]. cbn. apply IH.
Qed.

Lemma firstn_as_nth (w : nat) (xs : list Q) :
  (w <= length xs)%nat -> firstn w xs = map (fun j => nth j xs 0%Q) (seq 0 w).
Proof.
  revert xs. induction w as [|w IH]; intros xs H; [reflexivity|].
  destruct xs as [|x xs]; [cbn in H; lia|].
  cbn [firstn seq map nth]. f_equal. rewrite <- seq_shift, map_map.
  apply IH. cbn in H. lia.
Qed.

Lemma rows_nth (w : nat) :
  forall (c i : nat) (xs : list Q),
    (i < c)%nat -> nth i (rows w c xs) [] = firstn w (skipn (i * w) xs).
Proof.
  induction c as [|c IH]; intros i xs H; [lia|].
  destruct i as [|i]; [reflexivity|].
  cbn [rows nth]. rewrite IH by lia. rewrite skipn_skipn. do 2 f_equal. lia.
Qed.

Lemma rows_length (w c : nat) (xs : list Q) : length (rows w c xs) = c.
Proof. revert xs. induction c; intros; cbn; [reflexivity|now rewrite IHc]. Qed.

(** Entry [i] of [torch.mean(t, axis=-1)] is the arithmetic mean of the [h]
    entries of row [i] along the last axis. *)
Lemma torch_mean_last_entry (b a h i : nat) (xs : list Q) :
  length xs = (b * a * h)%nat -> (i < b * a)%nat ->
  tshape (torch_mean_last (mkTensor [b; a; h] xs)) = [b; a] /\
  length (tdata (torch_mean_last (mkTensor [b; a; h] xs))) = (b * a)%nat /\
  nth i (tdata (torch_mean_last (mkTensor [b; a; h] xs))) 0%Q
  = (Qsum (map (fun j => nth (i * h + j) xs 0%Q) (seq 0 h)) / inject_Z (Z.of_nat h))%Q.
Proof.
  intros Hlen Hi. unfold torch_mean_last, last_axis_rows.
  cbn [tshape tdata List.last removelast size_of fold_right].
  rewrite Nat.mul_1_r. split; [reflexivity|]. split.
  { rewrite length_map, rows_length. reflexivity. }
  rewrite (nth_indep _ 0%Q ((fun row => (Qsum row / inject_Z (Z.of_nat h))%Q) []))
    by (rewrite length_map, rows_length; exact Hi).
  rewrite (map_nth (fun row => (Qsum row / inject_Z (Z.of_nat h))%Q) (rows h (b * a) xs) [] i).
  rewrite rows_nth by exact Hi.
  rewrite firstn_as_nth.
  - do 2 f_equal. apply map_ext. intros j. apply nth_skipn_Q.
  - rewrite length_skipn. nia.
Qed.

(** C5. Under "IDENTITY", [combine_q_functions] returns the head values it
    was given, unchanged, together with their mean across heads (each entry
    the sum over the heads divided by their number); under a strategy that is
    neither "STOCHASTIC" nor "IDENTITY" it raises [ValueError] and nothing is
    returned. *)
Theorem combine_q_functions_identity_and_invalid :
  (forall (q_functions : tensor) (m : option tensor),
      combine_q_functions q_functions "IDENTITY" m
      = Ok (q_functions, torch_mean_last q_functions)) /\
  (forall (b a h i : nat) (xs : list Q) (m : option tensor),
      length xs = (b * a * h)%nat -> (i < b * a)%nat ->
      exists q_values,
        combine_q_functions (mkTensor [b; a; h] xs) "IDENTITY" m
        = Ok (mkTensor [b; a; h] xs, q_values) /\
        tshape q_values = [b; a] /\
        nth i (tdata q_values) 0%Q
        = (Qsum (map (fun j => nth (i * h + j) xs 0%Q) (seq 0 h))
           / inject_Z (Z.of_nat h))%Q) /\
  (forall (strategy : string) (q_functions : tensor) (m : option tensor),
      strategy <> "STOCHASTIC"%string -> strategy <> "IDENTITY"%string ->
      combine_q_functions q_functions strategy m
      = Raise (ValueError (strategy ++ " is not a valid reordering strategy"))).
Proof.
  split; [|split].
  - intros q m. reflexivity.
  - intros b a h i xs m Hlen Hi.
    destruct (torch_mean_last_entry b a h i xs Hlen Hi) as (Hs & _ & Hn).
    exists (torch_mean_last (mkTensor [b; a; h] xs)). repeat split; assumption.
  - intros strategy q m H1 H2. unfold combine_q_functions.
    destruct (String.eqb_spec strategy "STOCHASTIC"); [contradiction|].
    destruct (String.eqb_spec strategy "IDENTITY"); [contradiction|].
    reflexivity.
Qed.

Lemma combine_q_functions_witness :
  (exists q_values,
      combine_q_functions (mkTensor [1; 2; 2]%nat [1; 3; 10; 20]%Q) "IDENTITY" None
      = Ok (mkTensor [1; 2; 2]%nat [1; 3; 10; 20]%Q, q_values) /\
      tshape q_values = [1; 2]%nat /\
      nth 1 (tdata q_values) 0%Q
      = (Qsum (map (fun j => nth (1 * 2 + j) [1; 3; 10; 20]%Q 0%Q) (seq 0 2))
         / inject_Z (Z.of_nat 2))%Q) /\
  combine_q_functions (mkTensor [1; 2; 2]%nat [1; 3; 10; 20]%Q) "MEAN" None
  = Raise (ValueError ("MEAN" ++ " is not a valid reordering strategy")).
Proof.
  split.
  - apply (proj1 (proj2 combine_q_functions_identity_and_invalid) 1%nat 2%nat 2%nat 1%nat).
    + reflexivity.
    + cbn; lia.
  - apply (proj2 (proj2 combine_q_functions_identity_and_invalid)).
    + discriminate.
    + discriminate.
Defined.

(* ------------------------------------------------------------------ *)
(** * Action selection *)
(* ------------------------------------------------------------------ *)

Lemma argmax_from_spec :
  forall (xs : list Q) (pre : list Q) (best_i : nat) (best : Q),
    (best_i < length pre)%nat ->
    nth best_i pre 0%Q = best ->
    (forall j, (j < length pre)%nat -> (nth j pre 0%Q <= best)%Q) ->
    (argmax_from best_i best (length pre) xs < length (pre ++ xs))%nat /\
    (forall j, (j < length (pre ++ xs))%nat ->
               (nth j (pre ++ xs) 0%Q
                <= nth (argmax_from best_i best (length pre) xs) (pre ++ xs) 0%Q)%Q).
Proof.
  induction xs as [|x xs IH]; intros pre best_i best Hi Hb Hmax; cbn [argmax_from].
  - rewrite app_nil_r. split; [exact Hi|]. intros j Hj. rewrite Hb. apply Hmax, Hj.
  - assert (E : length (pre ++ [x]) = S (length pre)) by (rewrite length_app; cbn; lia).
    assert (A : (pre ++ [x]) ++ xs = pre ++ x :: xs) by (rewrite <- app_assoc; reflexivity).
    destruct (Qlt_le_dec best x) as [L|L].
    + specialize (IH (pre ++ [x]) (length pre) x).
      rewrite E, A in IH. apply IH.
      * lia.
      * rewrite app_nth2 by lia. rewrite Nat.sub_diag. reflexivity.
      * intros j Hj.
        destruct (Nat.eq_dec j (length pre)) as [Ej|Ej].
        -- subst j. rewrite app_nth2 by lia. rewrite Nat.sub_diag. cbn. apply Qle_refl.
        -- rewrite app_nth1 by lia. apply Qle_trans with best; [apply Hmax; lia|].
           apply Qlt_le_weak, L.
    + specialize (IH (pre ++ [x]) best_i best).
      rewrite E, A in IH. apply IH.
      * lia.
      * rewrite app_nth1 by lia. exact Hb.
      * intros j Hj.
        destruct (Nat.eq_dec j (length pre)) as [Ej|Ej].
        -- subst j. rewrite app_nth2 by lia. rewrite Nat.sub_diag. exact L.
        -- rewrite app_nth1 by lia. apply Hmax. lia.
Qed.

(** [argmax] points at a maximal entry. *)
Lemma argmax_spec (xs : list Q) :
  xs <> [] ->
  (argmax xs < length xs)%nat /\
  forall j, (j < length xs)%nat -> (nth j xs 0%Q <= nth (argmax xs) xs 0%Q)%Q.
Proof.
  destruct xs as [|x xs]; [contradiction|]. intros _.
  apply (argmax_from_spec xs [x] 0%nat x).
  - cbn; lia.
  - reflexivity.
  - intros j Hj. cbn in Hj. assert (j = 0)%nat by lia. subst. apply Qle_refl.
Qed.

(** The mean Q-values [forward] returns do not depend on the transform
    matrix. *)
Lemma forward_q_values {Params : Type} (network : Params -> list ndarray -> result tensor)
      (n_actions : nat) (net : MultiHeadQNetwork Params) (x : list ndarray)
      (q_heads q_values : tensor) :
  forward network n_actions net x = Ok (q_heads, q_values) ->
  exists raw unordered_q_heads,
    network (params net) x = Ok raw /\
    torch_reshape_batch raw n_actions (num_heads net) = Ok unordered_q_heads /\
    q_values = torch_mean_last unordered_q_heads.
Proof.
  unfold forward, and_then. intros H.
  destruct (network (params net) x) as [raw|] eqn:E1; [|discriminate].
  destruct (torch_reshape_batch raw n_actions (num_heads net)) as [u|] eqn:E2;
    [|discriminate].
  exists raw, u. split; [reflexivity|]. split; [exact E2|].
  unfold combine_q_functions, and_then in H.
  destruct (if String.eqb (transform_strategy net) "STOCHASTIC" then _ else _);
    [|discriminate].
  inversion H. reflexivity.
Qed.

(** The two branches of lines 614-617. *)
Lemma choose_action_spec (logits : tensor) (epsilon u : Q) (sample action : Z) :
  choose_action logits epsilon u sample = Ok action ->
  ((u < epsilon)%Q /\ action = sample) \/
  ((epsilon <= u)%Q /\ torch_argmax_dim1 logits = Ok [action]).
Proof.
  unfold choose_action. destruct (Qlt_le_dec u epsilon) as [L|L].
  - intros H. inversion H. left. split; [exact L|reflexivity].
  - unfold and_then. destruct (torch_argmax_dim1 logits) as [idx|]; [|discriminate].
    destruct idx as [|i [|? ?]]; cbn; try discriminate.
    intros H. inversion H. right. split; [exact L|reflexivity].
Qed.

(** When the test fails, the value of [epsilon] is not read. *)
Lemma choose_action_greedy (logits : tensor) (epsilon u : Q) (sample : Z) :
  (epsilon <= u)%Q ->
  choose_action logits epsilon u sample
  = (idx <<- torch_argmax_dim1 logits ;; as_index idx).
Proof.
  intros Hle. unfold choose_action. destruct (Qlt_le_dec u epsilon) as [L|_]; [|reflexivity].
  exfalso. apply (Qlt_not_le _ _ L). exact Hle.
Qed.

(** The greedy branch on well-formed Q-values, whatever the value of
    [epsilon]: they are one row, the action is an index into it, and no
    entry is larger than the one at the action. *)
Lemma choose_action_maximal (logits : tensor) (epsilon u : Q) (sample action : Z) :
  (epsilon <= u)%Q ->
  length (tdata logits) = size_of (tshape logits) ->
  choose_action logits epsilon u sample = Ok action ->
  exists n,
    tshape logits = [1%nat; n] /\
    0 <= action < Z.of_nat n /\
    forall j, (j < n)%nat ->
              (nth j (tdata logits) 0 <= nth (Z.to_nat action) (tdata logits) 0)%Q.
Proof.
  intros Hle Hwf H.
  destruct (choose_action_spec _ _ _ _ _ H) as [[L _]|[_ E]].
  { exfalso. apply (Qlt_not_le _ _ L). exact Hle. }
  unfold torch_argmax_dim1 in E.
  destruct (tshape logits) as [|b [|n [|? ?]]] eqn:Sh; try discriminate.
  destruct (Nat.eqb_spec n 0) as [|Hn]; [discriminate|].
  destruct (map (fun row => Z.of_nat (argmax row)) (rows n b (tdata logits)))
    as [|i0 [|i1 rest]] eqn:Em; try discriminate.
  inversion E; subst i0; clear E.
  assert (HB : b = 1%nat).
  { apply (f_equal (@length Z)) in Em. rewrite length_map, rows_length in Em. exact Em. }
  subst b. cbn [rows map] in Em. inversion Em as [Ea]. clear Em.
  cbn [size_of fold_right] in Hwf.
  assert (Hl : length (tdata logits) = n) by lia.
  rewrite firstn_all2 in Ea by lia. rewrite firstn_all2 by lia.
  assert (Hne : tdata logits <> []).
  { intros X. rewrite X in Hl. cbn in Hl. lia. }
  destruct (argmax_spec (tdata logits) Hne) as [Hlt Hmax].
  exists n. split; [reflexivity|]. rewrite Nat2Z.id. split; [lia|].
  intros j Hj. apply Hmax. lia.
Qed.

(** What [torch.argmax(logits, dim=1)] selects when it answers one index for
    the mean Q-values of the reshaped output: there was one observation, the
    index is below the number of actions, and no action has a larger mean
    across its heads. *)
Lemma argmax_of_mean (raw unordered_q_heads : tensor) (n_actions h : nat) (action : Z) :
  torch_reshape_batch raw n_actions h = Ok unordered_q_heads ->
  torch_argmax_dim1 (torch_mean_last unordered_q_heads) = Ok [action] ->
  length (tdata raw) = (n_actions * h)%nat /\
  tshape (torch_mean_last unordered_q_heads) = [1%nat; n_actions] /\
  length (tdata (torch_mean_last unordered_q_heads)) = n_actions /\
  (forall j, (j < n_actions)%nat ->
             nth j (tdata (torch_mean_last unordered_q_heads)) 0%Q = mean_of_heads raw h j) /\
  0 <= action < Z.of_nat n_actions /\
  (forall j, (j < n_actions)%nat ->
             (mean_of_heads raw h j <= mean_of_heads raw h (Z.to_nat action))%Q).
Proof.
  intros E2 H. unfold torch_reshape_batch in E2.
  destruct (Nat.eqb_spec (n_actions * h) 0) as [|Hah]; [discriminate|].
  destruct (Nat.eqb_spec (length (tdata raw) mod (n_actions * h)) 0) as [Hmod|];
    [|discriminate].
  inversion E2; subst unordered_q_heads; clear E2.
  remember (length (tdata raw) / (n_actions * h))%nat as B eqn:EB.
  assert (Hdiv : length (tdata raw) = (B * n_actions * h)%nat).
  { pose proof (Nat.div_mod (length (tdata raw)) (n_actions * h) Hah) as D.
    rewrite Hmod, <- EB in D. lia. }
  clear EB Hmod.
  remember (torch_mean_last (mkTensor [B; n_actions; h] (tdata raw))) as q_values eqn:Eq.
  assert (Hsh : tshape q_values = [B; n_actions]) by (subst q_values; reflexivity).
  assert (Hlen : length (tdata q_values) = (B * (n_actions * 1))%nat).
  { subst q_values. unfold torch_mean_last, last_axis_rows.
    cbn [tshape tdata List.last removelast size_of fold_right].
    rewrite length_map, rows_length. reflexivity. }
  unfold torch_argmax_dim1 in H. rewrite Hsh in H.
  destruct (Nat.eqb_spec n_actions 0) as [|Ha]; [discriminate|].
  destruct (map (fun row => Z.of_nat (argmax row)) (rows n_actions B (tdata q_values)))
    as [|i0 [|i1 rest]] eqn:Em; try discriminate.
  inversion H; subst i0; clear H.
  assert (HB : B = 1%nat).
  { apply (f_equal (@length Z)) in Em. rewrite length_map, rows_length in Em. exact Em. }
  subst B. cbn [rows map] in Em. inversion Em as [Ea]. clear Em.
  assert (Hl : length (tdata q_values) = n_actions) by lia.
  rewrite firstn_all2 in Ea by lia. rewrite firstn_all2 by lia.
  assert (Hentry : forall j, (j < n_actions)%nat ->
                             nth j (tdata q_values) 0%Q = mean_of_heads raw h j).
  { intros j Hj. subst q_values.
    destruct (torch_mean_last_entry 1 n_actions h j (tdata raw)) as (_ & _ & E);
      [lia|lia|]. exact E. }
  assert (Hne : tdata q_values <> []).
  { intros X. rewrite X in Hl. cbn in Hl. lia. }
  destruct (argmax_spec (tdata q_values) Hne) as [Hlt Hmax].
  rewrite Nat2Z.id.
  split; [lia|]. split; [exact Hsh|]. split; [exact Hl|]. split; [exact Hentry|].
  split; [lia|].
  intros j Hj. rewrite <- (Hentry j Hj), <- (Hentry (argmax (tdata q_values))) by lia.
  apply Hmax. lia.
Qed.

(** Two transform matrices of one shape: [forward] answers the same mean
    Q-values with both, or raises the same exception with both. *)
Lemma forward_matrix_shape {Params : Type}
      (network : Params -> list ndarray -> result tensor) (n_actions : nat)
      (net : MultiHeadQNetwork Params) (x : list ndarray) (m1 m2 : tensor) :
  tshape m1 = tshape m2 ->
  match forward network n_actions (set_transform_matrix net (Some m1)) x with
  | Ok (_, q_values) =>
      exists q_heads2,
        forward network n_actions (set_transform_matrix net (Some m2)) x
        = Ok (q_heads2, q_values)
  | Raise e =>
      forward network n_actions (set_transform_matrix net (Some m2)) x = Raise e
  end.
Proof.
  intros Hsh. unfold forward, and_then.
  cbn [params num_heads transform_strategy transform_matrix set_transform_matrix].
  destruct (network (params net) x) as [raw|]; [|reflexivity].
  destruct (torch_reshape_batch raw n_actions (num_heads net)) as [u|]; [|reflexivity].
  unfold combine_q_functions, and_then.
  destruct (String.eqb (transform_strategy net) "STOCHASTIC").
  - unfold torch_matmul. rewrite <- Hsh.
    destruct (tshape u) as [|d0 ds]; [reflexivity|].
    destruct (tshape m1) as [|h [|c [|? ?]]]; try reflexivity.
    + destruct (h =? List.last (d0 :: ds) 1)%nat; [|reflexivity]. eexists. reflexivity.
    + destruct (h =? List.last (d0 :: ds) 1)%nat; [|reflexivity]. eexists. reflexivity.
  - destruct (String.eqb (transform_strategy net) "IDENTITY"); [|reflexivity].
    eexists. reflexivity.
Qed.

Section Decision.
Context (args : Args) (Params : Type)
        (network : Params -> list ndarray -> result tensor) (n_actions : nat)
        (Buffer : Type)
        (random_random : Z -> Q) (action_space_sample : Z -> Z).

Abbreviation decide_ :=
  (decide args Params network n_actions Buffer random_random action_space_sample).

(** What lines 609-617 went through when the loop has decided on an
    action. *)
Lemma decide_spec (g : Z) (s : LoopState Params Buffer) (arr : ndarray) (action : Z) :
  decide_ g s = Ok (arr, action) ->
  exists q_heads q_values epsilon,
    np_array (obs Params Buffer s) = Ok arr /\
    forward network n_actions (q_network Params Buffer s) [arr] = Ok (q_heads, q_values) /\
    capture_video args = false /\
    linear_schedule (start_e args) (end_e args)
      (exploration_fraction args * inject_Z (total_timesteps args))%Q (inject_Z g)
    = Ok epsilon /\
    choose_action q_values epsilon (random_random g) (action_space_sample g) = Ok action.
Proof.
  unfold decide, and_then. intros H.
  destruct (np_array (obs Params Buffer s)) as [arr0|] eqn:A; [|discriminate].
  destruct (forward network n_actions (q_network Params Buffer s) [arr0])
    as [[q_heads q_values]|] eqn:F; [|discriminate].
  destruct (capture_video args); [discriminate|].
  destruct (linear_schedule _ _ _ _) as [epsilon|] eqn:S; [|discriminate].
  destruct (choose_action q_values epsilon (random_random g) (action_space_sample g))
    as [action0|] eqn:C; [|discriminate].
  inversion H; subst. exists q_heads, q_values, epsilon.
  split; [reflexivity|]. split; [exact F|]. split; [reflexivity|]. split; [reflexivity|].
  exact C.
Qed.

(** The greedy branch of the decision, in terms of the output of the
    network. *)
Lemma decide_greedy (g : Z) (s : LoopState Params Buffer) (arr : ndarray) (action : Z) :
  decide_ g s = Ok (arr, action) ->
  exists raw unordered_q_heads epsilon,
    np_array (obs Params Buffer s) = Ok arr /\
    network (params (q_network Params Buffer s)) [arr] = Ok raw /\
    torch_reshape_batch raw n_actions (num_heads (q_network Params Buffer s))
    = Ok unordered_q_heads /\
    linear_schedule (start_e args) (end_e args)
      (exploration_fraction args * inject_Z (total_timesteps args))%Q (inject_Z g)
    = Ok epsilon /\
    ((random_random g < epsilon)%Q -> action = action_space_sample g) /\
    ((epsilon <= random_random g)%Q ->
     torch_argmax_dim1 (torch_mean_last unordered_q_heads) = Ok [action]).
Proof.
  intros H.
  destruct (decide_spec g s arr action H) as (q_heads & q_values & epsilon & A & F & _ & S & C).
  destruct (forward_q_values _ _ _ _ _ _ F) as (raw & u & E1 & E2 & E3).
  exists raw, u, epsilon.
  split; [exact A|]. split; [exact E1|]. split; [exact E2|]. split; [exact S|].
  subst q_values.
  destruct (choose_action_spec _ _ _ _ _ C) as [[L E]|[L E]]; split.
  - intros _. exact E.
  - intros Hle. exfalso. apply (Qlt_not_le _ _ L). exact Hle.
  - intros Hlt. exfalso. apply (Qlt_not_le _ _ Hlt). exact L.
  - intros _. exact E.
Qed.

(** Two transform matrices of one shape in the online network: the decision
    is the same. *)
Lemma decide_matrix (g : Z) (s : LoopState Params Buffer) (m1 m2 : tensor) :
  tshape m1 = tshape m2 ->
  decide_ g (with_q_network Params Buffer s
               (set_transform_matrix (q_network Params Buffer s) (Some m1)))
  = decide_ g (with_q_network Params Buffer s
                 (set_transform_matrix (q_network Params Buffer s) (Some m2))).
Proof.
  intros Hsh. unfold decide, and_then.
  cbn [obs q_network with_q_network].
  destruct (np_array (obs Params Buffer s)) as [arr|]; [|reflexivity].
  pose proof (forward_matrix_shape network n_actions (q_network Params Buffer s)
                [arr] m1 m2 Hsh) as F.
  destruct (forward network n_actions
              (set_transform_matrix (q_network Params Buffer s) (Some m1)) [arr])
    as [[q_heads1 q_values]|e].
  - destruct F as [q_heads2 F]. rewrite F. reflexivity.
  - rewrite F. reflexivity.
Qed.

(** Any two transform matrices in the online network: whenever the loop
    decides on an action with both, it is the same action. *)
Lemma decide_any_matrix (g : Z) (s : LoopState Params Buffer) (m1 m2 : option tensor)
      (arr1 arr2 : ndarray) (action1 action2 : Z) :
  decide_ g (with_q_network Params Buffer s
               (set_transform_matrix (q_network Params Buffer s) m1))
  = Ok (arr1, action1) ->
  decide_ g (with_q_network Params Buffer s
               (set_transform_matrix (q_network Params Buffer s) m2))
  = Ok (arr2, action2) ->
  arr1 = arr2 /\ action1 = action2.
Proof.
  intros H1 H2.
  destruct (decide_spec _ _ _ _ H1) as (h1 & v1 & e1 & A1 & F1 & _ & S1 & C1).
  destruct (decide_spec _ _ _ _ H2) as (h2 & v2 & e2 & A2 & F2 & _ & S2 & C2).
  cbn [obs q_network with_q_network] in A1, A2, F1, F2.
  assert (Ea : arr1 = arr2) by congruence. subst arr2.
  assert (Ee : e1 = e2) by congruence. subst e2.
  destruct (forward_q_values _ _ _ _ _ _ F1) as (raw1 & u1 & N1 & R1 & V1).
  destruct (forward_q_values _ _ _ _ _ _ F2) as (raw2 & u2 & N2 & R2 & V2).
  cbn [params num_heads set_transform_matrix] in N1, N2, R1, R2.
  assert (Er : raw1 = raw2) by congruence. subst raw2.
  assert (Eu : u1 = u2) by congruence. subst u2.
  subst v1 v2. split; [reflexivity|congruence].
Qed.

(** C8. The action the loop decides on at a global step (lines 609-617),
    for the observation it holds.  When the epsilon test does not send the
    loop exploring ([random.random() >= epsilon]), the action is an index
    below the number of actions at which the mean across heads of the
    network's output for the observation is maximal: no action has a larger
    mean.  Lines 614-617 by themselves, for every value of [epsilon] (the
    binary64 value of the schedule as well as the exact one): a draw below
    [epsilon] gives the sampled action, any other draw an index at which the
    Q-values are maximal.  And for any two transform matrices of one shape
    installed in the online network (those the script installs all have the
    shape (num_heads, 1)), the decision is the same: the same action, or the
    same exception; for any two transform matrices at all, the action is the
    same whenever the loop decides on one with both. *)
Theorem greedy_action_ignores_transform_matrix (g : Z) (s : LoopState Params Buffer) :
  (forall arr action,
      decide_ g s = Ok (arr, action) ->
      exists raw epsilon,
        let h := num_heads (q_network Params Buffer s) in
        np_array (obs Params Buffer s) = Ok arr /\
        network (params (q_network Params Buffer s)) [arr] = Ok raw /\
        linear_schedule (start_e args) (end_e args)
          (exploration_fraction args * inject_Z (total_timesteps args))%Q (inject_Z g)
        = Ok epsilon /\
        ((random_random g < epsilon)%Q -> action = action_space_sample g) /\
        ((epsilon <= random_random g)%Q ->
         length (tdata raw) = (n_actions * h)%nat /\
         0 <= action < Z.of_nat n_actions /\
         forall j, (j < n_actions)%nat ->
                   (mean_of_heads raw h j <= mean_of_heads raw h (Z.to_nat action))%Q)) /\
  (forall logits epsilon u sample,
      ((u < epsilon)%Q -> choose_action logits epsilon u sample = Ok sample) /\
      (forall action,
          (epsilon <= u)%Q ->
          length (tdata logits) = size_of (tshape logits) ->
          choose_action logits epsilon u sample = Ok action ->
          exists n,
            tshape logits = [1%nat; n] /\
            0 <= action < Z.of_nat n /\
            forall j, (j < n)%nat ->
                      (nth j (tdata logits) 0 <= nth (Z.to_nat action) (tdata logits) 0)%Q)) /\
  (forall m1 m2 : tensor,
      tshape m1 = tshape m2 ->
      decide_ g (with_q_network Params Buffer s
                   (set_transform_matrix (q_network Params Buffer s) (Some m1)))
      = decide_ g (with_q_network Params Buffer s
                     (set_transform_matrix (q_network Params Buffer s) (Some m2)))) /\
  (forall (m1 m2 : option tensor) arr1 arr2 action1 action2,
      decide_ g (with_q_network Params Buffer s
                   (set_transform_matrix (q_network Params Buffer s) m1))
      = Ok (arr1, action1) ->
      decide_ g (with_q_network Params Buffer s
                   (set_transform_matrix (q_network Params Buffer s) m2))
      = Ok (arr2, action2) ->
      arr1 = arr2 /\ action1 = action2).
Proof.
  split; [|split; [|split]].
  - intros arr action H.
    destruct (decide_greedy g s arr action H)
      as (raw & u & epsilon & A & E1 & E2 & S & Hexp & Hgr).
    exists raw, epsilon. cbv zeta.
    split; [exact A|]. split; [exact E1|]. split; [exact S|]. split; [exact Hexp|].
    intros Hle.
    destruct (argmax_of_mean _ _ _ _ _ E2 (Hgr Hle)) as (L & _ & _ & _ & R & M).
    split; [exact L|]. split; [exact R|exact M].
  - intros logits epsilon u sample. split.
    + intros L. unfold choose_action.
      destruct (Qlt_le_dec u epsilon) as [_|L']; [reflexivity|].
      exfalso. apply (Qlt_not_le _ _ L). exact L'.
    + intros action. apply choose_action_maximal.
  - apply decide_matrix.
  - apply decide_any_matrix.
Qed.
End Decision.

Lemma greedy_action_witness :
  (exists raw epsilon,
      let h := 2%nat in
      np_array (Array (marker 7)) = Ok (marker 7) /\
      stub_network tt [marker 7] = Ok raw /\
      linear_schedule 1 (1 # 100) ((1 # 5) * inject_Z 50)%Q (inject_Z 1) = Ok epsilon /\
      ((1 < epsilon)%Q -> 2 = 1 mod 3) /\
      ((epsilon <= 1)%Q ->
       length (tdata raw) = (3 * h)%nat /\
       0 <= 2 < Z.of_nat 3 /\
       forall j, (j < 3)%nat ->
                 (mean_of_heads raw h j <= mean_of_heads raw h (Z.to_nat 2))%Q)) /\
  stub_decide 1 (stub_state (Some (mkTensor [2; 1]%nat [1; 0]%Q)))
  = stub_decide 1 (stub_state (Some (mkTensor [2; 1]%nat [1 # 4; 3 # 4]%Q))).
Proof.
  split.
  - apply (proj1 (greedy_action_ignores_transform_matrix stub_args unit stub_network 3
                    (list (ndarray * Observation * Z * Q * bool))
                    (fun g => if Z.even g then 0%Q else 1%Q) (fun g => g mod 3)
                    1 (stub_state (Some (mkTensor [2; 1]%nat [1; 0]%Q))))
                 (marker 7) 2).
    reflexivity.
  - apply (proj1 (proj2 (proj2 (greedy_action_ignores_transform_matrix stub_args unit
                           stub_network 3
                           (list (ndarray * Observation * Z * Q * bool))
                           (fun g => if Z.even g then 0%Q else 1%Q) (fun g => g mod 3)
                           1 (stub_state None))))
                 (mkTensor [2; 1]%nat [1; 0]%Q) (mkTensor [2; 1]%nat [1 # 4; 3 # 4]%Q)).
    reflexivity.
Defined.

(** The sampled combination does differ between the two matrices; only the
    mean, and with it the action, does not.  At global step 1 the stub's
    draw is 1 and the loop is greedy: the means are 3/2, 9/2 and 11/2, and
    action 2 is chosen. *)
Example forward_heads_differ :
  forward stub_network 3 (stub_net (Some (mkTensor [2; 1]%nat [1; 0]%Q))) [marker 7]
  = Ok (mkTensor [3%nat] [1 * 1 + (2 * 0 + 0); 9 * 1 + (0 * 0 + 0); 5 * 1 + (6 * 0 + 0)]%Q,
        mkTensor [1; 3]%nat [(1 + (2 + 0)) / 2; (9 + (0 + 0)) / 2; (5 + (6 + 0)) / 2]%Q) /\
  stub_decide 1 (stub_state (Some (mkTensor [2; 1]%nat [1; 0]%Q))) = Ok (marker 7, 2) /\
  stub_decide 1 (stub_state (Some (mkTensor [2; 1]%nat [1 # 4; 3 # 4]%Q)))
  = Ok (marker 7, 2) /\
  stub_decide 0 (stub_state (Some (mkTensor [2; 1]%nat [1; 0]%Q))) = Ok (marker 7, 0) /\
  stub_decide 1 (stub_state None)
  = Raise (TypeError "matmul(): argument 'other' must be Tensor, not NoneType").
Proof. repeat split; reflexivity. Qed.

(* ------------------------------------------------------------------ *)
(** * The epsilon schedule *)
(* ------------------------------------------------------------------ *)

Lemma Qmax_left (x y : Q) : (y <= x)%Q -> (Qmax x y == x)%Q.
Proof. intros H. apply Q.max_l. exact H. Qed.

Lemma Qmax_right (x y : Q) : (x <= y)%Q -> (Qmax x y == y)%Q.
Proof. intros H. apply Q.max_r. exact H. Qed.

(** In exact arithmetic the schedule is the line from [start_e] to [end_e],
    held at [end_e] from [duration] on. *)
Lemma linear_schedule_exact (start_e end_e duration t : Q) :
  (0 < duration)%Q -> (end_e <= start_e)%Q ->
  exists v,
    linear_schedule start_e end_e duration t = Ok v /\
    (t == 0 -> v == start_e)%Q /\
    (t == duration -> v == end_e)%Q /\
    (duration < t -> v == end_e)%Q /\
    (0 <= t -> t <= duration -> v == start_e + t * (end_e - start_e) / duration)%Q.
Proof.
  intros Hd Hse.
  assert (Hd0 : ~ (duration == 0)%Q).
  { intros E. rewrite E in Hd. apply (Qlt_irrefl 0), Hd. }
  exists (Qmax ((end_e - start_e) / duration * t + start_e) end_e).
  split.
  { unfold linear_schedule. destruct (Qeq_bool duration 0) eqn:E; [|reflexivity].
    apply Qeq_bool_eq in E. contradiction. }
  assert (Hline : forall x, ((end_e - start_e) / duration * x + start_e
                             == start_e + x * (end_e - start_e) / duration)%Q).
  { intros x. field. exact Hd0. }
  assert (Hpos : forall y, (0 <= y)%Q -> (0 <= (start_e - end_e) * (y / duration))%Q).
  { intros y Hy. apply Qmult_le_0_compat.
    - unfold Qminus. apply -> Qle_minus_iff. exact Hse.
    - apply Qle_shift_div_l; [exact Hd|]. rewrite Qmult_0_l. exact Hy. }
  assert (Hge : forall x, (x <= duration)%Q ->
                (end_e <= (end_e - start_e) / duration * x + start_e)%Q).
  { intros x Hx. apply Qle_minus_iff.
    setoid_replace ((end_e - start_e) / duration * x + start_e + - end_e)%Q
      with ((start_e - end_e) * ((duration - x) / duration))%Q
      by (field; exact Hd0).
    apply Hpos. unfold Qminus. apply -> Qle_minus_iff. exact Hx. }
  assert (Hle : forall x, (duration <= x)%Q ->
                ((end_e - start_e) / duration * x + start_e <= end_e)%Q).
  { intros x Hx. apply Qle_minus_iff.
    setoid_replace (end_e + - ((end_e - start_e) / duration * x + start_e))%Q
      with ((start_e - end_e) * ((x - duration) / duration))%Q
      by (field; exact Hd0).
    apply Hpos. unfold Qminus. apply -> Qle_minus_iff. exact Hx. }
  split; [|split; [|split]].
  - intros Ht. rewrite Qmax_left.
    + rewrite Ht. ring.
    + apply Hge. rewrite Ht. apply Qlt_le_weak, Hd.
  - intros Ht. rewrite Qmax_left.
    + rewrite Ht. field. exact Hd0.
    + apply Hge. rewrite Ht. apply Qle_refl.
  - intros Ht. apply Qmax_right. apply Hle. apply Qlt_le_weak, Ht.
  - intros H0 Ht. rewrite Qmax_left.
    + apply Hline.
    + apply Hge. exact Ht.
Qed.

(** The specification's examples, evaluated on binary64 floats as Python
    evaluates them.  At [t = duration] the slope [(0.01 - 1.0) / 100] and its
    product with [100] are rounded, and [1.0 + (-0.9899999999999999)] is
    [0.01000000000000012], not [0.01]: Python's [==] with [0.01] is False. *)
Lemma linear_schedule_f_at_duration :
  exists v,
    linear_schedule_f 1%float 0.01%float 100%float 100%float = Ok v /\
    PrimFloat.eqb v 0.01%float = false.
Proof. eexists. split; [vm_compute; reflexivity|vm_compute; reflexivity]. Qed.

(** C6, as the code has it.  In exact arithmetic, for [duration > 0] and
    [start_e >= end_e], [linear_schedule] returns [start_e] at [t = 0],
    [end_e] at [t = duration] and for every [t > duration], and
    [start_e + t * (end_e - start_e) / duration] for [0 <= t <= duration].
    On binary64 floats, [schedule(1.0, 0.01, 100, 0)] is [1.0] and
    [schedule(1.0, 0.01, 100, 200)] is [0.01] exactly, and
    [schedule(1.0, 0.01, 100, 100)] is [0.01000000000000012]: above [0.01] by
    less than [2e-16]. *)
Theorem linear_schedule_exact_and_binary64 :
  (forall start_e end_e duration t : Q,
      (0 < duration)%Q -> (end_e <= start_e)%Q ->
      exists v,
        linear_schedule start_e end_e duration t = Ok v /\
        (t == 0 -> v == start_e)%Q /\
        (t == duration -> v == end_e)%Q /\
        (duration < t -> v == end_e)%Q /\
        (0 <= t -> t <= duration ->
         v == start_e + t * (end_e - start_e) / duration)%Q) /\
  linear_schedule_f 1%float 0.01%float 100%float 0%float = Ok 1%float /\
  linear_schedule_f 1%float 0.01%float 100%float 200%float = Ok 0.01%float /\
  (exists v,
      linear_schedule_f 1%float 0.01%float 100%float 100%float = Ok v /\
      PrimFloat.eqb v 0.01000000000000012%float = true /\
      PrimFloat.ltb 0.01%float v = true /\
      PrimFloat.ltb (v - 0.01)%float 2e-16%float = true).
Proof.
  split; [|split; [|split]].
  - intros. apply linear_schedule_exact; assumption.
  - vm_compute. reflexivity.
  - vm_compute. reflexivity.
  - eexists. split; [vm_compute; reflexivity|].
    repeat split; vm_compute; reflexivity.
Qed.

Lemma linear_schedule_witness :
  exists v,
    linear_schedule 1 (1 # 100) 100 100 = Ok v /\
    (100 == 0 -> v == 1)%Q /\
    (100 == 100 -> v == 1 # 100)%Q /\
    (100 < 100 -> v == 1 # 100)%Q /\
    (0 <= 100 -> 100 <= 100 -> v == 1 + 100 * ((1 # 100) - 1) / 100)%Q.
Proof.
  apply (proj1 linear_schedule_exact_and_binary64 1 (1 # 100) 100 100)%Q.
  - reflexivity.
  - unfold Qle; cbn; lia.
Defined.

(** A duration of 0 is a division by zero. *)
Example linear_schedule_zero_duration :
  linear_schedule 1 (1 # 100) 0 5 = Raise ZeroDivisionError.
Proof. reflexivity. Qed.

(* ------------------------------------------------------------------ *)
(** * The training loop: when a learning step is made *)
(* ------------------------------------------------------------------ *)

Lemma learning_steps_app (l1 l2 : list event) :
  learning_steps (l1 ++ l2) = learning_steps l1 ++ learning_steps l2.
Proof.
  induction l1 as [|e l1 IH]; [reflexivity|].
  destruct e; cbn; rewrite IH; reflexivity.
Qed.

(** The test of line 636, when it does not raise. *)
Lemma learning_due_ok (args : Args) (g : Z) (b : bool) :
  learning_due args g = Ok b ->
  b = (learning_start args <? g) && (g mod train_frequency args =? 0).
Proof.
  unfold learning_due, py_mod, and_then.
  destruct (learning_start args <? g); cbn.
  - destruct (train_frequency args =? 0); [discriminate|]. intros H. inversion H. reflexivity.
  - intros H. inversion H. reflexivity.
Qed.

Section TrainingLoop_proofs.
Context (args : Args) (Params : Type)
        (network : Params -> list ndarray -> result tensor) (n_actions : nat)
        (Buffer : Type)
        (rb_add : Buffer -> ndarray * Observation * Z * Q * bool -> Buffer)
        (Batch : Type) (rb_sample : Z -> Buffer -> Z -> result Batch)
        (optimize : MultiHeadQNetwork Params -> MultiHeadQNetwork Params ->
                    Batch -> result Params)
        (random_random : Z -> Q) (action_space_sample : Z -> Z)
        (torch_rand : Z -> list Q).

Abbreviation State := (LoopState Params Buffer).
Abbreviation evs := (events Params Buffer).

Lemma save_phase_learning (g : Z) (s s' : State) :
  save_phase args Params Buffer g s = Ok s' ->
  learning_steps (evs s') = learning_steps (evs s).
Proof.
  unfold save_phase, and_then.
  destruct (py_mod g (save_frequency args)) as [r|]; [|discriminate].
  intros H. inversion H; subst. destruct (r =? 0); [|reflexivity].
  cbn. rewrite learning_steps_app. cbn. apply app_nil_r.
Qed.

Lemma act_phase_learning (g : Z) (s s' : State) :
  act_phase args Params network n_actions Buffer rb_add
            random_random action_space_sample g s = Ok s' ->
  learning_steps (evs s') = learning_steps (evs s).
Proof.
  unfold act_phase, and_then.
  destruct (decide _ _ _ _ _ _ _ g s) as [[arr action]|]; [|discriminate].
  destruct (obj_step (env Params Buffer s) action) as [[[[[next_obs reward] done] info] env1]|];
    [|discriminate].
  assert (E : learning_steps
                (if has_key "episode.r" info then evs s ++ [EpisodeLogged g] else evs s)
              = learning_steps (evs s)).
  { destruct (has_key "episode.r" info); [|reflexivity].
    rewrite learning_steps_app. cbn. apply app_nil_r. }
  destruct done.
  - destruct (obj_reset env1) as [[obs1 env2]|]; [|discriminate].
    intros H. inversion H; subst. cbn. exact E.
  - intros H. inversion H; subst. cbn. exact E.
Qed.

Lemma learn_phase_learning (g : Z) (s s' : State) :
  learn_phase args Params Buffer Batch rb_sample optimize torch_rand g s = Ok s' ->
  learning_steps (evs s')
  = learning_steps (evs s)
    ++ (if (learning_start args <? g) && (g mod train_frequency args =? 0)
        then [g] else []).
Proof.
  unfold learn_phase. unfold and_then at 1.
  destruct (learning_due args g) as [due|] eqn:D; [|discriminate].
  rewrite <- (learning_due_ok args g due D).
  destruct due.
  - unfold and_then.
    destruct (rb_sample g (rb Params Buffer s) (batch_size args)) as [data|]; [|discriminate].
    destruct (optimize _ _ data) as [p|]; [|discriminate].
    destruct (py_mod g (target_network_frequency args)) as [r|]; [|discriminate].
    destruct (r =? 0); intros H; inversion H; subst; cbn;
      repeat rewrite learning_steps_app; cbn; rewrite ?app_nil_r; reflexivity.
  - intros H. inversion H; subst. symmetry. apply app_nil_r.
Qed.

Lemma iterate_learning :
  forall (steps : list Z) (s s' : State),
    iterate args Params network n_actions Buffer rb_add Batch rb_sample optimize
            random_random action_space_sample torch_rand steps s = Ok s' ->
    learning_steps (evs s')
    = learning_steps (evs s)
      ++ filter (fun g => (learning_start args <? g) && (g mod train_frequency args =? 0))
                steps.
Proof.
  induction steps as [|g rest IH]; intros s s' H; cbn [iterate] in H.
  - inversion H; subst. symmetry. apply app_nil_r.
  - unfold and_then at 1 in H. unfold iteration in H.
    unfold and_then at 1 in H.
    destruct (save_phase args Params Buffer g s) as [s1|] eqn:E1; [|discriminate].
    unfold and_then at 1 in H.
    destruct (act_phase _ _ _ _ _ _ _ _ g s1) as [s2|] eqn:E2; [|discriminate].
    destruct (learn_phase _ _ _ _ _ _ _ g s2) as [s3|] eqn:E3; [|discriminate].
    rewrite (IH _ _ H).
    rewrite (learn_phase_learning _ _ _ E3), (act_phase_learning _ _ _ E2),
            (save_phase_learning _ _ _ E1).
    cbn [filter]. rewrite <- app_assoc. f_equal.
    destruct ((learning_start args <? g) && (g mod train_frequency args =? 0));
      reflexivity.
Qed.
End TrainingLoop_proofs.

(** The stub run goes through, and its learning steps are made at the global
    steps 15, 20, ..., 45: seven of them.  Global step 10 is a multiple of
    [train_frequency] but is not greater than [learning_start], and no
    learning step is made there. *)
Lemma stub_run_learning_steps :
  stub_run = Ok stub_final /\
  learning_steps (events _ _ stub_final) = [15; 20; 25; 30; 35; 40; 45] /\
  length (learning_steps (events _ _ stub_final)) = 7%nat /\
  ~ In 10 (learning_steps (events _ _ stub_final)) /\
  learning_steps (events _ _ stub_final) <> [10; 15; 20; 25; 30; 35; 40; 45].
Proof.
  split; [vm_compute; reflexivity|].
  assert (E : learning_steps (events _ _ stub_final) = [15; 20; 25; 30; 35; 40; 45])
    by (vm_compute; reflexivity).
  rewrite E. split; [reflexivity|]. split; [reflexivity|]. split.
  - cbn. intuition discriminate.
  - discriminate.
Qed.

(** C1, as the code has it.  Whatever the environment, the network and the
    other collaborators are, a run of the loop that completes has made a
    learning step at exactly the global steps of [range(total_timesteps)]
    that are strictly greater than [learning_start] and multiples of
    [train_frequency] (line 636 tests [global_step > args.learning_start]).
    With total_timesteps=50, learning_start=10 and train_frequency=5 these
    are the steps 15, 20, 25, 30, 35, 40, 45: seven learning steps. *)
Theorem learning_steps_of_training_loop
        (args : Args) (Params : Type)
        (network : Params -> list ndarray -> result tensor) (n_actions : nat)
        (Buffer : Type)
        (rb_add : Buffer -> ndarray * Observation * Z * Q * bool -> Buffer)
        (Batch : Type) (rb_sample : Z -> Buffer -> Z -> result Batch)
        (optimize : MultiHeadQNetwork Params -> MultiHeadQNetwork Params ->
                    Batch -> result Params)
        (random_random : Z -> Q) (action_space_sample : Z -> Z)
        (torch_rand : Z -> list Q)
        (env0 : Obj Observation) (rb0 : Buffer)
        (q0 target0 : MultiHeadQNetwork Params)
        (s : LoopState Params Buffer) :
  training_loop args Params network n_actions Buffer rb_add Batch rb_sample optimize
                random_random action_space_sample torch_rand env0 rb0 q0 target0 = Ok s ->
  learning_steps (events _ _ s)
  = filter (fun g => (learning_start args <? g) && (g mod train_frequency args =? 0))
           (range (total_timesteps args)) /\
  (total_timesteps args = 50 -> learning_start args = 10 -> train_frequency args = 5 ->
   learning_steps (events _ _ s) = [15; 20; 25; 30; 35; 40; 45]).
Proof.
  intros H. unfold training_loop, and_then in H.
  destruct (obj_reset env0) as [[obs0 env1]|]; [|discriminate].
  pose proof (iterate_learning _ _ _ _ _ _ _ _ _ _ _ _ _ _ _ H) as E.
  cbn [events learning_steps app] in E.
  split; [exact E|].
  intros Ht Hl Hf. rewrite E, Ht, Hl, Hf. reflexivity.
Qed.

Lemma learning_steps_witness :
  learning_steps (events _ _ stub_final)
  = filter (fun g => (learning_start stub_args <? g)
                     && (g mod train_frequency stub_args =? 0))
           (range (total_timesteps stub_args)) /\
  (total_timesteps stub_args = 50 -> learning_start stub_args = 10 ->
   train_frequency stub_args = 5 ->
   learning_steps (events _ _ stub_final) = [15; 20; 25; 30; 35; 40; 45]).
Proof.
  apply (learning_steps_of_training_loop stub_args unit stub_network 3
           (list (ndarray * Observation * Z * Q * bool)) stub_rb_add
           (list (ndarray * Observation * Z * Q * bool)) stub_rb_sample stub_optimize
           (fun g => if Z.even g then 0%Q else 1%Q)
           (fun g => g mod 3)
           (fun _ => [1 # 2; 1 # 4]%Q)
           (present Array (mkObj marker_emulator 0%nat)) []
           (stub_net (Some (random_stochastic_matrix [1 # 2; 1 # 2]%Q)))
           (stub_net (Some (random_stochastic_matrix [1 # 2; 1 # 2]%Q)))
           stub_final).
  vm_compute. reflexivity.
Defined.

(* ------------------------------------------------------------------ *)
(** * The pipeline the training script builds *)
(* ------------------------------------------------------------------ *)

Lemma sees_through_refl {Ob : Type} (env : Obj Ob) : sees_through env env.
Proof.
  exists (fun s => s). split; [|reflexivity]. split; [reflexivity|].
  intros a s r s' H. exists r. split; [exact H|reflexivity].
Qed.

Lemma sees_through_trans {O1 O2 O3 : Type} (e1 : Obj O1) (e2 : Obj O2) (e3 : Obj O3) :
  sees_through e1 e2 -> sees_through e2 e3 -> sees_through e1 e3.
Proof.
  intros (p1 & [L1 S1] & I1) (p2 & [L2 S2] & I2).
  exists (fun s => p2 (p1 s)). split; [|rewrite I1; exact I2]. split.
  - intros s. rewrite L1. apply L2.
  - intros a s r s' H. destruct (S1 a s r s' H) as (r2 & H2 & D2).
    destruct (S2 a _ r2 _ H2) as (r3 & H3 & D3).
    exists r3. split; [exact H3|congruence].
Qed.

Lemma sees_through_observation {Ob Ob' : Type} (f : Ob -> result Ob') (sh : list nat)
      (dt : dtype) (env : Obj Ob) :
  sees_through (mkObj (ObservationWrapper_cls f sh dt (cls env)) (st env)) env.
Proof.
  exists (fun s => s). split; [|reflexivity]. split; [reflexivity|].
  intros a s r s' H. cbn in H. unfold ObservationWrapper_step, bind in H.
  destruct (step (cls env) a s) as [[[[[ob rw] d] i] s1]|] eqn:E; [|discriminate].
  unfold lift, ret in H. destruct (f ob) as [ob'|]; [|discriminate].
  inversion H; subst. exists (ob, rw, d, i). split; reflexivity.
Qed.

Lemma sees_through_reward {Ob : Type} (f : Q -> Q) (env : Obj Ob) :
  sees_through (mkObj (RewardWrapper_cls f (cls env)) (st env)) env.
Proof.
  exists (fun s => s). split; [|reflexivity]. split; [reflexivity|].
  intros a s r s' H. cbn in H. unfold RewardWrapper_step, bind, ret in H.
  destruct (step (cls env) a s) as [[[[[ob rw] d] i] s1]|] eqn:E; [|discriminate].
  inversion H; subst. exists (ob, rw, d, i). split; reflexivity.
Qed.

Lemma sees_through_FireResetEnv {Ob : Type} (env e : Obj Ob) :
  FireResetEnv env = Ok e -> sees_through e env.
Proof.
  unfold FireResetEnv.
  destruct (nth_error (action_meanings (cls env)) 1) as [m|]; [|discriminate].
  destruct (String.eqb m "FIRE"); [|discriminate].
  destruct (3 <=? length (action_meanings (cls env)))%nat; [|discriminate].
  intros H. inversion H; subst.
  exists (fun s => s). split; [|reflexivity]. split; [reflexivity|].
  intros a s r s' Hs. exists r. split; [exact Hs|reflexivity].
Qed.

Lemma sees_through_FrameStack (env : Obj ndarray) (n : Z) (e : Obj LazyFrames) :
  FrameStack env n = Ok e -> sees_through e env.
Proof.
  unfold FrameStack. destruct (n <? 0); [discriminate|].
  destruct (observation_shape (cls env)) as [|d0 shp]; [discriminate|].
  intros H. inversion H; subst.
  exists snd. split; [|reflexivity]. split; [reflexivity|].
  intros a [w s] r [w' s'] Hs. cbn in Hs.
  unfold FrameStack_step in Hs. unfold bind at 1, inner at 1 in Hs. cbn [fst snd] in Hs.
  destruct (step (cls env) a s) as [[[[[ob rw] d] i] s1]|] eqn:E; [|discriminate].
  unfold FrameStack_append, FrameStack_get_ob in Hs. run_monad_in Hs.
  destruct (Z.of_nat _ =? k w); [|discriminate].
  inversion Hs; subst. exists (ob, rw, d, i). split; [exact E|reflexivity].
Qed.

Lemma sees_through_RecordEpisodeStatistics {Ob : Type} (env : Obj Ob) :
  sees_through (RecordEpisodeStatistics env) env.
Proof.
  exists snd. split; [|reflexivity]. split; [reflexivity|].
  intros a [w s] r [w' s'] Hs. cbn in Hs.
  unfold RecordEpisodeStatistics_step in Hs.
  unfold bind at 1, inner at 1 in Hs. cbn [fst snd] in Hs.
  destruct (step (cls env) a s) as [[[[[ob rw] d] i] s1]|] eqn:E; [|discriminate].
  run_monad_in Hs.
  destruct d; inversion Hs; subst;
    match goal with
    | E : step _ _ _ = Ok (?x, _) |- _ => exists x; split; [exact E|reflexivity]
    end.
Qed.

Section Pipeline_proofs.
Context (cv2_cvtColor_RGB2GRAY : ndarray -> result ndarray)
        (cv2_resize_INTER_AREA : ndarray -> nat -> nat -> result ndarray)
        (astype_float32_div_255 : ndarray -> result ndarray).

Lemma sees_through_WarpFrame (env e : Obj ndarray) (w h : nat) (g : bool) :
  WarpFrame cv2_cvtColor_RGB2GRAY cv2_resize_INTER_AREA env w h g = Ok e ->
  sees_through e env.
Proof.
  unfold WarpFrame.
  destruct (is_np_uint8 (observation_dtype (cls env))
            && (length (observation_shape (cls env)) =? 3)%nat); [|discriminate].
  intros H. inversion H; subst. apply sees_through_observation.
Qed.

Lemma sees_through_ImageToPyTorch (env e : Obj ndarray) :
  ImageToPyTorch env = Ok e -> sees_through e env.
Proof.
  unfold ImageToPyTorch. destruct (observation_shape (cls env)) as [|d0 [|d1 rest]];
    try discriminate.
  intros H. inversion H; subst. apply sees_through_observation.
Qed.

(** Every stage [wrap_deepmind] adds after its first line hands [done] on:
    the pipeline it returns shows the [done] of [EpisodicLifeEnv(env)] when
    [episode_life] is set, and the [done] of [env] itself when it is not. *)
Lemma wrap_deepmind_sees_through (env0 : Obj ndarray)
      (episode_life clip_rewards frame_stack scale : bool) (env : Obj Observation) :
  wrap_deepmind cv2_cvtColor_RGB2GRAY cv2_resize_INTER_AREA astype_float32_div_255
                env0 episode_life clip_rewards frame_stack scale = Ok env ->
  sees_through env (if episode_life then EpisodicLifeEnv env0 else env0).
Proof.
  unfold wrap_deepmind.
  set (base := if episode_life then EpisodicLifeEnv env0 else env0).
  unfold and_then at 1.
  destruct (if existsb (String.eqb "FIRE") (action_meanings (cls base))
            then FireResetEnv base else Ok base) as [e1|] eqn:E1; [|discriminate].
  assert (S1 : sees_through e1 base).
  { destruct (existsb (String.eqb "FIRE") (action_meanings (cls base))).
    - apply sees_through_FireResetEnv. exact E1.
    - inversion E1; subst. apply sees_through_refl. }
  unfold and_then at 1.
  destruct (WarpFrame _ _ e1 84 84 true) as [e2|] eqn:E2; [|discriminate].
  pose proof (sees_through_WarpFrame _ _ _ _ _ E2) as S2.
  set (e3 := if scale then ScaledFloatFrame astype_float32_div_255 e2 else e2).
  assert (S3 : sees_through e3 e2).
  { unfold e3. destruct scale; [apply sees_through_observation|apply sees_through_refl]. }
  set (e4 := if clip_rewards then ClipRewardEnv e3 else e3).
  assert (S4 : sees_through e4 e3).
  { unfold e4. destruct clip_rewards; [apply sees_through_reward|apply sees_through_refl]. }
  unfold and_then at 1.
  destruct (ImageToPyTorch e4) as [e5|] eqn:E5; [|discriminate].
  pose proof (sees_through_ImageToPyTorch _ _ E5) as S5.
  assert (S05 : sees_through e5 base).
  { eapply sees_through_trans; [exact S5|].
    eapply sees_through_trans; [exact S4|].
    eapply sees_through_trans; [exact S3|].
    eapply sees_through_trans; [exact S2|exact S1]. }
  destruct frame_stack.
  - unfold and_then.
    destruct (FrameStack e5 4) as [e6|] eqn:E6; [|discriminate].
    intros H. inversion H; subst.
    eapply sees_through_trans; [apply sees_through_observation|].
    eapply sees_through_trans; [apply (sees_through_FrameStack _ _ _ E6)|exact S05].
  - intros H. inversion H; subst.
    eapply sees_through_trans; [apply sees_through_observation|exact S05].
Qed.

(** The pipeline of the training script shows the [done] of the environment
    handed to [wrap_deepmind]. *)
Lemma training_env_reports_inner_done (emulator : Obj ndarray) (env : Obj Observation) :
  training_env cv2_cvtColor_RGB2GRAY cv2_resize_INTER_AREA astype_float32_div_255
               emulator = Ok env ->
  exists (atari : Obj ndarray)
         (proj : St (cls env) -> St (cls (RecordEpisodeStatistics atari))),
    wrap_atari emulator None = Ok atari /\
    proj (st env) = st (RecordEpisodeStatistics atari) /\
    (forall s, ale_lives (cls env) s
               = ale_lives (cls (RecordEpisodeStatistics atari)) (proj s)) /\
    (forall a s r s',
        step (cls env) a s = Ok (r, s') ->
        exists r2,
          step (cls (RecordEpisodeStatistics atari)) a (proj s) = Ok (r2, proj s') /\
          done_of r = done_of r2).
Proof.
  intros H. unfold training_env, and_then in H.
  destruct (wrap_atari emulator None) as [atari|] eqn:EA; [|discriminate].
  destruct (wrap_deepmind_sees_through _ false true true false env H)
    as (proj & [L S] & I).
  exists atari, proj. repeat split; assumption.
Qed.

(** With [episode_life=True] every step of the pipeline is a step of the
    environment handed to [wrap_deepmind], the life count remembered after
    it is the count of that environment, and [done] is set as well when a
    life was lost with lives remaining. *)
Lemma wrap_deepmind_life_shaping (env0 : Obj ndarray)
      (clip_rewards frame_stack scale : bool) (env : Obj Observation) :
  wrap_deepmind cv2_cvtColor_RGB2GRAY cv2_resize_INTER_AREA astype_float32_div_255
                env0 true clip_rewards frame_stack scale = Ok env ->
  exists proj : St (cls env) -> EpisodicLifeEnv_self * St (cls env0),
    proj (st env) = (mkEpisodicLife 0 true, st env0) /\
    (forall s, ale_lives (cls env) s = ale_lives (cls env0) (snd (proj s))) /\
    (forall a s r s',
        step (cls env) a s = Ok (r, s') ->
        exists ob rw d i,
          step (cls env0) a (snd (proj s)) = Ok ((ob, rw, d, i), snd (proj s')) /\
          lives (fst (proj s')) = ale_lives (cls env0) (snd (proj s')) /\
          done_of r
          = (d || ((ale_lives (cls env0) (snd (proj s')) <? lives (fst (proj s)))
                   && (0 <? ale_lives (cls env0) (snd (proj s')))))).
Proof.
  intros H.
  destruct (wrap_deepmind_sees_through _ true clip_rewards frame_stack scale env H)
    as (proj & [L S] & I).
  exists proj. split; [exact I|]. split; [exact L|].
  intros a s r s' Hs.
  destruct (S a s r s' Hs) as (r2 & H2 & D). rewrite D.
  destruct (proj s) as [w si] eqn:Ps. destruct (proj s') as [w' si'] eqn:Ps'.
  cbn [fst snd].
  cbn [step EpisodicLifeEnv cls EpisodicLifeEnv_cls] in H2.
  destruct (step (cls env0) a si) as [[[[[ob rw] d] i] s1]|e] eqn:E.
  - rewrite (EpisodicLifeEnv_step_spec (cls env0) a w si s1 ob rw d i E) in H2.
    inversion H2; subst.
    exists ob, rw, d, i. split; [reflexivity|]. split; [reflexivity|].
    unfold done_of. cbn [fst snd lives].
    destruct ((ale_lives (cls env0) si' <? lives w) && (0 <? ale_lives (cls env0) si'));
      destruct d; reflexivity.
  - unfold EpisodicLifeEnv_step in H2. unfold bind at 1, inner at 1 in H2.
    cbn [fst snd] in H2. rewrite E in H2. discriminate.
Qed.
End Pipeline_proofs.

(** Over an emulator that loses a life (3 to 2) while the game goes on, the
    step of the training pipeline during which the life is lost reports
    [done = False]. *)
Lemma training_env_life_lost_not_done :
  life_loss_step = Ok (3, false, 2).
Proof. vm_compute. reflexivity. Qed.

(** With [episode_life=True] the same step reports [done = True]. *)
Example wrap_deepmind_life_lost_done :
  life_loss_step_shaped = Ok (3, true, 2).
Proof. vm_compute. reflexivity. Qed.

(** C2.  The training script calls [wrap_deepmind] with [episode_life=False]
    (lines 479-485): the pipeline it builds has no [EpisodicLifeEnv] stage,
    and every step of it reports the [done] that the environment handed to
    [wrap_deepmind] (the action-repeat stage with its episode statistics)
    reports for that step, whatever the life counter does.  With
    [episode_life=True] every step of the pipeline is a step of that
    environment whose [done] is set as well when the life count after the
    step is below the count remembered before it and above 0, as the comment
    at lines 630-632 takes for granted.  Over an emulator that loses a life
    (3 to 2) while the game goes on, the step of the training pipeline
    during which the life is lost reports [done = False]; with
    [episode_life=True] the same step reports [done = True]. *)
Theorem training_env_has_no_life_shaping
        (cv2_cvtColor_RGB2GRAY : ndarray -> result ndarray)
        (cv2_resize_INTER_AREA : ndarray -> nat -> nat -> result ndarray)
        (astype_float32_div_255 : ndarray -> result ndarray) :
  (forall (emulator : Obj ndarray) (env : Obj Observation),
      training_env cv2_cvtColor_RGB2GRAY cv2_resize_INTER_AREA astype_float32_div_255
                   emulator = Ok env ->
      exists (atari : Obj ndarray)
             (proj : St (cls env) -> St (cls (RecordEpisodeStatistics atari))),
        wrap_atari emulator None = Ok atari /\
        proj (st env) = st (RecordEpisodeStatistics atari) /\
        (forall s, ale_lives (cls env) s
                   = ale_lives (cls (RecordEpisodeStatistics atari)) (proj s)) /\
        (forall a s r s',
            step (cls env) a s = Ok (r, s') ->
            exists r2,
              step (cls (RecordEpisodeStatistics atari)) a (proj s) = Ok (r2, proj s') /\
              done_of r = done_of r2)) /\
  (forall (env0 : Obj ndarray) (clip_rewards frame_stack scale : bool)
          (env : Obj Observation),
      wrap_deepmind cv2_cvtColor_RGB2GRAY cv2_resize_INTER_AREA astype_float32_div_255
                    env0 true clip_rewards frame_stack scale = Ok env ->
      exists proj : St (cls env) -> EpisodicLifeEnv_self * St (cls env0),
        proj (st env) = (mkEpisodicLife 0 true, st env0) /\
        (forall s, ale_lives (cls env) s = ale_lives (cls env0) (snd (proj s))) /\
        (forall a s r s',
            step (cls env) a s = Ok (r, s') ->
            exists ob rw d i,
              step (cls env0) a (snd (proj s)) = Ok ((ob, rw, d, i), snd (proj s')) /\
              lives (fst (proj s')) = ale_lives (cls env0) (snd (proj s')) /\
              done_of r
              = (d || ((ale_lives (cls env0) (snd (proj s')) <? lives (fst (proj s)))
                       && (0 <? ale_lives (cls env0) (snd (proj s'))))))) /\
  life_loss_step = Ok (3, false, 2) /\
  life_loss_step_shaped = Ok (3, true, 2).
Proof.
  split; [|split; [|split]].
  - apply training_env_reports_inner_done.
  - apply wrap_deepmind_life_shaping.
  - exact training_env_life_lost_not_done.
  - exact wrap_deepmind_life_lost_done.
Qed.

Lemma training_env_witness :
  exists (atari : Obj ndarray)
         (proj : St (cls stub_training_env) -> St (cls (RecordEpisodeStatistics atari))),
    wrap_atari (mkObj life_loss_emulator 0%nat) None = Ok atari /\
    proj (st stub_training_env) = st (RecordEpisodeStatistics atari) /\
    (forall s, ale_lives (cls stub_training_env) s
               = ale_lives (cls (RecordEpisodeStatistics atari)) (proj s)) /\
    (forall a s r s',
        step (cls stub_training_env) a s = Ok (r, s') ->
        exists r2,
          step (cls (RecordEpisodeStatistics atari)) a (proj s) = Ok (r2, proj s') /\
          done_of r = done_of r2).
Proof.
  apply (proj1 (training_env_has_no_life_shaping stub_cvtColor stub_resize stub_scale)
               (mkObj life_loss_emulator 0%nat) stub_training_env).
  vm_compute. reflexivity.
Defined.

(* ------------------------------------------------------------------ *)
(** * The training loop: schedule, replay buffer, configurations *)
(* ------------------------------------------------------------------ *)

Lemma py_mod_ok (a b r : Z) : py_mod a b = Ok r -> b <> 0 /\ r = a mod b.
Proof.
  unfold py_mod. destruct (Z.eqb_spec b 0); [discriminate|].
  intros H. inversion H. split; [assumption|reflexivity].
Qed.

Section TrainingLoop_schedule.
Context (args : Args) (Params : Type)
        (network : Params -> list ndarray -> result tensor) (n_actions : nat)
        (Buffer : Type)
        (rb_add : Buffer -> ndarray * Observation * Z * Q * bool -> Buffer)
        (Batch : Type) (rb_sample : Z -> Buffer -> Z -> result Batch)
        (optimize : MultiHeadQNetwork Params -> MultiHeadQNetwork Params ->
                    Batch -> result Params)
        (random_random : Z -> Q) (action_space_sample : Z -> Z)
        (torch_rand : Z -> list Q).

Abbreviation LState := (LoopState Params Buffer).
Abbreviation run_iteration :=
  (iteration args Params network n_actions Buffer rb_add Batch rb_sample optimize
             random_random action_space_sample torch_rand).
Abbreviation run_iterate :=
  (iterate args Params network n_actions Buffer rb_add Batch rb_sample optimize
           random_random action_space_sample torch_rand).

(** One pass through the loop body that returns: the gates it went through
    did not raise, it logged what the configuration schedules for the step
    (and possibly the statistics of an episode), and it stored one transition
    in the replay buffer. *)
Lemma iteration_spec (g : Z) (s s' : LState) :
  run_iteration g s = Ok s' ->
  save_frequency args <> 0 /\
  capture_video args = false /\
  ~ (exploration_fraction args * inject_Z (total_timesteps args) == 0)%Q /\
  (learning_start args < g -> train_frequency args <> 0) /\
  (learning_start args < g -> g mod train_frequency args = 0 ->
   target_network_frequency args <> 0) /\
  filter is_control (events _ _ s')
  = filter is_control (events _ _ s) ++ scheduled args g /\
  exists t, rb _ _ s' = rb_add (rb _ _ s) t.
Proof.
  unfold iteration. unfold and_then at 1.
  destruct (save_phase args Params Buffer g s) as [s1|] eqn:E1; [|discriminate].
  unfold and_then at 1.
  destruct (act_phase _ _ _ _ _ _ _ _ g s1) as [s2|] eqn:E2; [|discriminate].
  intros E3.
  (* save *)
  unfold save_phase, and_then in E1.
  destruct (py_mod g (save_frequency args)) as [r1|] eqn:M1; [|discriminate].
  destruct (py_mod_ok _ _ _ M1) as [Hsf Hr1]. subst r1.
  inversion E1; subst s1; clear E1.
  set (s1 := if g mod save_frequency args =? 0 then emit Params Buffer (Saved g) s else s)
    in *.
  assert (F1 : filter is_control (events _ _ s1)
               = filter is_control (events _ _ s)
                 ++ (if g mod save_frequency args =? 0 then [Saved g] else [])
               /\ rb _ _ s1 = rb _ _ s).
  { unfold s1. destruct (g mod save_frequency args =? 0); cbn.
    - rewrite filter_app. split; reflexivity.
    - rewrite app_nil_r. split; reflexivity. }
  destruct F1 as [F1 R1].
  (* act *)
  unfold act_phase, and_then in E2.
  destruct (decide _ _ _ _ _ _ _ g s1) as [[arr action]|] eqn:DE; [|discriminate].
  destruct (decide_spec _ _ _ _ _ _ _ _ _ _ _ DE)
    as (heads & logits & epsilon & _ & _ & CV & LS & _).
  assert (Hdur : ~ (exploration_fraction args * inject_Z (total_timesteps args) == 0)%Q).
  { intros Z0. unfold linear_schedule in LS. apply Qeq_bool_iff in Z0.
    rewrite Z0 in LS. discriminate. }
  destruct (obj_step (env Params Buffer s1) action)
    as [[[[[next_obs reward] done] info] env1]|]; [|discriminate].
  assert (F2 : filter is_control (events _ _ s2) = filter is_control (events _ _ s1)
               /\ rb _ _ s2 = rb_add (rb _ _ s1) (arr, next_obs, action, reward, done)).
  { assert (X : filter is_control
                  (if has_key "episode.r" info
                   then events _ _ s1 ++ [EpisodeLogged g] else events _ _ s1)
                = filter is_control (events _ _ s1)).
    { destruct (has_key "episode.r" info); [|reflexivity].
      rewrite filter_app. cbn. apply app_nil_r. }
    destruct done.
    - destruct (obj_reset env1) as [[obs1 env2]|]; [|discriminate].
      inversion E2; subst s2. cbn. split; [exact X|reflexivity].
    - inversion E2; subst s2. cbn. split; [exact X|reflexivity]. }
  destruct F2 as [F2 R2]. clear E2.
  (* learn *)
  unfold learn_phase in E3. unfold and_then at 1 in E3.
  destruct (learning_due args g) as [due|] eqn:D; [|discriminate].
  pose proof (learning_due_ok args g due D) as Hdue.
  assert (Htf : learning_start args < g -> train_frequency args <> 0).
  { intros Hg. unfold learning_due in D.
    destruct (Z.ltb_spec (learning_start args) g); [|lia].
    unfold and_then in D.
    destruct (py_mod g (train_frequency args)) as [r|] eqn:M; [|discriminate].
    apply (py_mod_ok _ _ _ M). }
  split; [exact Hsf|]. split; [exact CV|]. split; [exact Hdur|]. split; [exact Htf|].
  unfold scheduled. rewrite <- Hdue.
  destruct due.
  - unfold and_then in E3.
    destruct (rb_sample g (rb Params Buffer s2) (batch_size args)) as [data|];
      [|discriminate].
    destruct (optimize _ _ data) as [p|]; [|discriminate].
    destruct (py_mod g (target_network_frequency args)) as [r|] eqn:M3; [|discriminate].
    destruct (py_mod_ok _ _ _ M3) as [Htn Hr]. subst r.
    split; [intros _ _; exact Htn|].
    destruct (g mod target_network_frequency args =? 0);
      inversion E3; subst s'; cbn [events rb emit];
      repeat rewrite filter_app; cbn [filter is_control];
      rewrite F2, F1, R2, R1; repeat rewrite <- app_assoc;
      (split; [reflexivity|eexists; reflexivity]).
  - inversion E3; subst s'.
    split.
    { intros Hg Hm. exfalso.
      destruct (Z.ltb_spec (learning_start args) g); [|lia].
      rewrite Hm in Hdue. cbn in Hdue. discriminate. }
    rewrite F2, F1, R2, R1, app_nil_r. split; [reflexivity|eexists; reflexivity].
Qed.

Lemma iterate_spec :
  forall (steps : list Z) (s s' : LState),
    run_iterate steps s = Ok s' ->
    filter is_control (events _ _ s')
    = filter is_control (events _ _ s) ++ flat_map (scheduled args) steps /\
    (exists ts, length ts = length steps /\ rb _ _ s' = fold_left rb_add ts (rb _ _ s)) /\
    (forall g, In g steps -> exists s1 s2, run_iteration g s1 = Ok s2).
Proof.
  induction steps as [|g rest IH]; intros s s' H; cbn [iterate] in H.
  - inversion H; subst. cbn. rewrite app_nil_r. split; [reflexivity|]. split.
    + exists []. split; reflexivity.
    + intros g [].
  - unfold and_then at 1 in H.
    destruct (run_iteration g s) as [s1|] eqn:E; [|discriminate].
    destruct (IH _ _ H) as (F & (ts & Lts & R) & I).
    destruct (iteration_spec _ _ _ E) as (_ & _ & _ & _ & _ & F1 & t & R1).
    split; [|split].
    + rewrite F, F1. cbn [flat_map]. rewrite <- app_assoc. reflexivity.
    + exists (t :: ts). split; [cbn; lia|]. cbn. rewrite <- R1. exact R.
    + intros g' [Hg|Hg].
      * subst g'. exists s, s1. exact E.
      * apply I. exact Hg.
Qed.
End TrainingLoop_schedule.

Lemma in_range (n g : Z) : In g (range n) <-> 0 <= g < n.
Proof.
  unfold range. rewrite in_map_iff. split.
  - intros (i & E & Hi). apply in_seq in Hi. lia.
  - intros H. exists (Z.to_nat g). split; [lia|]. apply in_seq. lia.
Qed.

Lemma range_length (n : Z) : length (range n) = Z.to_nat n.
Proof. unfold range. rewrite length_map, length_seq. reflexivity. Qed.

Section TrainingLoop_theorems.
Context (args : Args) (Params : Type)
        (network : Params -> list ndarray -> result tensor) (n_actions : nat)
        (Buffer : Type)
        (rb_add : Buffer -> ndarray * Observation * Z * Q * bool -> Buffer)
        (Batch : Type) (rb_sample : Z -> Buffer -> Z -> result Batch)
        (optimize : MultiHeadQNetwork Params -> MultiHeadQNetwork Params ->
                    Batch -> result Params)
        (random_random : Z -> Q) (action_space_sample : Z -> Z)
        (torch_rand : Z -> list Q)
        (env0 : Obj Observation) (rb0 : Buffer)
        (q0 target0 : MultiHeadQNetwork Params).

Abbreviation run_loop :=
  (training_loop args Params network n_actions Buffer rb_add Batch rb_sample optimize
                 random_random action_space_sample torch_rand env0 rb0 q0 target0).

(** The checkpoints, learning steps and target synchronisations of a run that
    completes are those the configuration schedules, in the order of the
    global steps: they do not depend on the environment, the network or the
    random draws.  In particular a checkpoint is written at global step 0,
    and the target network is synchronised only at learning steps. *)
Theorem training_loop_schedule (s : LoopState Params Buffer) :
  run_loop = Ok s ->
  filter is_control (events _ _ s)
  = flat_map (scheduled args) (range (total_timesteps args)).
Proof.
  intros H. unfold training_loop, and_then in H.
  destruct (obj_reset env0) as [[obs0 env1]|]; [|discriminate].
  destruct (iterate_spec _ _ _ _ _ _ _ _ _ _ _ _ _ _ _ H) as (F & _ & _).
  exact F.
Qed.

(** A run that completes has stored exactly one transition per global step
    in the replay buffer: [total_timesteps] of them. *)
Theorem training_loop_replay (s : LoopState Params Buffer) :
  run_loop = Ok s ->
  exists ts,
    length ts = Z.to_nat (total_timesteps args) /\
    rb _ _ s = fold_left rb_add ts rb0.
Proof.
  intros H. unfold training_loop, and_then in H.
  destruct (obj_reset env0) as [[obs0 env1]|]; [|discriminate].
  destruct (iterate_spec _ _ _ _ _ _ _ _ _ _ _ _ _ _ _ H) as (_ & (ts & L & R) & _).
  exists ts. split; [rewrite L; apply range_length|exact R].
Qed.

(** The configurations with which a run of at least one step can complete:
    [save_frequency] is not 0 (line 601 divides by it at every step),
    [capture_video] is off (line 612 calls a method no wrapper of the
    pipeline has), the exploration span is not 0 (the schedule divides by
    it), [train_frequency] is not 0 if some step lies past [learning_start],
    and [target_network_frequency] is not 0 if a learning step is made. *)
Theorem training_loop_completes_only_if (s : LoopState Params Buffer) :
  run_loop = Ok s ->
  0 < total_timesteps args ->
  save_frequency args <> 0 /\
  capture_video args = false /\
  ~ (exploration_fraction args * inject_Z (total_timesteps args) == 0)%Q /\
  (learning_start args < total_timesteps args - 1 -> train_frequency args <> 0) /\
  (forall g, 0 <= g < total_timesteps args -> learning_start args < g ->
             g mod train_frequency args = 0 -> target_network_frequency args <> 0).
Proof.
  intros H Ht. unfold training_loop, and_then in H.
  destruct (obj_reset env0) as [[obs0 env1]|]; [|discriminate].
  destruct (iterate_spec _ _ _ _ _ _ _ _ _ _ _ _ _ _ _ H) as (_ & _ & I).
  assert (J : forall g, 0 <= g < total_timesteps args ->
                exists s1 s2,
                  iteration args Params network n_actions Buffer rb_add Batch rb_sample
                            optimize random_random action_space_sample torch_rand g s1
                  = Ok s2).
  { intros g Hg. apply I. apply in_range. exact Hg. }
  destruct (J 0 ltac:(lia)) as (s1 & s2 & E0).
  destruct (iteration_spec _ _ _ _ _ _ _ _ _ _ _ _ _ _ _ E0) as (A & B & C & _).
  split; [exact A|]. split; [exact B|]. split; [exact C|]. split.
  - intros Hl. destruct (J (total_timesteps args - 1) ltac:(lia)) as (s3 & s4 & E1).
    destruct (iteration_spec _ _ _ _ _ _ _ _ _ _ _ _ _ _ _ E1) as (_ & _ & _ & D & _).
    apply D. exact Hl.
  - intros g Hg Hl Hm. destruct (J g Hg) as (s3 & s4 & E1).
    destruct (iteration_spec _ _ _ _ _ _ _ _ _ _ _ _ _ _ _ E1) as (_ & _ & _ & _ & D & _).
    apply D; assumption.
Qed.
End TrainingLoop_theorems.

Lemma training_loop_schedule_witness :
  filter is_control (events _ _ stub_final)
  = flat_map (scheduled stub_args) (range (total_timesteps stub_args)).
Proof.
  apply (training_loop_schedule stub_args unit stub_network 3
           (list (ndarray * Observation * Z * Q * bool)) stub_rb_add
           (list (ndarray * Observation * Z * Q * bool)) stub_rb_sample stub_optimize
           (fun g => if Z.even g then 0%Q else 1%Q) (fun g => g mod 3)
           (fun _ => [1 # 2; 1 # 4]%Q)
           (present Array (mkObj marker_emulator 0%nat)) []
           (stub_net (Some (random_stochastic_matrix [1 # 2; 1 # 2]%Q)))
           (stub_net (Some (random_stochastic_matrix [1 # 2; 1 # 2]%Q)))
           stub_final).
  vm_compute. reflexivity.
Defined.

Lemma training_loop_replay_witness :
  exists ts,
    length ts = Z.to_nat (total_timesteps stub_args) /\
    rb _ _ stub_final = fold_left stub_rb_add ts [].
Proof.
  apply (training_loop_replay stub_args unit stub_network 3
           (list (ndarray * Observation * Z * Q * bool)) stub_rb_add
           (list (ndarray * Observation * Z * Q * bool)) stub_rb_sample stub_optimize
           (fun g => if Z.even g then 0%Q else 1%Q) (fun g => g mod 3)
           (fun _ => [1 # 2; 1 # 4]%Q)
           (present Array (mkObj marker_emulator 0%nat)) []
           (stub_net (Some (random_stochastic_matrix [1 # 2; 1 # 2]%Q)))
           (stub_net (Some (random_stochastic_matrix [1 # 2; 1 # 2]%Q)))
           stub_final).
  vm_compute. reflexivity.
Defined.

Lemma training_loop_completes_only_if_witness :
  save_frequency stub_args <> 0 /\
  capture_video stub_args = false /\
  ~ (exploration_fraction stub_args * inject_Z (total_timesteps stub_args) == 0)%Q /\
  (learning_start stub_args < total_timesteps stub_args - 1 ->
   train_frequency stub_args <> 0) /\
  (forall g, 0 <= g < total_timesteps stub_args -> learning_start stub_args < g ->
             g mod train_frequency stub_args = 0 ->
             target_network_frequency stub_args <> 0).
Proof.
  apply (training_loop_completes_only_if stub_args unit stub_network 3
           (list (ndarray * Observation * Z * Q * bool)) stub_rb_add
           (list (ndarray * Observation * Z * Q * bool)) stub_rb_sample stub_optimize
           (fun g => if Z.even g then 0%Q else 1%Q) (fun g => g mod 3)
           (fun _ => [1 # 2; 1 # 4]%Q)
           (present Array (mkObj marker_emulator 0%nat)) []
           (stub_net (Some (random_stochastic_matrix [1 # 2; 1 # 2]%Q)))
           (stub_net (Some (random_stochastic_matrix [1 # 2; 1 # 2]%Q)))
           stub_final).
  - vm_compute. reflexivity.
  - cbn. lia.
Defined.

(* ------------------------------------------------------------------ *)
(** * EpisodicLifeEnv: what a step and a reset leave behind *)
(* ------------------------------------------------------------------ *)

(** A step of [EpisodicLifeEnv] over a step of the wrapped environment:
    observation, reward and info are handed on; [done] is set exactly when
    the wrapped step was done or a life was lost with lives remaining;
    afterwards [lives] is the emulator's life count and [was_real_done] is
    the [done] of the wrapped step. *)
Theorem EpisodicLifeEnv_step_outcome {Ob : Type} (env : Env Ob) (a : Z)
        (w : EpisodicLifeEnv_self) (s s' : St env)
        (ob : Ob) (r : Q) (d : bool) (i : Info) :
  step env a s = Ok ((ob, r, d, i), s') ->
  exists d' w',
    step (EpisodicLifeEnv_cls env) a (w, s) = Ok ((ob, r, d', i), (w', s')) /\
    lives w' = ale_lives env s' /\
    was_real_done w' = d /\
    (d' = true <-> d = true \/ (ale_lives env s' < lives w /\ 0 < ale_lives env s')).
Proof.
  intros H.
  exists (if (ale_lives env s' <? lives w) && (0 <? ale_lives env s') then true else d),
         (mkEpisodicLife (ale_lives env s') d).
  split; [apply (EpisodicLifeEnv_step_spec env a w s s' ob r d i H)|].
  split; [reflexivity|]. split; [reflexivity|].
  destruct (Z.ltb_spec (ale_lives env s') (lives w));
    destruct (Z.ltb_spec 0 (ale_lives env s')); cbn;
    destruct d; intuition (try congruence; try lia).
Qed.

Lemma EpisodicLifeEnv_step_outcome_witness :
  exists d' w',
    step (EpisodicLifeEnv_cls life_emulator) 0 (mkEpisodicLife 3 false, 2%nat)
    = Ok ((marker 3, 0%Q, d', [("ale.lives"%string, inject_Z 2)]), (w', 3%nat)) /\
    lives w' = ale_lives life_emulator 3%nat /\
    was_real_done w' = false /\
    (d' = true <-> false = true \/
                   (ale_lives life_emulator 3%nat < lives (mkEpisodicLife 3 false) /\
                    0 < ale_lives life_emulator 3%nat)).
Proof.
  apply (EpisodicLifeEnv_step_outcome life_emulator 0 (mkEpisodicLife 3 false)
           2%nat 3%nat (marker 3) 0%Q false [("ale.lives"%string, inject_Z 2)]).
  reflexivity.
Defined.

(** [reset] never touches [was_real_done]: it only reads the life count
    again.  So when the no-op step it takes after a lost life ends the game,
    the wrapper does not notice, and the next [reset] steps the finished game
    once more instead of resetting it. *)
Theorem EpisodicLifeEnv_reset_keeps_was_real_done {Ob : Type} (env : Env Ob)
        (w w' : EpisodicLifeEnv_self) (log log' : list call) (s s' : St env) (ob : Ob) :
  reset (EpisodicLifeEnv_cls (Recorder env)) (w, (log, s)) = Ok (ob, (w', (log', s'))) ->
  was_real_done w' = was_real_done w /\
  lives w' = ale_lives env s' /\
  log' = log ++ [if was_real_done w then CallReset else CallStep 0].
Proof.
  cbn [reset EpisodicLifeEnv_cls]. unfold EpisodicLifeEnv_reset.
  destruct w as [l [|]]; run_monad.
  - destruct (reset env s) as [[o s1]|]; [|discriminate].
    intros H. inversion H; subst. repeat split; reflexivity.
  - destruct (step env 0 s) as [[[[[o r] d] i] s1]|]; [|discriminate].
    cbn. intros H. inversion H; subst. repeat split; reflexivity.
Qed.

Lemma EpisodicLifeEnv_reset_keeps_witness :
  was_real_done (mkEpisodicLife 0 false) = was_real_done (mkEpisodicLife 1 false) /\
  lives (mkEpisodicLife 0 false) = ale_lives life_emulator 6%nat /\
  [CallStep 3; CallStep 0] =
    [CallStep 3] ++ [if was_real_done (mkEpisodicLife 1 false) then CallReset else CallStep 0].
Proof.
  apply (EpisodicLifeEnv_reset_keeps_was_real_done life_emulator
           (mkEpisodicLife 1 false) (mkEpisodicLife 0 false)
           [CallStep 3] [CallStep 3; CallStep 0] 5%nat 6%nat (marker 6)).
  reflexivity.
Defined.

(* ------------------------------------------------------------------ *)
(** * MaxAndSkipEnv: the edges of the repeat window *)
(* ------------------------------------------------------------------ *)

(** With [_skip <= 0] the loop body never runs: [info] is not bound when the
    step returns it, and the step raises before the wrapped environment is
    touched. *)
Theorem MaxAndSkipEnv_step_no_ticks (env : Env ndarray) (action : Z)
        (w : MaxAndSkipEnv_self) (s : St env) :
  _skip w <= 0 ->
  step (MaxAndSkipEnv_cls env) action (w, s) = Raise (UnboundLocalError "info").
Proof.
  intros H. cbn [step MaxAndSkipEnv_cls]. unfold MaxAndSkipEnv_step.
  unfold bind at 1, self at 1. cbn [fst snd]. unfold range.
  replace (Z.to_nat (_skip w)) with 0%nat by lia. reflexivity.
Qed.

Lemma MaxAndSkipEnv_step_no_ticks_witness :
  step (MaxAndSkipEnv_cls (flicker_emulator 9)) 1
       (mkMaxAndSkip (np_zeros [2%nat], np_zeros [2%nat]) 0, 0%nat)
  = Raise (UnboundLocalError "info").
Proof.
  apply (MaxAndSkipEnv_step_no_ticks (flicker_emulator 9) 1
           (mkMaxAndSkip (np_zeros [2%nat], np_zeros [2%nat]) 0) 0%nat).
  cbn. lia.
Defined.

(** When the first tick of a window of at least three is done, nothing is
    written into the buffer: the frame returned is the maximum of the two
    frames buffered by an earlier step (or of the zeros the buffer was made
    with), not the frame of the tick; the reward is that of the one tick. *)
Theorem MaxAndSkipEnv_step_first_tick_done (env : Env ndarray) (action : Z)
        (w : MaxAndSkipEnv_self) (s s' : St env)
        (ob : ndarray) (r : Q) (i : Info) :
  3 <= _skip w ->
  step env action s = Ok ((ob, r, true, i), s') ->
  step (MaxAndSkipEnv_cls env) action (w, s)
  = Ok ((np_maximum (fst (_obs_buffer w)) (snd (_obs_buffer w)), (0 + r)%Q, true, i),
        (w, s')).
Proof.
  intros Hk H. cbn [step MaxAndSkipEnv_cls]. unfold MaxAndSkipEnv_step.
  unfold bind at 1, self at 1. cbn [fst snd]. unfold range.
  destruct (Z.to_nat (_skip w)) as [|n] eqn:En; [lia|].
  cbn [seq map MaxAndSkipEnv_loop].
  unfold bind, inner, self. cbn [fst snd]. rewrite H. cbn [fst snd Z.of_nat].
  destruct (Z.eqb_spec 0 (_skip w - 2)); [lia|].
  unfold ret at 1. cbn [fst snd].
  destruct (Z.eqb_spec 0 (_skip w - 1)); [lia|].
  unfold ret. cbn. reflexivity.
Qed.

Lemma MaxAndSkipEnv_step_first_tick_done_witness :
  step (MaxAndSkipEnv_cls (flicker_emulator 0)) 1
       (mkMaxAndSkip (mkArr [2%nat] [7; 1], mkArr [2%nat] [2; 9]) 4, 0%nat)
  = Ok ((np_maximum (mkArr [2%nat] [7; 1]) (mkArr [2%nat] [2; 9]), (0 + 1)%Q, true,
         [("ale.lives"%string, inject_Z 3)]),
        (mkMaxAndSkip (mkArr [2%nat] [7; 1], mkArr [2%nat] [2; 9]) 4, 1%nat)).
Proof.
  apply (MaxAndSkipEnv_step_first_tick_done (flicker_emulator 0) 1
           (mkMaxAndSkip (mkArr [2%nat] [7; 1], mkArr [2%nat] [2; 9]) 4) 0%nat 1%nat
           (mkArr [2%nat] [0; 50]) 1%Q [("ale.lives"%string, inject_Z 3)]).
  - cbn. lia.
  - reflexivity.
Defined.

(* ------------------------------------------------------------------ *)
(** * FrameStack and LazyFrames: the edges *)
(* ------------------------------------------------------------------ *)

(** A step on a [FrameStack] whose window would still hold fewer than [k]
    frames after the append (no reset yet, [k >= 2]) first steps the wrapped
    environment: if that step raises, its exception is what the caller sees;
    if it returns, [_get_ob] raises [AssertionError]. *)
Theorem FrameStack_step_before_reset (env : Env ndarray) (sh : list nat) (a : Z)
        (w : FrameStack_self) (s : St env) :
  Z.of_nat (length (frames w)) + 1 < k w ->
  match step env a s with
  | Ok _ => step (FrameStack_cls env sh) a (w, s) = Raise AssertionError
  | Raise e => step (FrameStack_cls env sh) a (w, s) = Raise e
  end.
Proof.
  intros Hk.
  destruct (step env a s) as [[r s']|e] eqn:H;
    cbn [step FrameStack_cls]; unfold FrameStack_step;
    unfold bind at 1, inner at 1; cbn [fst snd]; rewrite H; [|reflexivity].
  destruct r as [[[ob rw] d] i].
  unfold FrameStack_append, FrameStack_get_ob. run_monad.
  rewrite deque_append_lastn by lia. rewrite lastn_length, length_app. cbn [length].
  destruct (Z.eqb_spec (Z.of_nat (Nat.min (Z.to_nat (k w)) (length (frames w) + 1))) (k w));
    [lia|reflexivity].
Qed.

Lemma FrameStack_step_before_reset_witness :
  step (FrameStack_cls marker_emulator [4%nat; 1%nat; 1%nat]) 0 (mkFrameStack 4 [], 0%nat)
  = Raise AssertionError /\
  step (FrameStack_cls broken_emulator [4%nat; 1%nat; 1%nat]) 0 (mkFrameStack 4 [], 0%nat)
  = Raise (RuntimeError "emulator").
Proof.
  split.
  - apply (FrameStack_step_before_reset marker_emulator [4%nat; 1%nat; 1%nat] 0
             (mkFrameStack 4 []) 0%nat).
    cbn. lia.
  - apply (FrameStack_step_before_reset broken_emulator [4%nat; 1%nat; 1%nat] 0
             (mkFrameStack 4 []) 0%nat).
    cbn. lia.
Defined.

Lemma concat_uniform_nth (n : nat) (d : list Z) :
  forall (ls : list (list Z)) (i : nat),
    Forall (fun l => length l = n) ls -> (i < length ls)%nat ->
    firstn n (skipn (i * n) (concat ls)) = nth i ls d.
Proof.
  induction ls as [|l ls IH]; intros i Hall Hi; [cbn in Hi; lia|].
  inversion Hall as [|? ? Hl Hls]; subst.
  destruct i as [|i].
  - cbn. rewrite firstn_app, Nat.sub_diag. cbn. rewrite app_nil_r.
    apply firstn_all.
  - cbn [concat nth]. rewrite skipn_app.
    rewrite skipn_all2 by (cbn; lia). cbn [app].
    replace (S i * length l - length l)%nat with (i * length l)%nat by (cbn; lia).
    apply IH; [exact Hls|cbn in Hi; lia].
Qed.

(** Stacking and indexing go back and forth: for a window of [n >= 1] frames
    of shape (1, ...) (what the pipeline stacks), the materialised
    [LazyFrames] has length [n], and its entry [i] (or [i - n], counting from
    the end) is frame [i] of the window without its first axis.  The array is
    built at the first access and kept. *)
Theorem LazyFrames_getitem_frame (fs : list ndarray) (tl : list nat) (i : nat) :
  Forall (fun f => shape f = 1%nat :: tl /\ well_formed f) fs ->
  (i < length fs)%nat ->
  exists out,
    LazyFrames_force (LazyFrames_init fs) = Ok (out, mkLazyFrames None (Some out)) /\
    LazyFrames_force (mkLazyFrames None (Some out)) = Ok (out, mkLazyFrames None (Some out)) /\
    LazyFrames_len (LazyFrames_init fs) = Ok (length fs, mkLazyFrames None (Some out)) /\
    LazyFrames_getitem (Z.of_nat i) (LazyFrames_init fs)
    = Ok (mkArr tl (data (nth i fs (mkArr [] []))), mkLazyFrames None (Some out)) /\
    LazyFrames_getitem (Z.of_nat i - Z.of_nat (length fs)) (LazyFrames_init fs)
    = Ok (mkArr tl (data (nth i fs (mkArr [] []))), mkLazyFrames None (Some out)).
Proof.
  intros Hall Hi.
  assert (Hsh : Forall (fun f => shape f = 1%nat :: tl) fs).
  { eapply Forall_impl; [|exact Hall]. intros f [H _]. exact H. }
  assert (Hlen : Forall (fun l => length l = size_of tl) (map data fs)).
  { apply Forall_map. eapply Forall_impl; [|exact Hall].
    intros f [H W]. unfold well_formed in W. rewrite W, H.
    unfold size_of. cbn. lia. }
  assert (Hne : fs <> []) by (intros X; subst; cbn in Hi; lia).
  set (out := mkArr ((length fs * 1)%nat :: tl) (concat (map data fs))).
  assert (F : LazyFrames_force (LazyFrames_init fs) = Ok (out, mkLazyFrames None (Some out))).
  { unfold LazyFrames_force, LazyFrames_init. cbn [_out _frames].
    rewrite (np_concatenate_data 1 tl fs Hne Hsh). reflexivity. }
  assert (G : forall j : Z,
             j = Z.of_nat i ->
             firstn (size_of tl) (skipn (Z.to_nat j * size_of tl) (concat (map data fs)))
             = data (nth i fs (mkArr [] []))).
  { intros j Hj. subst j. rewrite Nat2Z.id.
    rewrite (concat_uniform_nth (size_of tl) (data (mkArr [] [])) (map data fs) i Hlen)
      by (rewrite length_map; exact Hi).
    apply map_nth. }
  exists out. split; [exact F|]. split; [reflexivity|]. split; [|split].
  - unfold LazyFrames_len, bind. rewrite F. cbn. rewrite Nat.mul_1_r. reflexivity.
  - unfold LazyFrames_getitem, bind. rewrite F. unfold lift, np_getitem. cbn [shape out data].
    rewrite Nat.mul_1_r.
    destruct (Z.ltb_spec (Z.of_nat i) 0); [lia|].
    destruct (Z.leb_spec 0 (Z.of_nat i)); [|lia].
    destruct (Z.ltb_spec (Z.of_nat i) (Z.of_nat (length fs))); [|lia].
    cbn [andb]. rewrite (G _ eq_refl). reflexivity.
  - unfold LazyFrames_getitem, bind. rewrite F. unfold lift, np_getitem. cbn [shape out data].
    rewrite Nat.mul_1_r.
    destruct (Z.ltb_spec (Z.of_nat i - Z.of_nat (length fs)) 0); [|lia].
    replace (Z.of_nat i - Z.of_nat (length fs) + Z.of_nat (length fs)) with (Z.of_nat i) by lia.
    destruct (Z.leb_spec 0 (Z.of_nat i)); [|lia].
    destruct (Z.ltb_spec (Z.of_nat i) (Z.of_nat (length fs))); [|lia].
    cbn [andb]. rewrite (G _ eq_refl). reflexivity.
Qed.

Lemma LazyFrames_getitem_frame_witness :
  exists out,
    LazyFrames_force (LazyFrames_init [marker 3; marker 4; marker 5; marker 6])
    = Ok (out, mkLazyFrames None (Some out)) /\
    LazyFrames_force (mkLazyFrames None (Some out)) = Ok (out, mkLazyFrames None (Some out)) /\
    LazyFrames_len (LazyFrames_init [marker 3; marker 4; marker 5; marker 6])
    = Ok (length [marker 3; marker 4; marker 5; marker 6], mkLazyFrames None (Some out)) /\
    LazyFrames_getitem (Z.of_nat 2) (LazyFrames_init [marker 3; marker 4; marker 5; marker 6])
    = Ok (mkArr [1%nat; 1%nat]
                (data (nth 2 [marker 3; marker 4; marker 5; marker 6] (mkArr [] []))),
          mkLazyFrames None (Some out)) /\
    LazyFrames_getitem (Z.of_nat 2 - Z.of_nat (length [marker 3; marker 4; marker 5; marker 6]))
                       (LazyFrames_init [marker 3; marker 4; marker 5; marker 6])
    = Ok (mkArr [1%nat; 1%nat]
                (data (nth 2 [marker 3; marker 4; marker 5; marker 6] (mkArr [] []))),
          mkLazyFrames None (Some out)).
Proof.
  apply (LazyFrames_getitem_frame [marker 3; marker 4; marker 5; marker 6]
           [1%nat; 1%nat] 2%nat).
  - repeat constructor.
  - cbn. lia.
Defined.

(** A window of no frames ([k = 0]) cannot be materialised, and indexing
    past either end of a materialised window is an [IndexError]. *)
Example LazyFrames_edges :
  LazyFrames_force (LazyFrames_init [])
  = Raise (ValueError "need at least one array to concatenate") /\
  LazyFrames_getitem 2 (LazyFrames_init [marker 3; marker 4]) = Raise IndexError /\
  LazyFrames_getitem (-3) (LazyFrames_init [marker 3; marker 4]) = Raise IndexError.
Proof. repeat split; reflexivity. Qed.

(* ------------------------------------------------------------------ *)
(** * ImageToPyTorch: the transposition *)
(* ------------------------------------------------------------------ *)

Lemma flat_map_seq_length {A : Type} (f : nat -> list A) (m : nat) :
  (forall x, length (f x) = m) ->
  forall n s, length (flat_map f (seq s n)) = (n * m)%nat.
Proof.
  intros Hf. induction n as [|n IH]; intros s; [reflexivity|].
  cbn [seq flat_map]. rewrite length_app, Hf, IH. cbn. lia.
Qed.

Lemma flat_map_seq_nth {A : Type} (f : nat -> list A) (m : nat) (d : A) :
  (forall x, length (f x) = m) ->
  forall n s i j,
    (i < n)%nat -> (j < m)%nat ->
    nth (i * m + j) (flat_map f (seq s n)) d = nth j (f (s + i)%nat) d.
Proof.
  intros Hf. induction n as [|n IH]; intros s i j Hi Hj; [lia|].
  cbn [seq flat_map]. destruct i as [|i].
  - cbn [Nat.mul Nat.add]. rewrite app_nth1 by (rewrite Hf; exact Hj).
    rewrite Nat.add_0_r. reflexivity.
  - rewrite app_nth2 by (rewrite Hf; cbn; lia). rewrite Hf.
    replace (S i * m + j - m)%nat with (i * m + j)%nat by (cbn; lia).
    rewrite IH by lia. f_equal. f_equal. lia.
Qed.

(** [ImageToPyTorch.observation] turns a well-formed (h, w, c) array into a
    well-formed (c, h, w) array whose sample at (ci, hi, wi) is the sample of
    the input at (hi, wi, ci); an array that does not have three dimensions
    is refused. *)
Theorem np_transpose_201_entries (a : ndarray) (h w c : nat) :
  shape a = [h; w; c] ->
  well_formed a ->
  exists out,
    np_transpose_201 a = Ok out /\
    shape out = [c; h; w] /\
    well_formed out /\
    forall ci hi wi,
      (ci < c)%nat -> (hi < h)%nat -> (wi < w)%nat ->
      nth ((ci * h + hi) * w + wi) (data out) 0
      = nth ((hi * w + wi) * c + ci) (data a) 0.
Proof.
  intros Hs Hw. unfold np_transpose_201. rewrite Hs.
  set (row := fun ci hi => map (fun wi => nth ((hi * w + wi) * c + ci)%nat (data a) 0)
                               (seq 0 w)).
  set (plane := fun ci => flat_map (row ci) (seq 0 h)).
  assert (Lrow : forall ci hi, length (row ci hi) = w).
  { intros. unfold row. rewrite length_map, length_seq. reflexivity. }
  assert (Lplane : forall ci, length (plane ci) = (h * w)%nat).
  { intros. unfold plane. apply flat_map_seq_length. apply Lrow. }
  exists (mkArr [c; h; w] (flat_map plane (seq 0 c))).
  split; [reflexivity|]. split; [reflexivity|].
  cbn [data shape].
  split.
  - unfold well_formed. cbn [data shape size_of fold_right].
    rewrite (flat_map_seq_length plane (h * w) Lplane). lia.
  - intros ci hi wi Hc Hh Hwi.
    replace ((ci * h + hi) * w + wi)%nat with (ci * (h * w) + (hi * w + wi))%nat by lia.
    rewrite (flat_map_seq_nth plane (h * w) 0 Lplane c 0 ci (hi * w + wi)) by nia.
    cbn [Nat.add]. unfold plane.
    rewrite (flat_map_seq_nth (row ci) w 0 (Lrow ci) h 0 hi wi) by lia.
    cbn [Nat.add]. unfold row.
    rewrite (nth_indep _ 0 ((fun wi0 => nth ((hi * w + wi0) * c + ci) (data a) 0) 0%nat))
      by (rewrite length_map, length_seq; exact Hwi).
    rewrite (map_nth (fun wi0 => nth ((hi * w + wi0) * c + ci) (data a) 0) (seq 0 w) 0%nat wi).
    rewrite seq_nth by exact Hwi. reflexivity.
Qed.

Lemma np_transpose_201_witness :
  exists out,
    np_transpose_201 (mkArr [1; 2; 3]%nat [10; 11; 12; 20; 21; 22]) = Ok out /\
    shape out = [3; 1; 2]%nat /\
    well_formed out /\
    forall ci hi wi,
      (ci < 3)%nat -> (hi < 1)%nat -> (wi < 2)%nat ->
      nth ((ci * 1 + hi) * 2 + wi) (data out) 0
      = nth ((hi * 2 + wi) * 3 + ci) (data (mkArr [1; 2; 3]%nat [10; 11; 12; 20; 21; 22])) 0.
Proof.
  apply (np_transpose_201_entries (mkArr [1; 2; 3]%nat [10; 11; 12; 20; 21; 22])
           1%nat 2%nat 3%nat).
  - reflexivity.
  - reflexivity.
Defined.

Example np_transpose_201_run :
  np_transpose_201 (mkArr [1; 2; 3]%nat [10; 11; 12; 20; 21; 22])
  = Ok (mkArr [3; 1; 2]%nat [10; 20; 11; 21; 12; 22]) /\
  np_transpose_201 (mkArr [2; 3]%nat [1; 2; 3; 4; 5; 6])
  = Raise (ValueError "axes don't match array").
Proof. split; reflexivity. Qed.

(* ------------------------------------------------------------------ *)
(** * NoopResetEnv *)
(* ------------------------------------------------------------------ *)

Lemma NoopResetEnv_loop_calls {Ob : Type} (env : Env Ob) (a : Z) :
  total env ->
  forall (n : nat) (log : list call) (s : St env) (obs0 : option Ob),
  exists rs obs' s',
    length rs = n /\
    noop_path env a s rs obs0 obs' s' /\
    NoopResetEnv_loop (Recorder env) a n obs0 (log, s)
    = Ok (obs', (log ++ noop_calls a (map done_of rs), s')) /\
    ((0 < n)%nat -> exists o, obs' = Some o).
Proof.
  intros T. induction n as [|n IH]; intros log s obs0.
  - exists [], obs0, s. cbn. rewrite app_nil_r. repeat split; auto. lia.
  - destruct (total_step env a s T) as (ob & r & d & i & s1 & E).
    cbn [NoopResetEnv_loop]. run_monad. rewrite E. run_monad.
    destruct d.
    + destruct (total_reset env s1 T) as (ob1 & s2 & E1). run_monad. rewrite E1. run_monad.
      destruct (IH ((log ++ [CallStep a]) ++ [CallReset]) s2 (Some ob1))
        as (rs & obs' & s' & L & Pa & R & P).
      exists ((ob, r, true, i) :: rs), obs', s'. split; [cbn; lia|]. split; [|split].
      * cbn [noop_path]. exists s1, ob1, s2. split; [exact E|]. split; [exact E1|exact Pa].
      * rewrite R. cbn. repeat rewrite <- app_assoc. reflexivity.
      * intros _. destruct n as [|n'].
        -- cbn in R. unfold ret in R. inversion R. eauto.
        -- apply P. lia.
    + destruct (IH (log ++ [CallStep a]) s1 (Some ob))
        as (rs & obs' & s' & L & Pa & R & P).
      exists ((ob, r, false, i) :: rs), obs', s'. split; [cbn; lia|]. split; [|split].
      * cbn [noop_path]. exists s1, ob, s1. split; [exact E|].
        split; [split; reflexivity|exact Pa].
      * rewrite R. cbn. repeat rewrite <- app_assoc. reflexivity.
      * intros _. destruct n as [|n'].
        -- cbn in R. unfold ret in R. inversion R. eauto.
        -- apply P. lia.
Qed.

(** [NoopResetEnv.reset] over an environment that does not raise: it resets
    the environment, draws the number of no-ops [n] from
    [np_random.randint(1, noop_max + 1)] (so [n >= 1]), and takes exactly [n]
    steps with the no-op action, resetting the environment again after each
    step that returned [done]; it returns the observation of the last step,
    or of the reset that followed it, and its own attributes are unchanged.
    The environment receives these calls and no others. *)
Theorem NoopResetEnv_reset_noops {Ob : Type} (env : Env Ob) (w : NoopResetEnv_self)
        (log : list call) (s s1 s2 : St env) (ob0 : Ob) (n : Z) :
  total env ->
  override_num_noops w = None ->
  reset env s = Ok (ob0, s1) ->
  np_randint env 1 (noop_max w + 1) s1 = Ok (n, s2) ->
  0 < n ->
  exists rs ob s',
    length rs = Z.to_nat n /\
    noop_path env (noop_action w) s2 rs None (Some ob) s' /\
    reset (NoopResetEnv_cls (Recorder env)) (w, (log, s))
    = Ok (ob, (w, (log ++ CallReset :: noop_calls (noop_action w) (map done_of rs), s'))).
Proof.
  intros T Ho Er En Hn.
  assert (Pre :
             reset (NoopResetEnv_cls (Recorder env)) (w, (log, s))
             = (assert_ (0 <? n) ;;
                obs <- inner (NoopResetEnv_loop (Recorder env) (noop_action w)
                                                (Z.to_nat n) None) ;;
                match obs with
                | Some o => ret o
                | None => raise (RuntimeError "obs is None")
                end) (w, (log ++ [CallReset], s2))).
  { cbn [reset NoopResetEnv_cls]. unfold NoopResetEnv_reset.
    unfold bind at 1. unfold inner at 1. cbn [fst snd reset Recorder].
    unfold bind at 1, self at 1. cbn [fst snd].
    unfold bind at 1, set_self at 1. cbn [fst snd].
    unfold inner at 1. cbn [fst snd]. rewrite Er.
    unfold bind at 1, self at 1. cbn [fst snd]. rewrite Ho.
    unfold bind at 1. unfold inner at 1. cbn [fst snd np_randint Recorder].
    unfold inner at 1. cbn [fst snd]. rewrite En. reflexivity. }
  rewrite Pre. clear Pre.
  unfold bind at 1, assert_.
  destruct (Z.ltb_spec 0 n); [|lia]. unfold ret at 1.
  destruct (NoopResetEnv_loop_calls env (noop_action w) T (Z.to_nat n)
              (log ++ [CallReset]) s2 None) as (rs & obs' & s' & L & Pa & R & P).
  destruct P as [o Po]; [lia|]. subst obs'.
  exists rs, o, s'. split; [exact L|]. split; [exact Pa|].
  unfold bind at 1, inner at 1. cbn [fst snd]. rewrite R. cbn.
  unfold ret. rewrite <- app_assoc. reflexivity.
Qed.

Lemma NoopResetEnv_reset_witness :
  exists rs ob s',
    length rs = Z.to_nat 1 /\
    noop_path (flicker_emulator 0) (noop_action (mkNoopReset 30 None 0)) 0%nat rs None
              (Some ob) s' /\
    reset (NoopResetEnv_cls (Recorder (flicker_emulator 0)))
          (mkNoopReset 30 None 0, ([], 5%nat))
    = Ok (ob, (mkNoopReset 30 None 0,
               ([] ++ CallReset
                   :: noop_calls (noop_action (mkNoopReset 30 None 0)) (map done_of rs),
                s'))).
Proof.
  apply (NoopResetEnv_reset_noops (flicker_emulator 0) (mkNoopReset 30 None 0) [] 5%nat
           0%nat 0%nat (mkArr [2%nat] [0; 0]) 1).
  - apply scripted_total.
  - reflexivity.
  - reflexivity.
  - reflexivity.
  - lia.
Defined.

(** Over [flicker_emulator 0], whose first tick is done, the one no-op drawn
    is followed by a second reset, whose observation is returned. *)
Example NoopResetEnv_reset_done_run :
  reset (NoopResetEnv_cls (Recorder (flicker_emulator 0)))
        (mkNoopReset 30 None 0, ([], 5%nat))
  = Ok (mkArr [2%nat] [0; 0],
        (mkNoopReset 30 None 0, ([CallReset; CallStep 0; CallReset], 0%nat))).
Proof. reflexivity. Qed.

(** Over [fire_emulator], whose second tick is done, two no-ops make the
    calls reset, step 0, step 0, reset, and the observation is the one of the
    last reset. *)
Example NoopResetEnv_reset_run :
  reset (NoopResetEnv_cls (Recorder fire_emulator)) (mkNoopReset 30 (Some 2) 0, ([], 5%nat))
  = Ok (marker 0,
        (mkNoopReset 30 (Some 2) 0,
         ([CallReset; CallStep 0; CallStep 0; CallReset], 0%nat))) /\
  reset (NoopResetEnv_cls (Recorder fire_emulator)) (mkNoopReset 30 (Some 0) 0, ([], 5%nat))
  = Raise AssertionError.
Proof. split; reflexivity. Qed.

(* ------------------------------------------------------------------ *)
(** * The random convex combination *)
(* ------------------------------------------------------------------ *)

Lemma Qsum_nonneg (xs : list Q) : Forall (fun x => 0 <= x)%Q xs -> (0 <= Qsum xs)%Q.
Proof.
  unfold Qsum. induction 1 as [|x xs Hx _ IH]; cbn [fold_right]; [apply Qle_refl|].
  apply (Qle_trans _ (0 + 0)); [apply Qle_refl|]. apply Qplus_le_compat; assumption.
Qed.

Lemma Qsum_map_abs (xs : list Q) :
  Forall (fun x => 0 <= x)%Q xs -> (Qsum (map Qabs xs) == Qsum xs)%Q.
Proof.
  unfold Qsum. induction 1 as [|x xs Hx _ IH]; cbn [map fold_right]; [reflexivity|].
  rewrite IH, (Qabs_pos x Hx). reflexivity.
Qed.

Lemma Qsum_map_div (xs : list Q) (n : Q) :
  (Qsum (map (fun x => x / n) xs) == Qsum xs / n)%Q.
Proof.
  unfold Qsum. induction xs as [|x xs IH]; cbn [map fold_right].
  - unfold Qdiv. ring.
  - rewrite IH. unfold Qdiv. ring.
Qed.

Lemma random_stochastic_matrix_weights (draws : list Q) :
  Forall (fun x => 0 <= x)%Q draws ->
  (0 < Qsum draws)%Q ->
  tshape (random_stochastic_matrix draws) = [length draws; 1%nat] /\
  length (tdata (random_stochastic_matrix draws)) = length draws /\
  Forall (fun x => 0 <= x)%Q (tdata (random_stochastic_matrix draws)) /\
  (Qsum (tdata (random_stochastic_matrix draws)) == 1)%Q.
Proof.
  intros Hpos Hsum. unfold random_stochastic_matrix. cbn [tshape tdata].
  pose proof (Qsum_map_abs draws Hpos) as Eabs.
  assert (Hn : (0 < Qsum (map Qabs draws))%Q) by (rewrite Eabs; exact Hsum).
  split; [reflexivity|]. split; [apply length_map|]. split.
  - apply Forall_map. eapply Forall_impl; [|exact Hpos].
    intros x Hx. cbn. apply Qle_shift_div_l; [exact Hn|].
    rewrite Qmult_0_l. exact Hx.
  - rewrite Qsum_map_div, Eabs. field.
    intros Z0. rewrite Z0 in Hsum. apply (Qlt_irrefl 0), Hsum.
Qed.

(** [random_stochastic_matrix] returns a column of as many weights as there
    were draws; when the draws are non-negative and not all 0 (as draws from
    [0, 1) are, almost surely), the weights are non-negative and sum to 1. *)
Theorem random_stochastic_matrix_simplex (draws : list Q) :
  Forall (fun x => 0 <= x)%Q draws ->
  (0 < Qsum draws)%Q ->
  tshape (random_stochastic_matrix draws) = [length draws; 1%nat] /\
  length (tdata (random_stochastic_matrix draws)) = length draws /\
  Forall (fun x => 0 <= x)%Q (tdata (random_stochastic_matrix draws)) /\
  (Qsum (tdata (random_stochastic_matrix draws)) == 1)%Q.
Proof. apply random_stochastic_matrix_weights. Qed.

Lemma random_stochastic_matrix_witness :
  tshape (random_stochastic_matrix [1 # 2; 1 # 4]%Q) = [length [1 # 2; 1 # 4]%Q; 1%nat] /\
  length (tdata (random_stochastic_matrix [1 # 2; 1 # 4]%Q)) = length [1 # 2; 1 # 4]%Q /\
  Forall (fun x => 0 <= x)%Q (tdata (random_stochastic_matrix [1 # 2; 1 # 4]%Q)) /\
  (Qsum (tdata (random_stochastic_matrix [1 # 2; 1 # 4]%Q)) == 1)%Q.
Proof.
  apply (random_stochastic_matrix_simplex [1 # 2; 1 # 4]%Q).
  - repeat constructor; unfold Qle; cbn; lia.
  - reflexivity.
Defined.

Lemma dot_bounds (lo hi : Q) :
  forall (xs ws : list Q),
    length xs = length ws ->
    Forall (fun x => lo <= x /\ x <= hi)%Q xs ->
    Forall (fun w => 0 <= w)%Q ws ->
    (lo * Qsum ws <= dot xs ws /\ dot xs ws <= hi * Qsum ws)%Q.
Proof.
  unfold dot. induction xs as [|x xs IH]; intros ws L Hx Hw.
  - destruct ws; [|discriminate]. cbn. split.
    + rewrite Qmult_0_r. apply Qle_refl.
    + rewrite Qmult_0_r. apply Qle_refl.
  - destruct ws as [|w ws]; [discriminate|].
    inversion Hx as [|? ? [Hlo Hhi] Hxs]; subst.
    inversion Hw as [|? ? Hw0 Hws]; subst.
    destruct (IH ws ltac:(cbn in L; lia) Hxs Hws) as [A B].
    cbn [combine map Qsum fold_right fst snd]. split.
    + setoid_replace (lo * (w + fold_right Qplus 0 ws))%Q
        with (lo * w + lo * Qsum ws)%Q by (unfold Qsum; ring).
      apply Qplus_le_compat; [|exact A].
      apply Qmult_le_compat_r; assumption.
    + setoid_replace (hi * (w + fold_right Qplus 0 ws))%Q
        with (hi * w + hi * Qsum ws)%Q by (unfold Qsum; ring).
      apply Qplus_le_compat; [|exact B].
      apply Qmult_le_compat_r; assumption.
Qed.

Lemma column_single (m : list Q) : column 1 0 m = m.
Proof.
  unfold column. rewrite Nat.div_1_r.
  apply nth_ext with (d := 0%Q) (d' := 0%Q).
  - rewrite length_map, length_seq. reflexivity.
  - intros n Hn. rewrite length_map, length_seq in Hn.
    rewrite (nth_indep _ 0%Q ((fun r => nth (r * 1 + 0) m 0%Q) 0%nat))
      by (rewrite length_map, length_seq; exact Hn).
    rewrite (map_nth (fun r => nth (r * 1 + 0) m 0%Q) (seq 0 (length m)) 0%nat n).
    rewrite seq_nth by exact Hn. f_equal. lia.
Qed.

Lemma flat_map_single {A B : Type} (g : A -> B) (l : list A) :
  flat_map (fun x => [g x]) l = map g l.
Proof. induction l as [|x l IH]; [reflexivity|]. cbn. rewrite IH. reflexivity. Qed.

(** In exact (rational) arithmetic: under "STOCHASTIC", with the weights
    [random_stochastic_matrix] makes of non-negative draws that are not all
    0, [combine_q_functions] returns for each (batch, action) pair the
    weighted sum of its heads, which lies between the smallest and the
    largest of them, beside the mean; the [squeeze] removes the column axis
    and every other axis of size 1, so a batch of one loses its batch axis.
    Without a matrix it raises [TypeError].  The bounds are those of the
    exact weighted sum; the float32 sum of the code can leave them by its
    rounding error. *)
Theorem combine_q_functions_stochastic (b a h : nat) (xs draws : list Q) :
  length xs = (b * a * h)%nat ->
  length draws = h ->
  Forall (fun x => 0 <= x)%Q draws ->
  (0 < Qsum draws)%Q ->
  exists q_heads,
    combine_q_functions (mkTensor [b; a; h] xs) "STOCHASTIC"
                        (Some (random_stochastic_matrix draws))
    = Ok (q_heads, torch_mean_last (mkTensor [b; a; h] xs)) /\
    tshape q_heads = filter (fun d => negb (d =? 1)%nat) [b; a; 1%nat] /\
    length (tdata q_heads) = (b * a)%nat /\
    (forall (i : nat) (lo hi : Q),
        (i < b * a)%nat ->
        (forall j, (j < h)%nat -> lo <= nth (i * h + j) xs 0 /\ nth (i * h + j) xs 0 <= hi)%Q ->
        (lo <= nth i (tdata q_heads) 0 /\ nth i (tdata q_heads) 0 <= hi)%Q) /\
    combine_q_functions (mkTensor [b; a; h] xs) "STOCHASTIC" None
    = Raise (TypeError "matmul(): argument 'other' must be Tensor, not NoneType").
Proof.
  intros Lx Ld Hpos Hsum.
  destruct (random_stochastic_matrix_weights draws Hpos Hsum) as (_ & Lw & Wpos & Wsum).
  set (ws := tdata (random_stochastic_matrix draws)) in *.
  set (rs := rows h (b * a) xs).
  exists (mkTensor (filter (fun d => negb (d =? 1)%nat) [b; a; 1%nat])
                   (map (fun row => dot row ws) rs)).
  split; [|split; [reflexivity|split; [|split]]].
  - unfold combine_q_functions. cbn [String.eqb Ascii.eqb Bool.eqb and_then].
    unfold torch_matmul, random_stochastic_matrix. cbn [tshape tdata List.last].
    rewrite Ld, Nat.eqb_refl. unfold and_then, torch_squeeze. cbn [tshape tdata].
    do 2 f_equal. f_equal.
    unfold last_axis_rows. cbn [tshape tdata List.last removelast size_of fold_right].
    rewrite Nat.mul_1_r. fold rs. cbn [seq map].
    rewrite (flat_map_single (fun row => dot row (column 1 0 (map (fun x => x / Qsum (map Qabs draws)) draws)))%Q rs).
    rewrite column_single. reflexivity.
  - cbn [tdata]. rewrite length_map. apply rows_length.
  - intros i lo hi Hi Hb. cbn [tdata].
    rewrite (nth_indep _ 0%Q ((fun row => dot row ws) []))
      by (rewrite length_map; unfold rs; rewrite rows_length; exact Hi).
    rewrite (map_nth (fun row => dot row ws) rs [] i).
    unfold rs. rewrite rows_nth by exact Hi.
    assert (Lrow : length (firstn h (skipn (i * h) xs)) = h).
    { rewrite length_firstn, length_skipn. nia. }
    destruct (dot_bounds lo hi (firstn h (skipn (i * h) xs)) ws) as [A B].
    + rewrite Lrow. unfold ws in *. rewrite Lw. symmetry. exact Ld.
    + rewrite firstn_as_nth by (rewrite length_skipn; nia).
      apply Forall_map. apply Forall_forall. intros j Hj. apply in_seq in Hj.
      rewrite nth_skipn_Q. apply Hb. lia.
    + exact Wpos.
    + rewrite Wsum in A, B. rewrite Qmult_1_r in A, B. split; assumption.
  - reflexivity.
Qed.

Lemma combine_q_functions_stochastic_witness :
  exists q_heads,
    combine_q_functions (mkTensor [1; 3; 2]%nat [1; 2; 9; 0; 5; 6]%Q) "STOCHASTIC"
                        (Some (random_stochastic_matrix [1 # 2; 1 # 4]%Q))
    = Ok (q_heads, torch_mean_last (mkTensor [1; 3; 2]%nat [1; 2; 9; 0; 5; 6]%Q)) /\
    tshape q_heads = filter (fun d => negb (d =? 1)%nat) [1; 3; 1]%nat /\
    length (tdata q_heads) = (1 * 3)%nat /\
    (forall (i : nat) (lo hi : Q),
        (i < 1 * 3)%nat ->
        (forall j, (j < 2)%nat ->
                   lo <= nth (i * 2 + j) [1; 2; 9; 0; 5; 6]%Q 0 /\
                   nth (i * 2 + j) [1; 2; 9; 0; 5; 6]%Q 0 <= hi)%Q ->
        (lo <= nth i (tdata q_heads) 0 /\ nth i (tdata q_heads) 0 <= hi)%Q) /\
    combine_q_functions (mkTensor [1; 3; 2]%nat [1; 2; 9; 0; 5; 6]%Q) "STOCHASTIC" None
    = Raise (TypeError "matmul(): argument 'other' must be Tensor, not NoneType").
Proof.
  apply (combine_q_functions_stochastic 1 3 2 [1; 2; 9; 0; 5; 6]%Q [1 # 2; 1 # 4]%Q).
  - reflexivity.
  - reflexivity.
  - repeat constructor; unfold Qle; cbn; lia.
  - reflexivity.
Defined.

(* ------------------------------------------------------------------ *)
(** * The epsilon schedule: bounds and monotonicity *)
(* ------------------------------------------------------------------ *)

(** In exact arithmetic, for [duration > 0] and [start_e >= end_e], the
    schedule never goes below [end_e], never above [start_e] from step 0 on,
    and does not increase with the step count.  (The lower bound [end_e]
    holds for every [t], whatever the order of [start_e] and [end_e].) *)
Theorem linear_schedule_bounds (start_e end_e duration t1 t2 : Q) :
  (0 < duration)%Q -> (end_e <= start_e)%Q ->
  (0 <= t1)%Q -> (t1 <= t2)%Q ->
  exists v1 v2,
    linear_schedule start_e end_e duration t1 = Ok v1 /\
    linear_schedule start_e end_e duration t2 = Ok v2 /\
    (end_e <= v2)%Q /\ (v2 <= v1)%Q /\ (v1 <= start_e)%Q.
Proof.
  intros Hd Hse H1 H12.
  assert (Hd0 : Qeq_bool duration 0 = false).
  { destruct (Qeq_bool duration 0) eqn:E; [|reflexivity].
    apply Qeq_bool_eq in E. rewrite E in Hd. exfalso. apply (Qlt_irrefl 0), Hd. }
  unfold linear_schedule. rewrite Hd0.
  set (slope := ((end_e - start_e) / duration)%Q).
  assert (Hs : (0 <= - slope)%Q).
  { unfold slope. setoid_replace (- ((end_e - start_e) / duration))%Q
      with ((start_e - end_e) / duration)%Q
      by (field; intros Z0; rewrite Z0 in Hd; apply (Qlt_irrefl 0), Hd).
    apply Qle_shift_div_l; [exact Hd|]. rewrite Qmult_0_l.
    unfold Qminus. apply -> Qle_minus_iff. exact Hse. }
  assert (Hmono : (slope * t2 + start_e <= slope * t1 + start_e)%Q).
  { apply Qplus_le_l. apply Qle_minus_iff.
    setoid_replace (slope * t1 + - (slope * t2))%Q with (- slope * (t2 - t1))%Q by ring.
    apply Qmult_le_0_compat; [exact Hs|].
    unfold Qminus. apply -> Qle_minus_iff. exact H12. }
  assert (Htop : (slope * t1 + start_e <= start_e)%Q).
  { apply Qle_minus_iff.
    setoid_replace (start_e + - (slope * t1 + start_e))%Q with (- slope * t1)%Q by ring.
    apply Qmult_le_0_compat; assumption. }
  exists (Qmax (slope * t1 + start_e) end_e), (Qmax (slope * t2 + start_e) end_e).
  split; [reflexivity|]. split; [reflexivity|]. split; [apply Q.le_max_r|]. split.
  - apply Q.max_le_compat_r. exact Hmono.
  - apply Q.max_lub; assumption.
Qed.

Lemma linear_schedule_bounds_witness :
  exists v1 v2,
    linear_schedule 1 (1 # 100) 100 20 = Ok v1 /\
    linear_schedule 1 (1 # 100) 100 250 = Ok v2 /\
    (1 # 100 <= v2)%Q /\ (v2 <= v1)%Q /\ (v1 <= 1)%Q.
Proof.
  apply (linear_schedule_bounds 1 (1 # 100) 100 20 250)%Q.
  - reflexivity.
  - unfold Qle; cbn; lia.
  - unfold Qle; cbn; lia.
  - unfold Qle; cbn; lia.
Defined.

(* ------------------------------------------------------------------ *)
(** * The greedy action *)
(* ------------------------------------------------------------------ *)

Section Act.
Context (args : Args) (Params : Type)
        (network : Params -> list ndarray -> result tensor) (n_actions : nat)
        (Buffer : Type)
        (rb_add : Buffer -> ndarray * Observation * Z * Q * bool -> Buffer)
        (random_random : Z -> Q) (action_space_sample : Z -> Z).

(** One pass through lines 609-633, seen from the environment (which logs
    the calls it receives).  The environment is stepped once, with the
    action the loop decided on for the observation it holds, and reset after
    that exactly when the step reported [done]; the transition stored in the
    replay buffer holds that action and what the step returned.  When the
    loop does not explore (the schedule taken in exact arithmetic), the
    action is a valid action index (below
    [env.action_space.n]), and no action has a larger mean Q-value for the
    observation; the mean Q-values come as one row of [n_actions]
    entries. *)
Theorem greedy_action_in_range (c : Env Observation) (log : list call) (st0 : St c)
        (g : Z) (s s' : LoopState Params Buffer) :
  env Params Buffer s = mkObj (Recorder c) (log, st0) ->
  act_phase args Params network n_actions Buffer rb_add
            random_random action_space_sample g s = Ok s' ->
  exists arr action q_heads q_values epsilon r st1,
    decide args Params network n_actions Buffer random_random action_space_sample g s
    = Ok (arr, action) /\
    np_array (obs Params Buffer s) = Ok arr /\
    forward network n_actions (q_network Params Buffer s) [arr] = Ok (q_heads, q_values) /\
    linear_schedule (start_e args) (end_e args)
      (exploration_fraction args * inject_Z (total_timesteps args))%Q (inject_Z g)
    = Ok epsilon /\
    step c action st0 = Ok (r, st1) /\
    (exists st2,
        env Params Buffer s'
        = mkObj (Recorder c)
                (log ++ CallStep action :: (if done_of r then [CallReset] else []), st2)) /\
    rb Params Buffer s'
    = rb_add (rb Params Buffer s) (arr, obs_of r, action, reward_of r, done_of r) /\
    ((random_random g < epsilon)%Q -> action = action_space_sample g) /\
    ((epsilon <= random_random g)%Q ->
     tshape q_values = [1%nat; n_actions] /\
     length (tdata q_values) = n_actions /\
     0 <= action < Z.of_nat n_actions /\
     forall j, (j < n_actions)%nat ->
               (nth j (tdata q_values) 0 <= nth (Z.to_nat action) (tdata q_values) 0)%Q).
Proof.
  intros He H. unfold act_phase in H. unfold and_then at 1 in H.
  destruct (decide _ _ _ _ _ _ _ g s) as [[arr action]|] eqn:DE; [|discriminate].
  destruct (decide_spec _ _ _ _ _ _ _ _ _ _ _ DE)
    as (q_heads & q_values & epsilon & A & F & _ & S & C).
  rewrite He in H. unfold obj_step in H. cbn [cls st] in H.
  cbn [step Recorder] in H. unfold bind, self, set_self, inner in H. cbn [fst snd] in H.
  destruct (step c action st0) as [[r st1]|] eqn:ST; [|discriminate].
  destruct r as [[[next_obs reward] done] info]. unfold and_then in H.
  exists arr, action, q_heads, q_values, epsilon, (next_obs, reward, done, info), st1.
  split; [reflexivity|].
  split; [exact A|]. split; [exact F|]. split; [exact S|]. split; [exact ST|].
  unfold done_of, obs_of, reward_of. cbn [fst snd].
  assert (G : ((random_random g < epsilon)%Q -> action = action_space_sample g) /\
              ((epsilon <= random_random g)%Q ->
               tshape q_values = [1%nat; n_actions] /\
               length (tdata q_values) = n_actions /\
               0 <= action < Z.of_nat n_actions /\
               forall j, (j < n_actions)%nat ->
                         (nth j (tdata q_values) 0
                          <= nth (Z.to_nat action) (tdata q_values) 0)%Q)).
  { destruct (choose_action_spec _ _ _ _ _ C) as [[L E]|[L E]]; split.
    - intros _. exact E.
    - intros Hle. exfalso. apply (Qlt_not_le _ _ L). exact Hle.
    - intros Hlt. exfalso. apply (Qlt_not_le _ _ Hlt). exact L.
    - intros _.
      destruct (forward_q_values _ _ _ _ _ _ F) as (raw & u & E1 & E2 & E3).
      subst q_values.
      destruct (argmax_of_mean _ _ _ _ _ E2 E) as (_ & Hsh & Hl & Hentry & R & M).
      split; [exact Hsh|]. split; [exact Hl|]. split; [exact R|].
      intros j Hj. rewrite (Hentry j Hj), (Hentry (Z.to_nat action)) by lia.
      apply M. exact Hj. }
  destruct done.
  - unfold obj_reset in H. cbn [cls st] in H.
    cbn [reset Recorder] in H. unfold bind, self, set_self, inner in H. cbn [fst snd] in H.
    destruct (reset c st1) as [[ob2 st2]|]; [|discriminate].
    inversion H; subst s'; clear H. cbn [env rb].
    split; [exists st2; rewrite <- app_assoc; reflexivity|]. split; [reflexivity|exact G].
  - inversion H; subst s'; clear H. cbn [env rb].
    split; [exists st1; reflexivity|]. split; [reflexivity|exact G].
Qed.
End Act.

Lemma greedy_action_in_range_witness :
  exists arr action q_heads q_values epsilon r st1,
    stub_decide 1 (stub_recorded (Some (mkTensor [2; 1]%nat [1; 0]%Q))) = Ok (arr, action) /\
    np_array (Array (marker 7)) = Ok arr /\
    forward stub_network 3 (stub_net (Some (mkTensor [2; 1]%nat [1; 0]%Q))) [arr]
    = Ok (q_heads, q_values) /\
    linear_schedule 1 (1 # 100) ((1 # 5) * inject_Z 50)%Q (inject_Z 1) = Ok epsilon /\
    step (cls (present Array (mkObj marker_emulator 0%nat))) action 0%nat = Ok (r, st1) /\
    (exists st2,
        env _ _ stub_acted
        = mkObj (Recorder (cls (present Array (mkObj marker_emulator 0%nat))))
                ([] ++ CallStep action :: (if done_of r then [CallReset] else []), st2)) /\
    rb _ _ stub_acted
    = stub_rb_add [] (arr, obs_of r, action, reward_of r, done_of r) /\
    ((1 < epsilon)%Q -> action = 1 mod 3) /\
    ((epsilon <= 1)%Q ->
     tshape q_values = [1%nat; 3%nat] /\
     length (tdata q_values) = 3%nat /\
     0 <= action < Z.of_nat 3 /\
     forall j, (j < 3)%nat ->
               (nth j (tdata q_values) 0 <= nth (Z.to_nat action) (tdata q_values) 0)%Q).
Proof.
  apply (greedy_action_in_range stub_args unit stub_network 3
           (list (ndarray * Observation * Z * Q * bool)) stub_rb_add
           (fun g => if Z.even g then 0%Q else 1%Q) (fun g => g mod 3)
           (cls (present Array (mkObj marker_emulator 0%nat))) [] 0%nat 1
           (stub_recorded (Some (mkTensor [2; 1]%nat [1; 0]%Q))) stub_acted).
  - reflexivity.
  - vm_compute. reflexivity.
Defined.

(** In the stub run's state the greedy pass hands action 2 to the
    environment, which sees one [step] and no [reset]. *)
Example stub_acted_log :
  env _ _ stub_acted
  = mkObj (Recorder (cls (present Array (mkObj marker_emulator 0%nat))))
          ([CallStep 2], 1%nat).
Proof. vm_compute. reflexivity. Qed.

(* ------------------------------------------------------------------ *)
(** * When the training pipeline can be built *)
(* ------------------------------------------------------------------ *)

Lemma existsb_eqb_In (x : string) (l : list string) :
  existsb (String.eqb x) l = true <-> In x l.
Proof.
  rewrite existsb_exists. split.
  - intros (y & Hy & E). apply String.eqb_eq in E. subst. exact Hy.
  - intros H. exists x. split; [exact H|apply String.eqb_refl].
Qed.

Section Pipeline_construction.
Context (cv2_cvtColor_RGB2GRAY : ndarray -> result ndarray)
        (cv2_resize_INTER_AREA : ndarray -> nat -> nat -> result ndarray)
        (astype_float32_div_255 : ndarray -> result ndarray).

(** The constructors of the training pipeline go through exactly when the
    emulator's id contains "NoFrameskip", its first action is "NOOP", its
    observation space has dtype uint8 and three dimensions, and, if it has
    an action "FIRE" at all, "FIRE" is its second action and it has at least
    three actions.  An emulator with "FIRE" at another position fails the
    assertion of [FireResetEnv]; an observation space of another dtype or
    rank fails the assertion of [WarpFrame]. *)
Theorem training_env_builds_iff (emulator : Obj ndarray) :
  (exists env,
      training_env cv2_cvtColor_RGB2GRAY cv2_resize_INTER_AREA astype_float32_div_255
                   emulator = Ok env) <->
  (str_in "NoFrameskip" (spec_id (cls emulator)) = true /\
   hd_error (action_meanings (cls emulator)) = Some "NOOP"%string /\
   observation_dtype (cls emulator) = np_uint8 /\
   length (observation_shape (cls emulator)) = 3%nat /\
   (In "FIRE"%string (action_meanings (cls emulator)) ->
    nth_error (action_meanings (cls emulator)) 1 = Some "FIRE"%string /\
    (3 <= length (action_meanings (cls emulator)))%nat)).
Proof.
  unfold training_env, wrap_atari, NoopResetEnv.
  destruct (str_in "NoFrameskip" (spec_id (cls emulator))) eqn:Eid; cbn [and_then].
  2:{ split; [intros [env H]; discriminate|intros [H _]; discriminate]. }
  destruct (action_meanings (cls emulator)) as [|m0 ms] eqn:Em; cbn [and_then].
  { split; [intros [env H]; discriminate|intros (_ & H & _); discriminate]. }
  destruct (String.eqb_spec m0 "NOOP") as [E0|E0]; cbn [and_then].
  2:{ split; [intros [env H]; discriminate|].
      intros (_ & H & _). cbn in H. congruence. }
  subst m0.
  set (e2 := RecordEpisodeStatistics
               (MaxAndSkipEnv
                  (mkObj (NoopResetEnv_cls (cls emulator))
                         (mkNoopReset 30 None 0, st emulator)) 4)).
  assert (Hm : action_meanings (cls e2) = "NOOP"%string :: ms) by exact Em.
  assert (Hs : observation_shape (cls e2) = observation_shape (cls emulator))
    by reflexivity.
  assert (Hd : observation_dtype (cls e2) = observation_dtype (cls emulator))
    by reflexivity.
  clearbody e2.
  assert (Tail : forall e1 : Obj ndarray,
             observation_shape (cls e1) = observation_shape (cls emulator) ->
             observation_dtype (cls e1) = observation_dtype (cls emulator) ->
             (exists env,
                 (env2 <<- WarpFrame cv2_cvtColor_RGB2GRAY cv2_resize_INTER_AREA e1 84 84 true ;;
                  env3 <<- ImageToPyTorch (ClipRewardEnv env2) ;;
                  env4 <<- FrameStack env3 4 ;; Ok (present Stacked env4)) = Ok env)
             <-> (observation_dtype (cls emulator) = np_uint8 /\
                  length (observation_shape (cls emulator)) = 3%nat)).
  { intros e1 H1 H2. unfold WarpFrame. rewrite H1, H2.
    destruct (observation_dtype (cls emulator)) as [| |name]; cbn [is_np_uint8 andb].
    - destruct (Nat.eqb_spec (length (observation_shape (cls emulator))) 3) as [S3|S3].
      + split; [intros _; split; [reflexivity|exact S3]|]. intros _. eexists. reflexivity.
      + split; [intros [env H]; discriminate|]. intros [_ X]. contradiction.
    - split; [intros [env H]; discriminate|]. intros [X _]. discriminate.
    - split; [intros [env H]; discriminate|]. intros [X _]. discriminate. }
  unfold wrap_deepmind. rewrite Hm.
  destruct (existsb (String.eqb "FIRE") ("NOOP"%string :: ms)) eqn:Ef.
  - apply existsb_eqb_In in Ef.
    unfold FireResetEnv. rewrite Hm.
    destruct (nth_error ("NOOP"%string :: ms) 1) as [m1|] eqn:E1.
    2:{ split; [intros [env H]; discriminate|].
        intros (_ & _ & _ & _ & H). destruct (H Ef) as [X _]. discriminate. }
    destruct (String.eqb_spec m1 "FIRE") as [F1|F1].
    2:{ split; [intros [env H]; discriminate|].
        intros (_ & _ & _ & _ & H). destruct (H Ef) as [X _]. congruence. }
    subst m1.
    destruct (Nat.leb_spec 3 (length ("NOOP"%string :: ms))) as [L3|L3].
    2:{ split; [intros [env H]; discriminate|].
        intros (_ & _ & _ & _ & H). destruct (H Ef) as [_ X]. lia. }
    cbn [and_then].
    rewrite (Tail (mkObj (FireResetEnv_cls (cls e2)) (st e2)) Hs Hd).
    split.
    + intros [D S3]. repeat split; auto.
    + intros (_ & _ & D & S3 & _). split; [exact D|exact S3].
  - assert (Nf : ~ In "FIRE"%string ("NOOP"%string :: ms)).
    { intros X. apply existsb_eqb_In in X. congruence. }
    cbn [and_then]. rewrite (Tail e2 Hs Hd).
    split.
    + intros [D S3]. repeat split; auto; contradiction.
    + intros (_ & _ & D & S3 & _). split; [exact D|exact S3].
Qed.
End Pipeline_construction.

Lemma training_env_builds_witness :
  (exists env,
      training_env stub_cvtColor stub_resize stub_scale (mkObj life_loss_emulator 0%nat)
      = Ok env) <->
  (str_in "NoFrameskip" (spec_id life_loss_emulator) = true /\
   hd_error (action_meanings life_loss_emulator) = Some "NOOP"%string /\
   observation_dtype life_loss_emulator = np_uint8 /\
   length (observation_shape life_loss_emulator) = 3%nat /\
   (In "FIRE"%string (action_meanings life_loss_emulator) ->
    nth_error (action_meanings life_loss_emulator) 1 = Some "FIRE"%string /\
    (3 <= length (action_meanings life_loss_emulator))%nat)).
Proof.
  apply (training_env_builds_iff stub_cvtColor stub_resize stub_scale
           (mkObj life_loss_emulator 0%nat)).
Defined.

(** The same emulator with a float32 observation space fails the assertion
    of [WarpFrame] (line 170). *)
Example training_env_float32_space :
  training_env stub_cvtColor stub_resize stub_scale
               (mkObj (with_dtype np_float32 life_loss_emulator) 0%nat)
  = Raise AssertionError.
Proof. reflexivity. Qed.

(* ------------------------------------------------------------------ *)
(** * Rewards at the end of the pipeline *)
(* ------------------------------------------------------------------ *)

Lemma rewards_clipped_ClipRewardEnv {Ob : Type} (env : Obj Ob) :
  rewards_clipped (cls (ClipRewardEnv env)).
Proof.
  intros a s r s' H. cbn in H. unfold RewardWrapper_step, bind, ret in H.
  destruct (step (cls env) a s) as [[[[[ob rw] d] i] s1]|]; [|discriminate].
  inversion H; subst. unfold reward_of. cbn [fst snd].
  unfold ClipRewardEnv_reward, np_sign. destruct (rw ?= 0)%Q; cbn; auto.
Qed.

Lemma rewards_clipped_observation {Ob Ob' : Type} (f : Ob -> result Ob') (sh : list nat)
      (dt : dtype) (env : Env Ob) :
  rewards_clipped env -> rewards_clipped (ObservationWrapper_cls f sh dt env).
Proof.
  intros C a s r s' H. cbn in H. unfold ObservationWrapper_step, bind in H.
  destruct (step env a s) as [[[[[ob rw] d] i] s1]|] eqn:E; [|discriminate].
  unfold lift, ret in H. destruct (f ob) as [ob'|]; [|discriminate].
  inversion H; subst. apply (C _ _ _ _ E).
Qed.

Lemma rewards_clipped_FrameStack (env : Env ndarray) (sh : list nat) :
  rewards_clipped env -> rewards_clipped (FrameStack_cls env sh).
Proof.
  intros C a [w s] r [w' s'] H. cbn in H.
  unfold FrameStack_step in H. unfold bind at 1, inner at 1 in H. cbn [fst snd] in H.
  destruct (step env a s) as [[[[[ob rw] d] i] s1]|] eqn:E; [|discriminate].
  unfold FrameStack_append, FrameStack_get_ob in H. run_monad_in H.
  destruct (Z.of_nat _ =? k w); [|discriminate].
  inversion H; subst. apply (C _ _ _ _ E).
Qed.

Section Pipeline_rewards.
Context (cv2_cvtColor_RGB2GRAY : ndarray -> result ndarray)
        (cv2_resize_INTER_AREA : ndarray -> nat -> nat -> result ndarray)
        (astype_float32_div_255 : ndarray -> result ndarray).

(** The pipeline [wrap_deepmind] builds with [clip_rewards=True], and so the
    training pipeline, pays -1, 0 or +1 at every step: the stages put on top
    of the clipping leave the reward alone. *)
Theorem wrap_deepmind_rewards_clipped :
  (forall (env0 : Obj ndarray) (episode_life frame_stack scale : bool)
          (env : Obj Observation),
      wrap_deepmind cv2_cvtColor_RGB2GRAY cv2_resize_INTER_AREA astype_float32_div_255
                    env0 episode_life true frame_stack scale = Ok env ->
      rewards_clipped (cls env)) /\
  (forall (emulator : Obj ndarray) (env : Obj Observation),
      training_env cv2_cvtColor_RGB2GRAY cv2_resize_INTER_AREA astype_float32_div_255
                   emulator = Ok env ->
      rewards_clipped (cls env)).
Proof.
  assert (W : forall env0 el fs sc env,
             wrap_deepmind cv2_cvtColor_RGB2GRAY cv2_resize_INTER_AREA
                           astype_float32_div_255 env0 el true fs sc = Ok env ->
             rewards_clipped (cls env)).
  { intros env0 el fs sc env. unfold wrap_deepmind.
    set (base := if el then EpisodicLifeEnv env0 else env0).
    unfold and_then at 1.
    destruct (if existsb (String.eqb "FIRE") (action_meanings (cls base))
              then FireResetEnv base else Ok base) as [e1|]; [|discriminate].
    unfold and_then at 1.
    destruct (WarpFrame _ _ e1 84 84 true) as [e2|]; [|discriminate].
    set (e3 := if sc then ScaledFloatFrame astype_float32_div_255 e2 else e2).
    pose proof (rewards_clipped_ClipRewardEnv e3) as C4.
    set (e4 := ClipRewardEnv e3) in *. clearbody e4.
    unfold and_then at 1. unfold ImageToPyTorch.
    destruct (observation_shape (cls e4)) as [|d0 [|d1 rest]]; try discriminate.
    destruct fs.
    - unfold and_then, FrameStack. cbn [Z.ltb Z.compare].
      cbn [cls observation_shape ObservationWrapper_cls].
      intros H. inversion H; subst. cbn [cls present].
      apply rewards_clipped_observation. apply rewards_clipped_FrameStack.
      cbn [cls]. apply rewards_clipped_observation. exact C4.
    - intros H. inversion H; subst. cbn [cls present].
      apply rewards_clipped_observation. cbn [cls].
      apply rewards_clipped_observation. exact C4. }
  split; [exact W|].
  intros emulator env H. unfold training_env, and_then in H.
  destruct (wrap_atari emulator None) as [atari|]; [|discriminate].
  apply (W _ _ _ _ _ H).
Qed.
End Pipeline_rewards.

Lemma wrap_deepmind_rewards_clipped_witness :
  rewards_clipped (cls stub_training_env).
Proof.
  apply (proj2 (wrap_deepmind_rewards_clipped stub_cvtColor stub_resize stub_scale)
               (mkObj life_loss_emulator 0%nat) stub_training_env).
  vm_compute. reflexivity.
Defined.

(* ------------------------------------------------------------------ *)
(** * MaxAndSkipEnv: the calls it makes *)
(* ------------------------------------------------------------------ *)

Lemma window_Recorder (env : Env ndarray) (action : Z) :
  forall (n : nat) (log : list call) (s s' : St env) (ticks : list (StepRet ndarray)),
    window env action n s = Ok (ticks, s') ->
    window (Recorder env) action n (log, s)
    = Ok (ticks, (log ++ repeat (CallStep action) (length ticks), s')).
Proof.
  induction n as [|n IH]; intros log s s' ticks H; cbn [window] in *.
  - inversion H; subst. cbn. rewrite app_nil_r. reflexivity.
  - unfold bind at 1 in H.
    destruct (step env action s) as [[r s1]|] eqn:E; [|discriminate].
    unfold bind at 1. cbn [step Recorder]. run_monad. rewrite E. cbn.
    destruct (done_of r) eqn:D.
    + unfold ret in H. inversion H; subst. reflexivity.
    + unfold bind, ret in H.
      destruct (window env action n s1) as [[rs s2]|] eqn:Ew; [|discriminate].
      inversion H; subst.
      pose proof (IH (log ++ [CallStep action]) _ _ _ Ew) as R.
      unfold bind, ret. rewrite R. cbn. rewrite <- app_assoc. reflexivity.
Qed.

(** A step of [MaxAndSkipEnv] with [_skip >= 1] steps the wrapped
    environment with the caller's action, between once and [_skip] times,
    and makes no other call on it: it never resets it. *)
Theorem MaxAndSkipEnv_step_calls
        (env : Env ndarray) (action : Z) (w : MaxAndSkipEnv_self) (log : list call)
        (s s' : St env) (ticks : list (StepRet ndarray)) :
  1 <= _skip w ->
  shape (fst (_obs_buffer w)) = observation_shape env ->
  shape (snd (_obs_buffer w)) = observation_shape env ->
  window env action (Z.to_nat (_skip w)) s = Ok (ticks, s') ->
  Forall (fun r => shape (obs_of r) = observation_shape env) ticks ->
  exists r w',
    step (MaxAndSkipEnv_cls (Recorder env)) action (w, (log, s))
    = Ok (r, (w', (log ++ repeat (CallStep action) (length ticks), s'))) /\
    (1 <= length ticks <= Z.to_nat (_skip w))%nat.
Proof.
  intros Hskip Hs0 Hs1 Hwin Hsh.
  set (n := Z.to_nat (_skip w)) in *.
  assert (Hn : _skip w = Z.of_nat n) by (unfold n; lia).
  pose proof (window_Recorder env action n log s s' ticks Hwin) as HwinR.
  destruct (MaxAndSkipEnv_loop_spec (Recorder env) action n (observation_shape env)
              n 0%nat (mkLocals 0%Q None) w (log, s)
              (log ++ repeat (CallStep action) (length ticks), s') ticks)
    as (w' & r0 & Eloop & Hlast & Hin & Hsk & H0 & H1 & Hbuf);
    try assumption; try lia.
  exists (np_maximum (fst (_obs_buffer w')) (snd (_obs_buffer w')),
          fold_left Qplus (map reward_of ticks) 0%Q, done_of r0, snd r0), w'.
  split.
  - cbn [step MaxAndSkipEnv_cls]. unfold MaxAndSkipEnv_step.
    unfold bind at 1, self at 1. cbn [fst snd]. unfold range. fold n.
    unfold bind at 1.
    match goal with
    | |- match ?X with _ => _ end = _ =>
        match type of Eloop with
        | _ = ?R => replace X with R by (symmetry; exact Eloop)
        end
    end.
    cbn. reflexivity.
  - destruct (window_shape env action n s s' ticks Hwin) as (L & _ & _).
    split; [|exact L]. destruct ticks; [contradiction|cbn; lia].
Qed.

Lemma MaxAndSkipEnv_step_calls_witness :
  exists r w',
    step (MaxAndSkipEnv_cls (Recorder (flicker_emulator 1))) 2
         (mkMaxAndSkip (np_zeros [2%nat], np_zeros [2%nat]) 4, ([CallReset], 0%nat))
    = Ok (r, (w', ([CallReset] ++ repeat (CallStep 2) 2, 2%nat))) /\
    (1 <= 2 <= 4)%nat.
Proof.
  apply (MaxAndSkipEnv_step_calls (flicker_emulator 1) 2
           (mkMaxAndSkip (np_zeros [2%nat], np_zeros [2%nat]) 4) [CallReset] 0%nat 2%nat
           [ (mkArr [2%nat] [0; 50], 1%Q, false, [("ale.lives"%string, inject_Z 3)]);
             (mkArr [2%nat] [10; 40], 2%Q, true, [("ale.lives"%string, inject_Z 3)]) ]).
  - cbn. lia.
  - reflexivity.
  - reflexivity.
  - reflexivity.
  - repeat constructor.
Defined.
